(** * The slide navigation controller of src/app.js

    A shallow embedding of [PresentationController]: the navigation state
    (current slide, slide count, transition lock), the two [setTimeout]
    callbacks of [goToSlide], the presenter methods ([updateSlideCounter],
    [updateProgressBar], [updateNavigationButtons], [updateDocumentTitle],
    [announceSlideChange]), the keyboard and touch adapters and
    [exportSlideData].

    Conventions.
    - Slide indices and millisecond time stamps are JavaScript integers and
      are modelled by [Z]; touch coordinates are JavaScript numbers that may
      be fractional and are modelled by [Q].
    - The result of the one division of the program,
      [(currentSlide + 1) / totalSlides], is modelled by [JsNum.num]: an
      exact rational, or one of the IEEE specials a division by zero yields.
      Rounding to binary64 and the sign of zero are abstracted.
    - The DOM nodes the controller keeps references to are the fields of the
      record [Page]; a missing element ([null]) is [None].
    - [setTimeout] is a queue of pending callbacks ordered by due time and a
      virtual clock, which also serves [Date.now()]; [elapse] lets time pass
      and runs the callbacks that come due, in order, each at its due time.
      The queue of [World] holds the callbacks of [goToSlide] and of
      [announceToScreenReader]; the [hideNavigation] callback of the
      auto-hide timer has a queue of its own, in [AutoHide].
    - A handler runs to completion: the worlds of the model are the states
      between two events.
    - [handleTouchEnd] returns, next to the new state, the navigator method
      it called, so that the gesture claims can speak about it.
    - The auto-hide timer only touches inline styles and a timer of its
      own; it is modelled apart, on [AutoHide.State]. Fullscreen and print
      only reach host APIs and are not modelled. *)

From Stdlib Require Import ZArith QArith Qabs String Ascii Lia Bool.
From stdpp Require Import base list strings pretty.

Local Open Scope Z_scope.

(** ** JavaScript numbers produced by a division of integers *)

Module JsNum.

Inductive num : Type :=
| Fin (q : Q)
| PosInf
| NegInf
| NaN.

(** [a / b] for integers [a] and [b]: a zero divisor does not throw, it
    yields an infinity (or NaN for [0 / 0]). *)
Definition div (a b : Z) : num :=
  if b =? 0 then
    if 0 <? a then PosInf else if a <? 0 then NegInf else NaN
  else Fin (inject_Z a / inject_Z b)%Q.

Definition neg (x : num) : num :=
  match x with
  | Fin q => Fin (- q)%Q
  | PosInf => NegInf
  | NegInf => PosInf
  | NaN => NaN
  end.

Definition mul (x y : num) : num :=
  match x, y with
  | NaN, _ | _, NaN => NaN
  | Fin p, Fin q => Fin (p * q)%Q
  | Fin p, inf | inf, Fin p =>
      match (p ?= 0)%Q with
      | Eq => NaN
      | Gt => inf
      | Lt => neg inf
      end
  | PosInf, PosInf | NegInf, NegInf => PosInf
  | _, _ => NegInf
  end.

Definition of_Z (z : Z) : num := Fin (inject_Z z).

(** [x == y] and [x <= y] of JavaScript: false as soon as a NaN is
    involved. *)
Definition eqv (x y : num) : Prop :=
  match x, y with
  | Fin p, Fin q => (p == q)%Q
  | PosInf, PosInf | NegInf, NegInf => True
  | _, _ => False
  end.

Definition le (x y : num) : Prop :=
  match x, y with
  | NaN, _ | _, NaN => False
  | NegInf, _ | _, PosInf => True
  | Fin p, Fin q => (p <= q)%Q
  | _, _ => False
  end.

End JsNum.

(** ** Comparisons on coordinates *)

(** [!x] for a number [x]: true for zero. *)
Definition falsy (x : Q) : bool := Qeq_bool x 0.

Definition Qltb (x y : Q) : bool := negb (Qle_bool y x).

(** ** Strings *)

Module Str.

(** The white space [String.prototype.trim] removes, among the ASCII
    characters: tab, line feed, vertical tab, form feed, carriage return
    and space. *)
Definition is_space (c : ascii) : bool :=
  let n := nat_of_ascii c in
  ((9 <=? n)%nat && (n <=? 13)%nat) || (n =? 32)%nat.

Fixpoint trimStart (s : string) : string :=
  match s with
  | EmptyString => EmptyString
  | String c s' => if is_space c then trimStart s' else s
  end.

Definition trimEnd (s : string) : string :=
  String.rev (trimStart (String.rev s)).

Definition trim (s : string) : string := trimEnd (trimStart s).

Definition lower (c : ascii) : ascii :=
  let n := nat_of_ascii c in
  if ((65 <=? n)%nat && (n <=? 90)%nat) then ascii_of_nat (n + 32) else c.

Fixpoint toLowerCase (s : string) : string :=
  match s with
  | EmptyString => EmptyString
  | String c s' => String (lower c) (toLowerCase s')
  end.

Definition digit (c : ascii) : option Z :=
  let n := nat_of_ascii c in
  if ((48 <=? n)%nat && (n <=? 57)%nat) then Some (Z.of_nat n - 48) else None.

(** The digits at the front of [s], read in base ten, starting from the
    value [acc]. *)
Fixpoint digits (acc : Z) (s : string) : Z :=
  match s with
  | EmptyString => acc
  | String c s' =>
      match digit c with
      | Some d => digits (10 * acc + d) s'
      | None => acc
      end
  end.

(** [parseInt s] for a string that starts with a digit ([None] stands for
    NaN). *)
Definition parseInt (s : string) : option Z :=
  match s with
  | EmptyString => None
  | String c _ =>
      match digit c with
      | Some _ => Some (digits 0 s)
      | None => None
      end
  end.

(** Template-literal conversion of an integer. *)
Definition of_Z (z : Z) : string := pretty z.

End Str.

(** ** Data model *)

Record Slide : Type := {
  h1 : option string;          (* textContent of the first h1, if any *)
  h2 : option string;          (* textContent of the first h2, if any *)
  textContent : string;
  active : bool;               (* classList contains 'active' *)
  prev : bool                  (* classList contains 'prev' *)
}.

Record Button : Type := {
  disabled : bool;
  opacity : string
}.

Record Page : Type := {
  slides : list Slide;                   (* querySelectorAll('.slide') *)
  prevBtn : option Button;
  nextBtn : option Button;
  progressBar : option JsNum.num;        (* style.width, in percent *)
  slideCounter : option string;          (* textContent *)
  title : string;                        (* document.title *)
  body : list (nat * string);            (* live-region nodes in document.body *)
  nextNode : nat                         (* identity of the next created node *)
}.

Record Controller : Type := {
  currentSlide : Z;
  totalSlides : Z;
  isTransitioning : bool;
  touchStartX : Q;
  touchStartY : Q;
  touchStartTime : Z
}.

(** The callbacks handed to [setTimeout]. *)
Inductive Task : Type :=
| ActivateSlide (previousSlideIndex : Z)   (* goToSlide, 50 ms *)
| EndTransition                            (* goToSlide, 600 ms later *)
| RemoveAnnouncement (node : nat).         (* announceToScreenReader, 1000 ms *)

Record World : Type := {
  this : Controller;
  page : Page;
  now : Z;                                 (* Date.now() *)
  timers : list (Z * Task)                 (* pending callbacks, by due time *)
}.

(** *** Field updates *)

Definition with_currentSlide (v : Z) (c : Controller) : Controller :=
  {| currentSlide := v; totalSlides := totalSlides c;
     isTransitioning := isTransitioning c; touchStartX := touchStartX c;
     touchStartY := touchStartY c; touchStartTime := touchStartTime c |}.

Definition with_totalSlides (v : Z) (c : Controller) : Controller :=
  {| currentSlide := currentSlide c; totalSlides := v;
     isTransitioning := isTransitioning c; touchStartX := touchStartX c;
     touchStartY := touchStartY c; touchStartTime := touchStartTime c |}.

Definition with_isTransitioning (v : bool) (c : Controller) : Controller :=
  {| currentSlide := currentSlide c; totalSlides := totalSlides c;
     isTransitioning := v; touchStartX := touchStartX c;
     touchStartY := touchStartY c; touchStartTime := touchStartTime c |}.

Definition with_touchStart (x y : Q) (t : Z) (c : Controller) : Controller :=
  {| currentSlide := currentSlide c; totalSlides := totalSlides c;
     isTransitioning := isTransitioning c; touchStartX := x;
     touchStartY := y; touchStartTime := t |}.

Definition with_slides (v : list Slide) (p : Page) : Page :=
  {| slides := v; prevBtn := prevBtn p; nextBtn := nextBtn p;
     progressBar := progressBar p; slideCounter := slideCounter p;
     title := title p; body := body p; nextNode := nextNode p |}.

Definition with_buttons (b1 b2 : option Button) (p : Page) : Page :=
  {| slides := slides p; prevBtn := b1; nextBtn := b2;
     progressBar := progressBar p; slideCounter := slideCounter p;
     title := title p; body := body p; nextNode := nextNode p |}.

Definition with_progressBar (v : option JsNum.num) (p : Page) : Page :=
  {| slides := slides p; prevBtn := prevBtn p; nextBtn := nextBtn p;
     progressBar := v; slideCounter := slideCounter p;
     title := title p; body := body p; nextNode := nextNode p |}.

Definition with_slideCounter (v : option string) (p : Page) : Page :=
  {| slides := slides p; prevBtn := prevBtn p; nextBtn := nextBtn p;
     progressBar := progressBar p; slideCounter := v;
     title := title p; body := body p; nextNode := nextNode p |}.

Definition with_title (v : string) (p : Page) : Page :=
  {| slides := slides p; prevBtn := prevBtn p; nextBtn := nextBtn p;
     progressBar := progressBar p; slideCounter := slideCounter p;
     title := v; body := body p; nextNode := nextNode p |}.

Definition with_body (v : list (nat * string)) (n : nat) (p : Page) : Page :=
  {| slides := slides p; prevBtn := prevBtn p; nextBtn := nextBtn p;
     progressBar := progressBar p; slideCounter := slideCounter p;
     title := title p; body := v; nextNode := n |}.

Definition on_this (f : Controller -> Controller) (w : World) : World :=
  {| this := f (this w); page := page w; now := now w; timers := timers w |}.

Definition on_page (f : Page -> Page) (w : World) : World :=
  {| this := this w; page := f (page w); now := now w; timers := timers w |}.

Definition with_now (t : Z) (w : World) : World :=
  {| this := this w; page := page w; now := t; timers := timers w |}.

Definition with_timers (l : list (Z * Task)) (w : World) : World :=
  {| this := this w; page := page w; now := now w; timers := l |}.

(** [a[i]] of JavaScript on an array: [undefined] out of range. *)
Definition at_index {A : Type} (l : list A) (i : Z) : option A :=
  if i <? 0 then None else l !! Z.to_nat i.

(** [if (a[i]) { f(a[i]) }]: nothing happens out of range. *)
Definition at_index_do {A : Type} (f : A -> A) (i : Z) (l : list A) : list A :=
  if i <? 0 then l else alter f (Z.to_nat i) l.

Definition classList_active (b : bool) (s : Slide) : Slide :=
  {| h1 := h1 s; h2 := h2 s; textContent := textContent s;
     active := b; prev := prev s |}.

Definition classList_prev (b : bool) (s : Slide) : Slide :=
  {| h1 := h1 s; h2 := h2 s; textContent := textContent s;
     active := active s; prev := b |}.

(** ** Timers *)

(** [setTimeout] keeps the pending callbacks ordered by due time; callbacks
    due at the same time run in the order they were registered. *)
Fixpoint schedule (due : Z) (task : Task) (l : list (Z * Task)) : list (Z * Task) :=
  match l with
  | [] => [(due, task)]
  | (d, t) :: l' =>
      if d <=? due then (d, t) :: schedule due task l'
      else (due, task) :: l
  end.

Definition setTimeout (task : Task) (delay : Z) (w : World) : World :=
  with_timers (schedule (now w + delay) task (timers w)) w.

(** ** Presenter *)

Definition counterText (current total : Z) : string :=
  Str.of_Z (current + 1) +:+ " / " +:+ Str.of_Z total.

Definition updateSlideCounter (w : World) : World :=
  match slideCounter (page w) with
  | Some _ =>
      on_page (with_slideCounter
        (Some (counterText (currentSlide (this w)) (totalSlides (this w))))) w
  | None => w
  end.

(** [(this.currentSlide + 1) / this.totalSlides] *)
Definition progressFraction (current total : Z) : JsNum.num :=
  JsNum.div (current + 1) total.

Definition progress (current total : Z) : JsNum.num :=
  JsNum.mul (progressFraction current total) (JsNum.of_Z 100).

Definition updateProgressBar (w : World) : World :=
  match progressBar (page w) with
  | Some _ =>
      on_page (with_progressBar
        (Some (progress (currentSlide (this w)) (totalSlides (this w))))) w
  | None => w
  end.

Definition buttonState (off : bool) : Button :=
  {| disabled := off; opacity := if off then "0.5" else "1" |}.

Definition updateNavigationButtons (w : World) : World :=
  let c := this w in
  let p := page w in
  let b1 :=
    match prevBtn p with
    | Some _ => Some (buttonState (currentSlide c =? 0))
    | None => None
    end in
  let b2 :=
    match nextBtn p with
    | Some _ => Some (buttonState (currentSlide c =? totalSlides c - 1))
    | None => None
    end in
  on_page (with_buttons b1 b2) w.

Definition fallbackTitle (c : Controller) : string :=
  "Slide " +:+ Str.of_Z (currentSlide c + 1).

Definition getSlideTitle (c : Controller) (slideElement : option Slide) : string :=
  match slideElement with
  | None => fallbackTitle c
  | Some s =>
      match h1 s with
      | Some t => Str.trim t
      | None =>
          match h2 s with
          | Some t => Str.trim t
          | None => fallbackTitle c
          end
      end
  end.

Definition currentSlideElement (w : World) : option Slide :=
  at_index (slides (page w)) (currentSlide (this w)).

Definition updateDocumentTitle (w : World) : World :=
  let c := this w in
  let slideTitle := getSlideTitle c (currentSlideElement w) in
  on_page (with_title
    (slideTitle +:+ " - AI Language Models & GitHub Copilot (" +:+
     Str.of_Z (currentSlide c + 1) +:+ "/" +:+ Str.of_Z (totalSlides c) +:+ ")")) w.

Definition announceToScreenReader (message : string) (w : World) : World :=
  let announcement := nextNode (page w) in
  let w := on_page (fun p => with_body (body p ++ [(announcement, message)])
                                       (S announcement) p) w in
  setTimeout (RemoveAnnouncement announcement) 1000 w.

Definition announcementText (w : World) : string :=
  let c := this w in
  "Slide " +:+ Str.of_Z (currentSlide c + 1) +:+ " of " +:+
  Str.of_Z (totalSlides c) +:+ ": " +:+ getSlideTitle c (currentSlideElement w).

Definition announceSlideChange (w : World) : World :=
  announceToScreenReader (announcementText w) w.

Definition updateUI (w : World) : World :=
  let w := updateSlideCounter w in
  let w := updateProgressBar w in
  let w := updateNavigationButtons w in
  let w := updateDocumentTitle w in
  announceSlideChange w.

(** ** Navigator *)

(** The guard at the top of [goToSlide]. *)
Definition rejected (c : Controller) (slideIndex : Z) : bool :=
  isTransitioning c || (slideIndex <? 0) || (totalSlides c <=? slideIndex)
  || (slideIndex =? currentSlide c).

Definition goToSlide (slideIndex : Z) (w : World) : World :=
  if rejected (this w) slideIndex then w
  else
    let w := on_this (with_isTransitioning true) w in
    let cur := currentSlide (this w) in
    (* Remove active class from current slide *)
    let w := on_page (fun p =>
      with_slides (at_index_do (classList_active false) cur (slides p)) p) w in
    (* Add prev class if moving backwards, remove it if moving forwards *)
    let w := on_page (fun p =>
      with_slides (at_index_do (classList_prev (slideIndex <? cur)) cur (slides p)) p) w in
    (* Update current slide *)
    let previousSlideIndex := cur in
    let w := on_this (with_currentSlide slideIndex) w in
    setTimeout (ActivateSlide previousSlideIndex) 50 w.

Definition nextSlide (w : World) : World :=
  let c := this w in
  if isTransitioning c || (totalSlides c - 1 <=? currentSlide c) then w
  else goToSlide (currentSlide c + 1) w.

Definition previousSlide (w : World) : World :=
  let c := this w in
  if isTransitioning c || (currentSlide c <=? 0) then w
  else goToSlide (currentSlide c - 1) w.

Definition resetPresentation (w : World) : World := goToSlide 0 w.

(** The bodies of the [setTimeout] callbacks. *)
Definition runTask (task : Task) (w : World) : World :=
  match task with
  | ActivateSlide previousSlideIndex =>
      let cur := currentSlide (this w) in
      let w := on_page (fun p =>
        with_slides
          (at_index_do (fun s => classList_prev false (classList_active true s))
                       cur (slides p)) p) w in
      (* Clean up previous slide classes *)
      let w := on_page (fun p =>
        with_slides
          (at_index_do (classList_prev false) previousSlideIndex (slides p)) p) w in
      let w := updateUI w in
      (* Re-enable transitions after animation completes *)
      setTimeout EndTransition 600 w
  | EndTransition => on_this (with_isTransitioning false) w
  | RemoveAnnouncement node =>
      on_page (fun p =>
        with_body (filter (fun a => a.1 ≠ node) (body p)) (nextNode p) p) w
  end.

(** *** The event loop *)

(** What a callback may still put on the queue bounds the number of
    callbacks that run before the queue is drained. *)
Definition taskWeight (task : Task) : nat :=
  match task with
  | ActivateSlide _ => 3
  | EndTransition => 1
  | RemoveAnnouncement _ => 1
  end.

Definition queueWeight (l : list (Z * Task)) : nat :=
  foldr (fun t n => (taskWeight t.2 + n)%nat) 0%nat l.

(** Run the head of the queue at its due time. *)
Definition fire (due : Z) (task : Task) (rest : list (Z * Task)) (w : World) : World :=
  runTask task (with_timers rest (with_now (Z.max (now w) due) w)).

Fixpoint runTimers (fuel : nat) (deadline : Z) (w : World) : World :=
  match fuel with
  | O => w
  | S fuel' =>
      match timers w with
      | (due, task) :: rest =>
          if due <=? deadline then runTimers fuel' deadline (fire due task rest w)
          else w
      | [] => w
      end
  end.

(** [ms] milliseconds pass: every callback due by then runs, in order. *)
Definition elapse (ms : N) (w : World) : World :=
  let deadline := now w + Z.of_N ms in
  with_now deadline (runTimers (queueWeight (timers w)) deadline w).

(** ** Input adapters *)

Record KeyEvent : Type := {
  key : string;
  ctrlKey : bool;
  metaKey : bool;
  targetIsField : bool         (* event.target.matches('input, textarea, select') *)
}.

Definition key_in (k : string) (names : list string) : bool :=
  existsb (String.eqb k) names.

Definition handleKeyPress (event : KeyEvent) (w : World) : World :=
  (* Don't interfere with form inputs *)
  if targetIsField event then w
  else
    let k := Str.toLowerCase (key event) in
    if key_in k ["arrowright"; "arrowdown"; " "; "pagedown"] then nextSlide w
    else if key_in k ["arrowleft"; "arrowup"; "pageup"] then previousSlide w
    else if key_in k ["home"] then goToSlide 0 w
    else if key_in k ["end"] then goToSlide (totalSlides (this w) - 1) w
    else if key_in k ["r"] then
      if ctrlKey event || metaKey event then resetPresentation w else w
    else w.   (* 'f' and 'escape' only reach the fullscreen API *)

(** The second [keydown] listener: number keys for direct navigation. *)
Definition handleNumberKey (event : KeyEvent) (w : World) : World :=
  if targetIsField event then w
  else
    let k := Str.toLowerCase (key event) in
    if String.leb "1" k && String.leb k "9" then
      match Str.parseInt k with
      | Some n =>
          let slideNumber := n - 1 in
          if slideNumber <? totalSlides (this w) then goToSlide slideNumber w
          else w
      | None => w
      end
    else w.

Definition handleTouchStart (clientX clientY : Q) (w : World) : World :=
  on_this (with_touchStart clientX clientY (now w)) w.

Definition resetTouch (w : World) : World :=
  on_this (fun c => with_touchStart 0 0 (touchStartTime c) c) w.

(** The navigator method a gesture ends up calling. *)
Inductive Intent : Type := Next | Previous.

(** [handleTouchEnd] returns, next to the new state, the method it called
    ([None] when it called neither). *)
Definition handleTouchEnd (touchEndX touchEndY : Q) (w : World)
  : option Intent * World :=
  let c := this w in
  if falsy (touchStartX c) || falsy (touchStartY c) then (None, w)
  else
    let touchEndTime := now w in
    let deltaX := (touchStartX c - touchEndX)%Q in
    let deltaY := (touchStartY c - touchEndY)%Q in
    let deltaTime := touchEndTime - touchStartTime c in
    (* Only handle quick swipes (< 300ms) with significant movement *)
    if (300 <? deltaTime) || Qltb (Qabs deltaX) (inject_Z 50) then (None, w)
    else
      (* Only handle horizontal swipes (ignore vertical scrolling) *)
      let '(called, w) :=
        if Qltb (Qabs deltaY) (Qabs deltaX) then
          if Qltb 0 deltaX then (Some Next, nextSlide w)
          else (Some Previous, previousSlide w)
        else (None, w) in
      (* Reset touch coordinates *)
      (called, resetTouch w).

Definition handleResize (w : World) : World := updateUI w.

(** ** Construction *)

Definition setupElements (w : World) : World :=
  let w := on_this (with_totalSlides (Z.of_nat (length (slides (page w))))) w in
  updateNavigationButtons w.

Definition init (w : World) : World :=
  let w := setupElements w in
  let w := updateSlideCounter w in
  updateProgressBar w.

(** [new PresentationController()] on the document [doc], at time [t0]. *)
Definition PresentationController (doc : Page) (t0 : Z) : World :=
  init {| this := {| currentSlide := 0; totalSlides := 0;
                     isTransitioning := false;
                     touchStartX := 0; touchStartY := 0; touchStartTime := 0 |};
          page := doc; now := t0; timers := [] |}.

(** ** Public API *)

Module SlideInfo.
Record t : Type := {
  current : Z;
  total : Z;
  title : string;
  element : option Slide
}.
End SlideInfo.

Definition getCurrentSlideInfo (w : World) : SlideInfo.t :=
  let slideElement := currentSlideElement w in
  {| SlideInfo.current := currentSlide (this w) + 1;
     SlideInfo.total := totalSlides (this w);
     SlideInfo.title := getSlideTitle (this w) slideElement;
     SlideInfo.element := slideElement |}.

Module SlideData.
Record t : Type := {
  number : Z;
  title : string;
  content : string
}.
End SlideData.

Module PresentationData.
Record t : Type := {
  title : string;
  timestamp : string;
  totalSlides : Z;
  currentSlide : Z;
  slides : list SlideData.t
}.
End PresentationData.

(** [timestamp] stands for [new Date().toISOString()]. *)
Definition exportSlideData (timestamp : string) (w : World) : PresentationData.t :=
  let slideData :=
    imap (fun index slide =>
            {| SlideData.number := Z.of_nat index + 1;
               SlideData.title := getSlideTitle (this w) (Some slide);
               SlideData.content :=
                 String.substring 0 200 (Str.trim (textContent slide)) +:+ "..." |})
         (slides (page w)) in
  {| PresentationData.title := "AI Language Models & GitHub Copilot Best Practices";
     PresentationData.timestamp := timestamp;
     PresentationData.totalSlides := totalSlides (this w);
     PresentationData.currentSlide := currentSlide (this w) + 1;
     PresentationData.slides := slideData |}.

(** ** Auto-hide of the controls *)

(** [handleUserActivity], [setupAutoHide], [showNavigation] and
    [hideNavigation] only touch the inline style of the navigation controls
    and of the slide counter, and the inactivity timer; they are modelled on
    a state of their own, with the pending [hideNavigation] callbacks kept
    by timer id so that [clearTimeout] can cancel one. *)
Module AutoHide.

Record Style : Type := {
  opacity : string;
  pointerEvents : string
}.

Record State : Type := {
  navControls : option Style;            (* querySelector('.nav-controls') *)
  slideCounter : option string;          (* '.slide-counter', style.opacity *)
  inactivityTimer : option nat;          (* null, or the last timer id *)
  autoHideDelay : Z;
  now : Z;
  timers : list (nat * Z);               (* pending callbacks: id, due time *)
  nextId : nat
}.

Definition with_styles (nav : option Style) (counter : option string)
  (s : State) : State :=
  {| navControls := nav; slideCounter := counter;
     inactivityTimer := inactivityTimer s; autoHideDelay := autoHideDelay s;
     now := now s; timers := timers s; nextId := nextId s |}.

Definition with_inactivityTimer (id : option nat) (s : State) : State :=
  {| navControls := navControls s; slideCounter := slideCounter s;
     inactivityTimer := id; autoHideDelay := autoHideDelay s;
     now := now s; timers := timers s; nextId := nextId s |}.

Definition with_timers (l : list (nat * Z)) (n : nat) (s : State) : State :=
  {| navControls := navControls s; slideCounter := slideCounter s;
     inactivityTimer := inactivityTimer s; autoHideDelay := autoHideDelay s;
     now := now s; timers := l; nextId := n |}.

Definition with_now (t : Z) (s : State) : State :=
  {| navControls := navControls s; slideCounter := slideCounter s;
     inactivityTimer := inactivityTimer s; autoHideDelay := autoHideDelay s;
     now := t; timers := timers s; nextId := nextId s |}.

Definition restyle (o : string) (pe : string) (nav : option Style)
  : option Style :=
  match nav with
  | Some _ => Some {| opacity := o; pointerEvents := pe |}
  | None => None
  end.

Definition reopacity (o : string) (counter : option string) : option string :=
  match counter with
  | Some _ => Some o
  | None => None
  end.

Definition showNavigation (s : State) : State :=
  with_styles (restyle "1" "auto" (navControls s))
              (reopacity "1" (slideCounter s)) s.

Definition hideNavigation (s : State) : State :=
  (* Keep functional but less visible *)
  with_styles (restyle "0.3" "auto" (navControls s))
              (reopacity "0.7" (slideCounter s)) s.

(** [setTimeout(() => this.hideNavigation(), delay)]: the new timer id and
    the new state. *)
Definition setTimeout (delay : Z) (s : State) : nat * State :=
  (nextId s,
   with_timers (timers s ++ [(nextId s, now s + delay)]) (S (nextId s)) s).

(** [clearTimeout(id)]; nothing happens for [null] and for a timer that
    has run. *)
Definition clearTimeout (id : option nat) (s : State) : State :=
  with_timers (filter (fun t => Some t.1 <> id) (timers s)) (nextId s) s.

Definition handleUserActivity (s : State) : State :=
  (* Show navigation controls *)
  let s := showNavigation s in
  (* Reset auto-hide timer *)
  let s := clearTimeout (inactivityTimer s) s in
  let '(id, s) := setTimeout (autoHideDelay s) s in
  with_inactivityTimer (Some id) s.

Definition setupAutoHide (s : State) : State :=
  (* Initially show navigation *)
  let s := showNavigation s in
  (* Set initial auto-hide timer *)
  let '(id, s) := setTimeout (autoHideDelay s) s in
  with_inactivityTimer (Some id) s.

(** The fields the constructor sets, then [setupAutoHide], on a page with
    the given elements, at time [t0]. *)
Definition start (nav : option Style) (counter : option string) (t0 : Z)
  : State :=
  setupAutoHide
    {| navControls := nav; slideCounter := counter; inactivityTimer := None;
       autoHideDelay := 3000; now := t0; timers := []; nextId := 0 |}.

(** [ms] milliseconds pass: the callbacks due by then run. *)
Definition elapse (ms : N) (s : State) : State :=
  let deadline := now s + Z.of_N ms in
  let due := filter (fun t => t.2 <= deadline) (timers s) in
  let rest := filter (fun t => deadline < t.2) (timers s) in
  foldr (fun _ s => hideNavigation s)
        (with_now deadline (with_timers rest (nextId s) s)) due.

(** A [mousemove] or a [click] that reaches the document, or time
    passing. *)
Inductive Event : Type :=
| Activity
| Elapse (ms : N).

Definition dispatch (ev : Event) (s : State) : State :=
  match ev with
  | Activity => handleUserActivity s
  | Elapse ms => elapse ms s
  end.

Definition run (evs : list Event) (s : State) : State :=
  foldl (fun s ev => dispatch ev s) s evs.

Definition reachable (s : State) : Prop :=
  exists nav counter t0 evs, s = run evs (start nav counter t0).

(** The controls as [showNavigation] and as [hideNavigation] leave
    them. *)
Definition visible (s : State) : Prop :=
  navControls s = restyle "1" "auto" (navControls s)
  /\ slideCounter s = reopacity "1" (slideCounter s).

Definition dimmed (s : State) : Prop :=
  navControls s = restyle "0.3" "auto" (navControls s)
  /\ slideCounter s = reopacity "0.7" (slideCounter s).

(** The countdown is running and ends at [due]. *)
Definition counting (due : Z) (s : State) : Prop :=
  exists id,
    timers s = [(id, due)] /\ inactivityTimer s = Some id
    /\ (id < nextId s)%nat /\ visible s.

(** Either the countdown is running, it ends within the delay and the
    controls are visible, or no callback is pending and the controls are
    dimmed. *)
Definition consistent (s : State) : Prop :=
  autoHideDelay s = 3000
  /\ ((exists due, now s < due <= now s + 3000 /\ counting due s)
      \/ (timers s = [] /\ dimmed s)).

(** A page with both elements, loaded at time 0. *)
Definition sample : State :=
  start (Some {| opacity := ""; pointerEvents := "" |}) (Some "") 0.

End AutoHide.

(** ** Events *)

Inductive Event : Type :=
| KeyDown (event : KeyEvent)
| TouchStart (clientX clientY : Q)
| TouchEnd (clientX clientY : Q)
| ClickPrev
| ClickNext
| Resize
| CallNext                         (* presentationController.nextSlide() *)
| CallPrevious                     (* presentationController.previousSlide() *)
| CallGoTo (slideIndex : Z)        (* presentationController.goToSlide(i) *)
| CallReset                        (* resetPresentation() *)
| UtilsGoToSlide (slideNumber : Z) (* PresentationUtils.goToSlide(n) *)
| Elapse (ms : N).

Definition dispatch (ev : Event) (w : World) : World :=
  match ev with
  | KeyDown event => handleNumberKey event (handleKeyPress event w)
  | TouchStart x y => handleTouchStart x y w
  | TouchEnd x y => (handleTouchEnd x y w).2
  | ClickPrev => match prevBtn (page w) with Some _ => previousSlide w | None => w end
  | ClickNext => match nextBtn (page w) with Some _ => nextSlide w | None => w end
  | Resize => handleResize w
  | CallNext => nextSlide w
  | CallPrevious => previousSlide w
  | CallGoTo slideIndex => goToSlide slideIndex w
  | CallReset => resetPresentation w
  | UtilsGoToSlide slideNumber => goToSlide (slideNumber - 1) w
  | Elapse ms => elapse ms w
  end.

Definition run (evs : list Event) (w : World) : World :=
  foldl (fun w ev => dispatch ev w) w evs.

(** The worlds the page can be in: some document was loaded and some events
    were handled since. *)
Definition reachable (w : World) : Prop :=
  exists doc t0 evs, w = run evs (PresentationController doc t0).

(** ** Sample documents *)

Definition blankSlide : Slide :=
  {| h1 := None; h2 := None; textContent := ""; active := false; prev := false |}.

Definition titled (t : string) : Slide :=
  {| h1 := Some t; h2 := None; textContent := t; active := false; prev := false |}.

Definition deck (l : list Slide) : Page :=
  {| slides := l;
     prevBtn := Some (buttonState false); nextBtn := Some (buttonState false);
     progressBar := Some (JsNum.of_Z 0); slideCounter := Some "";
     title := ""; body := []; nextNode := 0 |}.

(** * Specification vocabulary *)

(** ** Projections of the state *)

(** The navigation state proper. *)
Definition nav (w : World) : Z * Z * bool :=
  (currentSlide (this w), totalSlides (this w), isTransitioning (this w)).

(** What the presenter shows, apart from the slides' classes and the
    announcements. *)
Definition display (p : Page) :=
  (slideCounter p, progressBar p, prevBtn p, nextBtn p, title p).

(** The displacement and duration [handleTouchEnd] computes. *)
Definition deltaX (w : World) (touchEndX : Q) : Q :=
  touchStartX (this w) - touchEndX.

Definition deltaY (w : World) (touchEndY : Q) : Q :=
  touchStartY (this w) - touchEndY.

Definition deltaTime (w : World) : Z := now w - touchStartTime (this w).

Definition headless (s : Slide) : Prop := h1 s = None /\ h2 s = None.

(** ** Observing the index at Idle *)

(** Long enough for both callbacks of a transition: 50 ms + 600 ms. *)
Definition settle (w : World) : World := elapse 650 w.

(** The index seen at Idle after each operation of [ops], each one issued
    once the previous one has settled. *)
Fixpoint observe (ops : list Event) (w : World) : list Z :=
  match ops with
  | [] => []
  | op :: ops' =>
      let w' := settle (dispatch op w) in
      currentSlide (this w') :: observe ops' w'
  end.

(** ** Sample worlds *)

Definition emptyDeck : World := PresentationController (deck []) 0.

Definition fiveSlides : World :=
  PresentationController (deck (replicate 5 blankSlide)) 0.

(** A key pressed without modifiers, outside any form field. *)
Definition pressed (k : string) : Event :=
  KeyDown {| key := k; ctrlKey := false; metaKey := false;
             targetIsField := false |}.

(** A touch recorded at the top edge of the viewport, y = 0, 120 ms ago;
    ending it at (120, -5) makes a swipe with deltas 80 and 5. *)
Definition topEdgeSwipe : World :=
  elapse 120 (handleTouchStart 200 0 fiveSlides).

(** A touch recorded at the left edge, x = 0, 120 ms ago; ending it at
    (90, 295) makes a fast swipe to the right, 90 pixels long. *)
Definition edgeSwipe : World := elapse 120 (handleTouchStart 0 300 fiveSlides).

(** A touch recorded in the middle of the screen, 120 ms ago. *)
Definition midSwipe : World := elapse 120 (handleTouchStart 200 300 fiveSlides).

(** Four slides, the second and the third without a heading, shown at the
    last one. *)
Definition mixedDeck : World :=
  settle (goToSlide 3
    (PresentationController
       (deck [titled "Intro"; blankSlide; blankSlide; titled "Summary"]) 0)).

(** ** The timer queue and the invariant of the event loop *)

Fixpoint sorted (l : list (Z * Task)) : Prop :=
  match l with
  | [] => True
  | x :: l' => Forall (fun y => x.1 <= y.1) l' /\ sorted l'
  end.

(** The callbacks of a transition, as opposed to those that only withdraw
    an announcement. *)
Definition transitionTask (x : Z * Task) : bool :=
  match x.2 with
  | RemoveAnnouncement _ => false
  | _ => true
  end.

Definition pending (l : list (Z * Task)) : list (Z * Task) :=
  List.filter transitionTask l.

(** The counter and the progress bar show the current index. *)
Definition synced (w : World) : Prop :=
  slideCounter (page w)
  = (fun _ => counterText (currentSlide (this w)) (totalSlides (this w)))
      <$> slideCounter (page w)
  /\ progressBar (page w)
  = (fun _ => progress (currentSlide (this w)) (totalSlides (this w)))
      <$> progressBar (page w).

(** Where a transition stands, read off the queue: no transition callback
    pending, the 50 ms callback pending, or the 600 ms callback pending. *)
Definition phase_ok (w : World) : Prop :=
  (pending (timers w) = [] /\ isTransitioning (this w) = false /\ synced w)
  \/ (exists d p, pending (timers w) = [(d, ActivateSlide p)]
                  /\ isTransitioning (this w) = true)
  \/ (exists d, pending (timers w) = [(d, EndTransition)]
                /\ isTransitioning (this w) = true /\ synced w).

Definition inRange (c : Controller) : Prop :=
  0 <= currentSlide c
  /\ (currentSlide c < totalSlides c \/ (totalSlides c = 0 /\ currentSlide c = 0)).

Record Coherent (w : World) : Prop := {
  coh_sorted : sorted (timers w);
  coh_future : Forall (fun x => now w <= x.1) (timers w);
  coh_total : totalSlides (this w) = Z.of_nat (length (slides (page w)));
  coh_range : inRange (this w);
  coh_phase : phase_ok w
}.

Definition idle (w : World) : Prop :=
  Coherent w /\ isTransitioning (this w) = false.

(** The stages of one transition, as seen from the world [w1] in which its
    50 ms callback, due at [d], is pending: the presenter has shown the new
    index ([updated]) once that callback has run. *)
Definition updated (w1 w : World) : Prop :=
  slideCounter (page w)
  = (fun _ => counterText (currentSlide (this w1)) (totalSlides (this w1)))
      <$> slideCounter (page w1)
  /\ progressBar (page w)
  = (fun _ => progress (currentSlide (this w1)) (totalSlides (this w1)))
      <$> progressBar (page w1).

Definition stage (w1 : World) (d p deadline : Z) (w : World) : Prop :=
  (pending (timers w) = [(d, ActivateSlide p)]
   /\ isTransitioning (this w) = true
   /\ display (page w) = display (page w1))
  \/ (pending (timers w) = [(d + 600, EndTransition)]
      /\ isTransitioning (this w) = true /\ d <= deadline /\ updated w1 w)
  \/ (pending (timers w) = []
      /\ isTransitioning (this w) = false /\ d + 600 <= deadline
      /\ updated w1 w).

Definition on_track (w1 : World) (d p deadline : Z) (w : World) : Prop :=
  Coherent w
  /\ currentSlide (this w) = currentSlide (this w1)
  /\ totalSlides (this w) = totalSlides (this w1)
  /\ stage w1 d p deadline w.

(** A world in which [goToSlide] rejects every target. *)
Definition blocked (w : World) : Prop := forall i, goToSlide i w = w.

(** The time that passes during an event, and during a sequence of
    events. *)
Definition elapsed (ev : Event) : N :=
  match ev with
  | Elapse ms => ms
  | _ => 0
  end.

Definition duration (evs : list Event) : N :=
  foldr (fun ev t => (elapsed ev + t)%N) 0%N evs.

(** A transition towards [i] whose 50 ms callback is due at [d] holds the
    lock: one of its two callbacks is pending. *)
Definition locked (d i : Z) (w : World) : Prop :=
  Coherent w
  /\ currentSlide (this w) = i
  /\ isTransitioning (this w) = true
  /\ ((exists p, pending (timers w) = [(d, ActivateSlide p)])
      \/ pending (timers w) = [(d + 600, EndTransition)]).

(** ** The primitive steps of the handlers *)

(** Every handler and every callback is a sequence of steps of five kinds:
    an accepted [goToSlide], a run of the presenter, an update of the touch
    record, the head of the timer queue running, and the clock moving on to
    a time before which nothing is due. *)
Inductive step : World -> World -> Prop :=
| step_goTo w i :
    rejected (this w) i = false -> step w (goToSlide i w)
| step_updateUI w :
    step w (updateUI w)
| step_touch w x y t :
    step w (on_this (with_touchStart x y t) w)
| step_fire w due task rest :
    timers w = (due, task) :: rest -> step w (fire due task rest w)
| step_now w t :
    now w <= t -> Forall (fun x => t < x.1) (timers w) -> step w (with_now t w).

Inductive steps : World -> World -> Prop :=
| steps_refl w : steps w w
| steps_then w v u : steps w v -> step v u -> steps w u.

(** ** What the slides carry, and what the page shows *)

(** The part of a slide the controller only reads. *)
Definition content (s : Slide) : option string * option string * string :=
  (h1 s, h2 s, textContent s).

(** The 50 ms callback is pending: the outgoing slide has been deactivated,
    the incoming one not yet activated. *)
Definition fading (w : World) : option Z :=
  match pending (timers w) with
  | [(_, ActivateSlide p)] => Some p
  | _ => None
  end.

(** The marks of a page as it is loaded: the first slide active, no slide
    marked as previous. *)
Definition wellMarked (l : list Slide) : Prop :=
  forall (k : nat) s, l !! k = Some s ->
    active s = (Z.of_nat k =? 0) /\ prev s = false.

Definition marks (w : World) : Prop :=
  match fading w with
  | Some p =>
      forall (k : nat) s, slides (page w) !! k = Some s ->
        active s = false /\ (prev s = true -> Z.of_nat k = p)
  | None =>
      forall (k : nat) s, slides (page w) !! k = Some s ->
        active s = (Z.of_nat k =? currentSlide (this w)) /\ prev s = false
  end.

Definition documentTitle (w : World) : string :=
  getSlideTitle (this w) (currentSlideElement w)
  +:+ " - AI Language Models & GitHub Copilot ("
  +:+ Str.of_Z (currentSlide (this w) + 1) +:+ "/"
  +:+ Str.of_Z (totalSlides (this w)) +:+ ")".

(** The buttons and the title agree with the navigation state; the title
    may still be the one the page was loaded with, [t0]. *)
Definition presented (t0 : string) (w : World) : Prop :=
  prevBtn (page w)
  = (fun _ => buttonState (currentSlide (this w) =? 0)) <$> prevBtn (page w)
  /\ nextBtn (page w)
     = (fun _ => buttonState (currentSlide (this w) =? totalSlides (this w) - 1))
         <$> nextBtn (page w)
  /\ (title (page w) = t0 \/ title (page w) = documentTitle w).

(** The longest a callback waits from its registration. *)
Definition delay (task : Task) : Z :=
  match task with
  | ActivateSlide _ => 50
  | EndTransition => 600
  | RemoveAnnouncement _ => 1000
  end.

(** The longest it takes, from the registration of a callback, until it
    and the callbacks it registers have all run. *)
Definition horizon (task : Task) : Z :=
  match task with
  | ActivateSlide _ => 50
  | EndTransition => 650
  | RemoveAnnouncement _ => 1050
  end.

Definition timely (w : World) : Prop :=
  Forall (fun x => x.1 <= now w + delay x.2) (timers w).

(** The announcements the pending callbacks will withdraw. *)
Definition removals (l : list (Z * Task)) : list nat :=
  omap (fun x => match x.2 with
                 | RemoveAnnouncement node => Some node
                 | _ => None
                 end) l.

(** The live-region nodes in the body are those awaiting withdrawal, in
    order, and the nodes created so far are numbered below [nextNode]. *)
Definition announced (w : World) : Prop :=
  (body (page w)).*1 = removals (timers w)
  /\ NoDup (body (page w)).*1
  /\ Forall (fun n => (n < nextNode (page w))%nat) (body (page w)).*1.

(** The world in the middle of the 50 ms callback: the marks are set, the
    presenter has not run yet. *)
Definition activated (previousSlideIndex : Z) (w : World) : World :=
  let cur := currentSlide (this w) in
  let w := on_page (fun p =>
    with_slides
      (at_index_do (fun s => classList_prev false (classList_active true s))
                   cur (slides p)) p) w in
  on_page (fun p =>
    with_slides
      (at_index_do (classList_prev false) previousSlideIndex (slides p)) p) w.

(** ** Invariants of the page *)

(** The slides of the page carry the headings and text of the document. *)
Definition sameContent (doc : Page) (w : World) : Prop :=
  content <$> slides (page w) = content <$> slides doc.

(** Outside the 50 ms before the presenter runs, buttons and title agree
    with the navigation state. *)
Definition shown (t0 : string) (w : World) : Prop :=
  fading w = None -> presented t0 w.

(** Callbacks are on time and the live region holds what is pending. *)
Definition tidy (w : World) : Prop := timely w /\ announced w.

(** The announcement [node], reading [text], is withdrawn at [due]: it is
    in the live region as long as its callback is pending, and that
    callback is pending until the clock reaches [due]. *)
Definition heard (node : nat) (due : Z) (text : string) (w : World) : Prop :=
  (node < nextNode (page w))%nat
  /\ (forall d, (d, RemoveAnnouncement node) ∈ timers w ->
        d = due /\ (node, text) ∈ body (page w))
  /\ (now w < due -> (due, RemoveAnnouncement node) ∈ timers w).

(** ** The commit step of a transition *)

(** The pending withdrawals are those of nodes created so far. *)
Definition numbered (w : World) : Prop :=
  Forall (fun n => (n < nextNode (page w))%nat) (removals (timers w)).

(** What the page shows around the 50 ms callback, as seen from the world
    [w1] in which that callback, due at [d], is pending: before it runs the
    slides are as [goToSlide] left them; once it has run the marks, the
    buttons and the title are set for the new index, and the announcement
    it made is in the body until its withdrawal, 1000 ms later. *)
Definition committing (w1 : World) (d p deadline : Z) (v : World) : Prop :=
  let node := nextNode (page w1) in
  (pending (timers v) = [(d, ActivateSlide p)]
   /\ slides (page v) = slides (page w1)
   /\ nextNode (page v) = node
   /\ Forall (fun n => (n < node)%nat) (removals (timers v)))
  \/ (pending (timers v) <> [(d, ActivateSlide p)]
      /\ slides (page v) = slides (page (activated p w1))
      /\ prevBtn (page v)
         = (fun _ => buttonState (currentSlide (this w1) =? 0))
             <$> prevBtn (page w1)
      /\ nextBtn (page v)
         = (fun _ => buttonState
                       (currentSlide (this w1) =? totalSlides (this w1) - 1))
             <$> nextBtn (page w1)
      /\ title (page v) = documentTitle v
      /\ (forall d', (d', RemoveAnnouncement node) ∈ timers v -> d' = d + 1000)
      /\ (deadline < d + 1000 ->
          (d + 1000, RemoveAnnouncement node) ∈ timers v
          /\ (node, announcementText v) ∈ body (page v))).

(** ** Further sample worlds and the swipe conditions *)

(** The four slides of [mixedDeck], as the page is loaded. *)
Definition mixedDeckStart : World :=
  PresentationController
    (deck [titled "Intro"; blankSlide; blankSlide; titled "Summary"]) 0.

(** A touch recorded in the middle of the screen, 300 ms ago. *)
Definition slowSwipe : World := elapse 300 (handleTouchStart 200 300 fiveSlides).

(** The conditions under which [handleTouchEnd] goes past its two guards. *)
Definition swipe (w : World) (touchEndX : Q) : Prop :=
  ~ (touchStartX (this w) == 0)%Q
  /\ ~ (touchStartY (this w) == 0)%Q
  /\ deltaTime w <= 300
  /\ (inject_Z 50 <= Qabs (deltaX w touchEndX))%Q.

(** * Properties *)

(** ** The model at work *)

Example trim_both_ends : Str.trim "   Hello  world  " = "Hello  world".
Proof. reflexivity. Qed.

Example parseInt_digit_prefix :
  (Str.parseInt "7", Str.parseInt "12ab", Str.parseInt "x")
  = (Some 7, Some 12, None).
Proof. reflexivity. Qed.

Example arrow_key_starts_transition :
  nav (run [pressed "ArrowRight"] fiveSlides) = (1, 5, true).
Proof. reflexivity. Qed.

Example end_key_reaches_last_slide :
  nav (run [pressed "End"; Elapse 650] fiveSlides) = (4, 5, false).
Proof. vm_compute. reflexivity. Qed.

Example number_key_selects_slide :
  nav (run [pressed "3"; Elapse 650] fiveSlides) = (2, 5, false)
  /\ nav (run [pressed "9"; Elapse 650] fiveSlides) = (0, 5, false).
Proof. vm_compute. done. Qed.

Example key_during_transition_dropped :
  nav (run [pressed "End"; Elapse 650; pressed "Home"; Elapse 20; pressed "End"]
           fiveSlides)
  = (0, 5, true).
Proof. vm_compute. reflexivity. Qed.

Example swipes_left_then_right :
  nav (run [TouchStart 200 300; Elapse 120; TouchEnd 120 295; Elapse 650;
            TouchStart 100 300; Elapse 100; TouchEnd 190 300; Elapse 650]
           fiveSlides)
  = (0, 5, false).
Proof. vm_compute. reflexivity. Qed.

Example presenter_after_transition :
  display (page (run [CallGoTo 4; Elapse 650] fiveSlides))
  = (Some "5 / 5", Some (JsNum.Fin (500 # 5)),
     Some (buttonState false), Some (buttonState true),
     "Slide 5 - AI Language Models & GitHub Copilot (5/5)").
Proof. vm_compute. reflexivity. Qed.

Example announcement_withdrawn :
  body (page (run [CallGoTo 4; Elapse 650] fiveSlides))
  = [(0%nat, "Slide 5 of 5: Slide 5")]
  /\ body (page (run [CallGoTo 4; Elapse 1050] fiveSlides)) = [].
Proof. vm_compute. done. Qed.

(** ** The timer queue *)

Lemma schedule_Permutation due task l :
  schedule due task l ≡ₚ (due, task) :: l.
Proof.
  induction l as [|[d t] l IH]; simpl; [done|].
  destruct (d <=? due); [|done].
  rewrite IH. apply Permutation_swap.
Qed.

Lemma Forall_schedule (P : Z * Task -> Prop) due task l :
  Forall P (schedule due task l) <-> P (due, task) /\ Forall P l.
Proof. rewrite schedule_Permutation. apply Forall_cons. Qed.

Lemma sorted_schedule due task l : sorted l -> sorted (schedule due task l).
Proof.
  induction l as [|[d t] l IH]; simpl.
  - intros _. split; [constructor | exact I].
  - intros [Hd Hl]. destruct (d <=? due) eqn:E; simpl.
    + split; [|auto].
      apply Forall_schedule. split; [simpl; lia | exact Hd].
    + split; [|split; assumption].
      constructor; [simpl; lia|].
      eapply Forall_impl; [exact Hd|]. simpl. intros; lia.
Qed.

Lemma queueWeight_schedule due task l :
  queueWeight (schedule due task l) = (taskWeight task + queueWeight l)%nat.
Proof.
  induction l as [|[d t] l IH]; simpl; [done|].
  destruct (d <=? due); simpl; [rewrite IH|]; lia.
Qed.

Lemma pending_schedule_other due task l :
  transitionTask (due, task) = false ->
  pending (schedule due task l) = pending l.
Proof.
  intros H. induction l as [|[d t] l IH]; simpl.
  - unfold pending. simpl. by rewrite H.
  - destruct (d <=? due); unfold pending in *; simpl.
    + rewrite IH. done.
    + by rewrite H.
Qed.

Lemma pending_schedule_first due task l :
  transitionTask (due, task) = true ->
  pending l = [] ->
  pending (schedule due task l) = [(due, task)].
Proof.
  intros H. induction l as [|[d t] l IH]; simpl.
  - intros _. unfold pending. simpl. by rewrite H.
  - unfold pending in *. simpl.
    destruct (transitionTask (d, t)) eqn:Ht; [done|].
    intros Hl. destruct (d <=? due); simpl.
    + rewrite Ht. auto.
    + rewrite H, Ht, Hl. done.
Qed.

Lemma pending_In x l : In x (pending l) -> In x l.
Proof. unfold pending. rewrite filter_In. tauto. Qed.

(** ** What the presenter touches *)

Ltac unfold_presenter :=
  unfold updateUI, announceSlideChange, announceToScreenReader, setTimeout,
    updateDocumentTitle, updateNavigationButtons, updateProgressBar,
    updateSlideCounter, on_page, on_this, with_timers, with_now in *.

Ltac crush_presenter w :=
  destruct w as [? [? ? ? [?|] [?|] ? ? ?] ? ?]; unfold_presenter; simpl; try done.

Lemma this_updateUI w : this (updateUI w) = this w.
Proof. crush_presenter w. Qed.

Lemma now_updateUI w : now (updateUI w) = now w.
Proof. crush_presenter w. Qed.

Lemma slides_updateUI w : slides (page (updateUI w)) = slides (page w).
Proof. crush_presenter w. Qed.

Lemma timers_updateUI w :
  timers (updateUI w)
  = schedule (now w + 1000) (RemoveAnnouncement (nextNode (page w))) (timers w).
Proof. crush_presenter w. Qed.

Lemma slideCounter_updateUI w :
  slideCounter (page (updateUI w))
  = (fun _ => counterText (currentSlide (this w)) (totalSlides (this w)))
      <$> slideCounter (page w).
Proof. crush_presenter w. Qed.

Lemma progressBar_updateUI w :
  progressBar (page (updateUI w))
  = (fun _ => progress (currentSlide (this w)) (totalSlides (this w)))
      <$> progressBar (page w).
Proof. crush_presenter w. Qed.

Lemma synced_updateUI w : synced (updateUI w).
Proof.
  unfold synced.
  rewrite slideCounter_updateUI, progressBar_updateUI, this_updateUI.
  split.
  - by destruct (slideCounter (page w)).
  - by destruct (progressBar (page w)).
Qed.

Lemma length_at_index_do {A} (f : A -> A) i (l : list A) :
  length (at_index_do f i l) = length l.
Proof. unfold at_index_do. destruct (i <? 0); [done|]. apply length_alter. Qed.

(** ** Acceptance *)

Lemma rejected_iff c i :
  rejected c i = true <->
  isTransitioning c = true \/ i < 0 \/ totalSlides c <= i \/ i = currentSlide c.
Proof.
  unfold rejected.
  rewrite !orb_true_iff, Z.ltb_lt, Z.leb_le, Z.eqb_eq. tauto.
Qed.

Lemma accepted_iff c i :
  rejected c i = false <->
  isTransitioning c = false /\ 0 <= i < totalSlides c /\ i <> currentSlide c.
Proof.
  unfold rejected.
  rewrite !orb_false_iff, Z.ltb_ge, Z.leb_gt, Z.eqb_neq. tauto.
Qed.

Lemma goToSlide_rejected i w : rejected (this w) i = true -> goToSlide i w = w.
Proof. intros H. unfold goToSlide. by rewrite H. Qed.

(** The navigation state right after an accepted [goToSlide]. *)
Lemma goToSlide_accepted i w :
  rejected (this w) i = false ->
  let w' := goToSlide i w in
  this w' = with_currentSlide i (with_isTransitioning true (this w))
  /\ now w' = now w
  /\ timers w'
     = schedule (now w + 50) (ActivateSlide (currentSlide (this w))) (timers w)
  /\ length (slides (page w')) = length (slides (page w))
  /\ slideCounter (page w') = slideCounter (page w)
  /\ progressBar (page w') = progressBar (page w)
  /\ prevBtn (page w') = prevBtn (page w)
  /\ nextBtn (page w') = nextBtn (page w)
  /\ title (page w') = title (page w)
  /\ body (page w') = body (page w).
Proof.
  intros H. unfold goToSlide. rewrite H.
  destruct w as [c p n l]. simpl.
  repeat split; try done.
  by rewrite !length_at_index_do.
Qed.

Lemma nextSlide_cases w :
  nextSlide w = w \/
  (rejected (this w) (currentSlide (this w) + 1) = false
   /\ nextSlide w = goToSlide (currentSlide (this w) + 1) w).
Proof.
  unfold nextSlide.
  destruct (isTransitioning (this w) || _) eqn:E; [by left|].
  destruct (rejected (this w) (currentSlide (this w) + 1)) eqn:R.
  - left. by apply goToSlide_rejected.
  - right. done.
Qed.

Lemma previousSlide_cases w :
  previousSlide w = w \/
  (rejected (this w) (currentSlide (this w) - 1) = false
   /\ previousSlide w = goToSlide (currentSlide (this w) - 1) w).
Proof.
  unfold previousSlide.
  destruct (isTransitioning (this w) || _) eqn:E; [by left|].
  destruct (rejected (this w) (currentSlide (this w) - 1)) eqn:R.
  - left. by apply goToSlide_rejected.
  - right. done.
Qed.

(** ** The invariant of the event loop *)

Lemma runTask_ActivateSlide_facts p w :
  let w' := runTask (ActivateSlide p) w in
  this w' = this w
  /\ now w' = now w
  /\ timers w'
     = schedule (now w + 600) EndTransition
         (schedule (now w + 1000) (RemoveAnnouncement (nextNode (page w)))
                   (timers w))
  /\ length (slides (page w')) = length (slides (page w))
  /\ synced w'
  /\ slideCounter (page w')
     = (fun _ => counterText (currentSlide (this w)) (totalSlides (this w)))
         <$> slideCounter (page w)
  /\ progressBar (page w')
     = (fun _ => progress (currentSlide (this w)) (totalSlides (this w)))
         <$> progressBar (page w).
Proof.
  unfold runTask. cbv zeta.
  set (w1 := on_page _ (on_page _ w)).
  assert (H1 : this w1 = this w /\ now w1 = now w /\ timers w1 = timers w
               /\ length (slides (page w1)) = length (slides (page w))
               /\ slideCounter (page w1) = slideCounter (page w)
               /\ progressBar (page w1) = progressBar (page w)
               /\ nextNode (page w1) = nextNode (page w)).
  { subst w1. destruct w as [c pg n l]. simpl.
    repeat split; try done. by rewrite !length_at_index_do. }
  destruct H1 as (Ht & Hn & Hq & Hl & Hc & Hb & Hk).
  pose proof (synced_updateUI w1) as Hs.
  unfold setTimeout, with_timers, synced. cbn [this page now timers].
  fold (synced (updateUI w1)).
  rewrite this_updateUI, now_updateUI, timers_updateUI, slides_updateUI,
    slideCounter_updateUI, progressBar_updateUI, Ht, Hn, Hq, Hl, Hc, Hb, Hk.
  repeat split; try done.
  - apply Hs.
  - apply Hs.
Qed.

Lemma Coherent_init doc t0 : Coherent (PresentationController doc t0).
Proof.
  unfold PresentationController, init, setupElements.
  destruct doc as [sl [?|] [?|] [?|] [?|] ti bo nn];
    (split; simpl;
     [ exact I | constructor | done
     | unfold inRange; simpl; lia
     | left; unfold synced; simpl; done ]).
Qed.

Lemma Coherent_touch x y t w :
  Coherent w -> Coherent (on_this (with_touchStart x y t) w).
Proof. intros [H1 H2 H3 H4 H5]. split; done. Qed.

Lemma Coherent_touch_reset w : Coherent w -> Coherent (resetTouch w).
Proof. intros [H1 H2 H3 H4 H5]. split; done. Qed.

Lemma Coherent_updateUI w : Coherent w -> Coherent (updateUI w).
Proof.
  intros [H1 H2 H3 H4 H5]. split.
  - rewrite timers_updateUI. by apply sorted_schedule.
  - rewrite timers_updateUI, now_updateUI. apply Forall_schedule.
    split; [simpl; lia | done].
  - by rewrite this_updateUI, slides_updateUI.
  - by rewrite this_updateUI.
  - pose proof (synced_updateUI w) as Hs.
    unfold phase_ok in *.
    rewrite timers_updateUI, this_updateUI, pending_schedule_other by done.
    destruct H5 as [(?&?&?)|[(d&p&?&?)|(d&?&?&?)]]; eauto 10.
Qed.

Lemma Coherent_goToSlide i w : Coherent w -> Coherent (goToSlide i w).
Proof.
  intros Hw. destruct (rejected (this w) i) eqn:R.
  { by rewrite goToSlide_rejected. }
  destruct (goToSlide_accepted i w R) as (Ht & Hn & Hq & Hl & _).
  destruct Hw as [H1 H2 H3 H4 H5].
  apply accepted_iff in R as (Hf & Hi & Hne).
  split.
  - rewrite Hq. by apply sorted_schedule.
  - rewrite Hq, Hn. apply Forall_schedule. split; [simpl; lia | done].
  - rewrite Ht, Hl. simpl. done.
  - rewrite Ht. unfold inRange. simpl. lia.
  - right; left. exists (now w + 50), (currentSlide (this w)).
    rewrite Hq, Ht. simpl. split; [|done].
    apply pending_schedule_first; [done|].
    destruct H5 as [(?&?&?)|[(d&p&?&?)|(d&?&?&?)]]; congruence.
Qed.

Lemma Coherent_nextSlide w : Coherent w -> Coherent (nextSlide w).
Proof.
  intros Hw. destruct (nextSlide_cases w) as [->|[_ ->]]; [done|].
  by apply Coherent_goToSlide.
Qed.

Lemma Coherent_previousSlide w : Coherent w -> Coherent (previousSlide w).
Proof.
  intros Hw. destruct (previousSlide_cases w) as [->|[_ ->]]; [done|].
  by apply Coherent_goToSlide.
Qed.

Create HintDb coherent.

#[local] Hint Resolve Coherent_goToSlide Coherent_nextSlide
  Coherent_previousSlide Coherent_updateUI Coherent_touch
  Coherent_touch_reset : coherent.

Lemma Coherent_handleKeyPress e w : Coherent w -> Coherent (handleKeyPress e w).
Proof.
  intros Hw. unfold handleKeyPress, resetPresentation.
  repeat match goal with
         | |- context [if ?b then _ else _] => destruct b
         end; auto with coherent.
Qed.

Lemma Coherent_handleNumberKey e w : Coherent w -> Coherent (handleNumberKey e w).
Proof.
  intros Hw. unfold handleNumberKey.
  repeat match goal with
         | |- context [if ?b then _ else _] => destruct b
         | |- context [match ?o with Some _ => _ | None => _ end] => destruct o
         end; auto with coherent.
Qed.

Lemma Coherent_handleTouchEnd x y w :
  Coherent w -> Coherent (handleTouchEnd x y w).2.
Proof.
  intros Hw. unfold handleTouchEnd.
  repeat match goal with
         | |- context [if ?b then _ else _] => destruct b
         end; simpl; auto with coherent.
Qed.

Lemma Coherent_fire due task rest w :
  Coherent w -> timers w = (due, task) :: rest ->
  Coherent (fire due task rest w).
Proof.
  intros [H1 H2 H3 H4 H5] Hq. unfold fire.
  rewrite Hq in H1, H2. simpl in H1. destruct H1 as [Hhd Hrest].
  apply Forall_cons in H2 as [Hdue Hfut]. simpl in Hdue.
  set (w0 := with_timers rest (with_now (Z.max (now w) due) w)).
  assert (Hnow : now w0 = due) by (simpl; lia).
  assert (Hfut0 : Forall (fun x => now w0 <= x.1) (timers w0)).
  { rewrite Hnow. exact Hhd. }
  unfold phase_ok in H5. rewrite Hq in H5.
  destruct task as [p| |n].
  - (* the 50 ms callback *)
    destruct (runTask_ActivateSlide_facts p w0)
      as (Ht & Hn & Htm & Hl & Hs & _).
    assert (Hp : pending rest = [] /\ isTransitioning (this w) = true).
    { unfold pending in H5. simpl in H5. fold (pending rest) in H5.
      destruct H5 as [(?&?&?)|[(d&q&E&?)|(d&E&?&?)]];
        [done| |done]. split; [congruence|done]. }
    destruct Hp as [Hp Hf].
    split.
    + rewrite Htm. by do 2 apply sorted_schedule.
    + rewrite Htm, Hn. apply Forall_schedule. split; [simpl; lia|].
      apply Forall_schedule. split; [simpl; lia|done].
    + rewrite Ht, Hl. done.
    + by rewrite Ht.
    + right; right. exists (now w0 + 600). rewrite Htm, Ht.
      split; [|done].
      apply pending_schedule_first; [done|].
      by rewrite pending_schedule_other.
  - (* the 600 ms callback *)
    assert (Hp : pending rest = [] /\ synced w).
    { unfold pending in H5. simpl in H5. fold (pending rest) in H5.
      destruct H5 as [(?&?&?)|[(d&q&E&?)|(d&E&?&?)]];
        [done|done|]. split; [congruence|done]. }
    destruct Hp as [Hp Hs].
    split; try done. left. done.
  - (* withdrawing an announcement *)
    split; try done.
Qed.

(** ** Running the queue up to a deadline *)

Lemma runTimers_invariant (I : World -> Prop) deadline :
  (forall w due task rest,
      I w -> timers w = (due, task) :: rest -> due <= deadline ->
      I (fire due task rest w)) ->
  forall fuel w, I w -> I (runTimers fuel deadline w).
Proof.
  intros Hstep. induction fuel as [|fuel IH]; intros w Hw; simpl; [done|].
  destruct (timers w) as [|[due task] rest] eqn:Hq; [done|].
  destruct (due <=? deadline) eqn:E; [|done].
  apply IH. apply Hstep; [done..|lia].
Qed.

Lemma queueWeight_fire due task rest w :
  (queueWeight (timers (fire due task rest w)) + 1
   = queueWeight ((due, task) :: rest))%nat.
Proof.
  unfold fire. destruct task as [p| |n].
  - destruct (runTask_ActivateSlide_facts p
                (with_timers rest (with_now (Z.max (now w) due) w)))
      as (_ & _ & -> & _).
    rewrite !queueWeight_schedule. simpl. lia.
  - simpl. lia.
  - simpl. lia.
Qed.

(** The fuel [elapse] hands to [runTimers] is enough: no callback due by the
    deadline is left on the queue. *)
Lemma runTimers_drained deadline fuel w :
  Coherent w -> (queueWeight (timers w) <= fuel)%nat ->
  Forall (fun x => deadline < x.1) (timers (runTimers fuel deadline w)).
Proof.
  revert w. induction fuel as [|fuel IH]; intros w Hw Hfuel; simpl.
  - destruct (timers w) as [|[due task] rest]; [constructor|].
    simpl in Hfuel. destruct task; simpl in Hfuel; lia.
  - destruct (timers w) as [|[due task] rest] eqn:Hq; [rewrite Hq; constructor|].
    destruct (due <=? deadline) eqn:E.
    + apply IH; [by apply Coherent_fire|].
      pose proof (queueWeight_fire due task rest w). lia.
    + rewrite Hq. pose proof (coh_sorted w Hw) as Hs. rewrite Hq in Hs.
      destruct Hs as [Hhd _].
      constructor; [simpl; lia|].
      eapply Forall_impl; [exact Hhd|]. simpl. intros; lia.
Qed.

Lemma Coherent_runTimers deadline fuel w :
  Coherent w -> Coherent (runTimers fuel deadline w).
Proof.
  apply runTimers_invariant. intros; by apply Coherent_fire.
Qed.

Lemma Coherent_elapse ms w : Coherent w -> Coherent (elapse ms w).
Proof.
  intros Hw. unfold elapse.
  pose proof (Coherent_runTimers (now w + Z.of_N ms)
                (queueWeight (timers w)) w Hw) as [H1 H2 H3 H4 H5].
  pose proof (runTimers_drained (now w + Z.of_N ms) _ w Hw (le_n _)) as Hd.
  split; try done. simpl.
  eapply Forall_impl; [exact Hd|]. simpl. intros; lia.
Qed.

Lemma Coherent_dispatch ev w : Coherent w -> Coherent (dispatch ev w).
Proof.
  intros Hw. destruct ev; simpl.
  - by apply Coherent_handleNumberKey, Coherent_handleKeyPress.
  - by apply Coherent_touch.
  - by apply Coherent_handleTouchEnd.
  - destruct (prevBtn (page w)); auto with coherent.
  - destruct (nextBtn (page w)); auto with coherent.
  - by apply Coherent_updateUI.
  - by apply Coherent_nextSlide.
  - by apply Coherent_previousSlide.
  - by apply Coherent_goToSlide.
  - by apply Coherent_goToSlide.
  - by apply Coherent_goToSlide.
  - by apply Coherent_elapse.
Qed.

Lemma Coherent_run evs w : Coherent w -> Coherent (run evs w).
Proof.
  revert w. induction evs as [|ev evs IH]; intros w Hw; simpl; [done|].
  apply IH. by apply Coherent_dispatch.
Qed.

Lemma reachable_Coherent w : reachable w -> Coherent w.
Proof.
  intros (doc & t0 & evs & ->). apply Coherent_run, Coherent_init.
Qed.

(** ** The timeline of one transition *)

Section Timeline.

(** [w1]: a world in which the 50 ms callback is pending, due at [d]. *)
Variable w1 : World.
Variables (d p : Z).
Hypothesis Hcoh : Coherent w1.
Hypothesis Hpending : pending (timers w1) = [(d, ActivateSlide p)].

Lemma on_track_start deadline : on_track w1 d p deadline w1.
Proof.
  unfold on_track, stage. do 3 (split; [done|]). left.
  split; [done|]. split; [|done].
  destruct (coh_phase w1 Hcoh) as [(E&_)|[(?&?&_&?)|(?&E&_)]];
    [congruence|done|congruence].
Qed.

Lemma on_track_fire deadline w due task rest :
  on_track w1 d p deadline w -> timers w = (due, task) :: rest -> due <= deadline ->
  on_track w1 d p deadline (fire due task rest w).
Proof.
  intros (Hw & Hc & Hn & Hst) Hq Hdue.
  pose proof (Coherent_fire due task rest w Hw Hq) as Hw'.
  pose proof (coh_future w Hw) as Hfut. rewrite Hq in Hfut.
  apply Forall_cons in Hfut as [Hnow _]. simpl in Hnow.
  unfold on_track, stage in *. rewrite Hq in Hst.
  unfold fire in *.
  set (w0 := with_timers rest (with_now (Z.max (now w) due) w)) in *.
  destruct task as [q| |k].
  - (* the 50 ms callback: the presenter runs *)
    destruct (runTask_ActivateSlide_facts q w0)
      as (Ht & Hn' & Htm & _ & _ & Hsc & Hpb).
    assert (Hp : due = d /\ pending rest = []
                 /\ display (page w) = display (page w1)).
    { unfold pending in Hst. simpl in Hst. fold (pending rest) in Hst.
      destruct Hst as [(E&_&?)|[(E&_)|(E&_)]]; [|done|done].
      repeat split; [congruence|congruence|done]. }
    destruct Hp as (-> & Hp & Hdisp).
    split; [done|]. rewrite Ht. repeat split; try done.
    right; left. unfold updated. rewrite Htm, Hsc, Hpb.
    unfold display in Hdisp.
    replace (now w0) with d by (simpl; lia).
    repeat split; try done.
    + apply pending_schedule_first; [done|].
      by rewrite pending_schedule_other.
    + by destruct Hst as [(_&?&_)|[(E&_)|(E&_)]].
    + simpl. rewrite Hc, Hn. congruence.
    + simpl. rewrite Hc, Hn. congruence.
  - (* the 600 ms callback: the lock is released *)
    assert (Hp : due = d + 600 /\ pending rest = [] /\ updated w1 w).
    { unfold pending in Hst. simpl in Hst. fold (pending rest) in Hst.
      destruct Hst as [(E&_)|[(E&_&_&?)|(E&_)]]; [done| |done].
      repeat split; [congruence|congruence|apply H|apply H]. }
    destruct Hp as (-> & Hp & Hup).
    split; [done|]. repeat split; try done.
    right; right. repeat split; try done; apply Hup.
  - (* an announcement is withdrawn *)
    split; [done|]. do 2 (split; [done|]). exact Hst.
Qed.

Lemma on_track_elapse ms :
  on_track w1 d p (now w1 + Z.of_N ms) (elapse ms w1)
  /\ Forall (fun x => now w1 + Z.of_N ms < x.1) (timers (elapse ms w1)).
Proof.
  unfold elapse. split.
  - pose proof (runTimers_invariant (on_track w1 d p (now w1 + Z.of_N ms))
                  (now w1 + Z.of_N ms)
                  (on_track_fire (now w1 + Z.of_N ms))
                  (queueWeight (timers w1)) w1
                  (on_track_start _)) as (Hw & ? & ? & ?).
    split; [|done].
    fold (elapse ms w1). by apply Coherent_elapse.
  - apply runTimers_drained; [done|lia].
Qed.

(** The state [ms] milliseconds after [w1]. *)
Lemma timeline ms :
  let deadline := now w1 + Z.of_N ms in
  let w2 := elapse ms w1 in
  Coherent w2
  /\ currentSlide (this w2) = currentSlide (this w1)
  /\ totalSlides (this w2) = totalSlides (this w1)
  /\ (deadline < d -> display (page w2) = display (page w1))
  /\ (d <= deadline -> updated w1 w2)
  /\ (deadline < d + 600 -> isTransitioning (this w2) = true)
  /\ (d + 600 <= deadline ->
      isTransitioning (this w2) = false /\ pending (timers w2) = []).
Proof.
  cbv zeta.
  destruct (on_track_elapse ms) as [(Hw & Hc & Hn & Hst) Hd].
  remember (elapse ms w1) as w2 eqn:Ew2.
  remember (now w1 + Z.of_N ms) as deadline eqn:Edl.
  clear Ew2 Edl.
  assert (Hin : forall x, In x (pending (timers w2)) -> deadline < x.1).
  { intros x Hx. apply pending_In in Hx.
    rewrite Forall_forall in Hd. apply Hd. by apply list_elem_of_In. }
  do 3 (split; [done|]).
  assert (Hnot1 : d <= deadline ->
                  pending (timers w2) <> [(d, ActivateSlide p)]).
  { intros Hle E. specialize (Hin (d, ActivateSlide p)).
    rewrite E in Hin. specialize (Hin (or_introl eq_refl)).
    simpl in Hin. lia. }
  assert (Hnot2 : d + 600 <= deadline ->
                  pending (timers w2) <> [(d + 600, EndTransition)]).
  { intros Hle E. specialize (Hin (d + 600, EndTransition)).
    rewrite E in Hin. specialize (Hin (or_introl eq_refl)).
    simpl in Hin. lia. }
  split; [|split; [|split]].
  - intros Hlt.
    destruct Hst as [(_&_&?)|[(_&_&?&_)|(_&_&?&_)]]; [done|lia|lia].
  - intros Hle.
    destruct Hst as [(E&_)|[(_&_&_&H)|(_&_&_&H)]]; [|done|done].
    by destruct (Hnot1 Hle).
  - intros Hlt.
    destruct Hst as [(_&?&_)|[(_&?&_)|(_&_&?&_)]]; [done|done|lia].
  - intros Hle.
    destruct Hst as [(E&_)|[(E&_)|(?&?&_)]]; [| |done].
    + destruct (Hnot1 ltac:(lia) E).
    + destruct (Hnot2 Hle E).
Qed.

End Timeline.

Lemma idle_pending w :
  Coherent w -> isTransitioning (this w) = false -> pending (timers w) = [].
Proof.
  intros Hw Hf.
  destruct (coh_phase w Hw) as [(?&_)|[(?&?&_&?)|(?&_&?&_)]];
    [done|congruence|congruence].
Qed.

(** An accepted [goToSlide], followed by [ms] milliseconds. *)
Lemma goToSlide_timeline i ms w :
  Coherent w -> rejected (this w) i = false ->
  let w2 := elapse ms (goToSlide i w) in
  Coherent w2
  /\ currentSlide (this w2) = i
  /\ totalSlides (this w2) = totalSlides (this w)
  /\ ((ms < 50)%N -> display (page w2) = display (page w))
  /\ ((50 <= ms)%N ->
      slideCounter (page w2)
      = (fun _ => counterText i (totalSlides (this w))) <$> slideCounter (page w)
      /\ progressBar (page w2)
      = (fun _ => progress i (totalSlides (this w))) <$> progressBar (page w))
  /\ ((ms < 650)%N -> isTransitioning (this w2) = true)
  /\ ((650 <= ms)%N ->
      isTransitioning (this w2) = false /\ pending (timers w2) = []).
Proof.
  intros Hw R. cbv zeta.
  destruct (goToSlide_accepted i w R)
    as (Ht & Hn & Hq & _ & Hsc & Hpb & Hb1 & Hb2 & Hti & _).
  pose proof (proj1 (accepted_iff _ _) R) as (Hf & _).
  assert (Hp : pending (timers (goToSlide i w))
               = [(now w + 50, ActivateSlide (currentSlide (this w)))]).
  { rewrite Hq. apply pending_schedule_first; [done|]. by apply idle_pending. }
  destruct (timeline (goToSlide i w) _ _ (Coherent_goToSlide i w Hw) Hp ms)
    as (Hw2 & Hc & Hn2 & H1 & H2 & H3 & H4).
  rewrite Ht in Hc, Hn2.
  unfold updated in H2. rewrite Ht, Hsc, Hpb in H2.
  cbn [currentSlide totalSlides with_currentSlide with_isTransitioning]
    in Hc, Hn2, H2.
  assert (Hd : display (page (goToSlide i w)) = display (page w)).
  { unfold display. by rewrite Hsc, Hpb, Hb1, Hb2, Hti. }
  rewrite Hd in H1. rewrite Hn in H1, H2, H3, H4.
  split; [exact Hw2|]. split; [exact Hc|]. split; [exact Hn2|].
  split; [|split; [|split]]; intros Hms.
  - apply H1. lia.
  - apply H2. lia.
  - apply H3. lia.
  - apply H4. lia.
Qed.

(** While no transition is under way, letting time pass changes nothing in
    the controller. *)
Lemma elapse_idle ms w :
  Coherent w -> isTransitioning (this w) = false ->
  this (elapse ms w) = this w /\ display (page (elapse ms w)) = display (page w).
Proof.
  intros Hw Hf. unfold elapse.
  pose proof (runTimers_invariant
    (fun v => pending (timers v) = [] /\ this v = this w
              /\ display (page v) = display (page w))
    (now w + Z.of_N ms)) as Hinv.
  simpl. apply Hinv; [|by repeat split; try apply idle_pending].
  clear. intros v due task rest (Hp & Ht & Hd) Hq _.
  rewrite Hq in Hp. unfold pending in Hp. simpl in Hp.
  destruct task; try done.
Qed.

(** [Next()] and [Previous()] are [GoTo] of the neighbouring index. *)
Lemma nextSlide_goToSlide w :
  nextSlide w = goToSlide (currentSlide (this w) + 1) w.
Proof.
  unfold nextSlide.
  destruct (isTransitioning (this w) || _) eqn:E; [|done].
  symmetry. apply goToSlide_rejected, rejected_iff.
  apply orb_true_iff in E as [E|E]; [by left|].
  apply Z.leb_le in E. right; right; left. lia.
Qed.

Lemma previousSlide_goToSlide w :
  previousSlide w = goToSlide (currentSlide (this w) - 1) w.
Proof.
  unfold previousSlide.
  destruct (isTransitioning (this w) || _) eqn:E; [|done].
  symmetry. apply goToSlide_rejected, rejected_iff.
  apply orb_true_iff in E as [E|E]; [by left|].
  apply Z.leb_le in E. right; left. lia.
Qed.

(** ** Observing the index at Idle *)

Lemma settle_goToSlide i w :
  idle w ->
  let w' := settle (goToSlide i w) in
  idle w'
  /\ totalSlides (this w') = totalSlides (this w)
  /\ currentSlide (this w')
     = if rejected (this w) i then currentSlide (this w) else i.
Proof.
  intros [Hw Hf]. cbv zeta. unfold settle.
  destruct (rejected (this w) i) eqn:R.
  - rewrite goToSlide_rejected by done.
    destruct (elapse_idle 650 w Hw Hf) as [Ht _].
    unfold idle. rewrite !Ht.
    split; [split; [by apply Coherent_elapse | done] | split; done].
  - destruct (goToSlide_timeline i 650 w Hw R) as (?&?&?&_&_&_&H).
    destruct H as [? _]; [lia|].
    split; [split; done | split; done].
Qed.

Lemma idle_init doc t0 : idle (PresentationController doc t0).
Proof.
  split; [apply Coherent_init|].
  unfold PresentationController, init, setupElements.
  by destruct doc as [sl [?|] [?|] [?|] [?|] ti bo nn].
Qed.

(** ** Intents that find the navigator blocked *)

Lemma nav_eq v w :
  nav v = nav w ->
  currentSlide (this v) = currentSlide (this w)
  /\ totalSlides (this v) = totalSlides (this w)
  /\ isTransitioning (this v) = isTransitioning (this w).
Proof.
  intros H. split; [|split].
  - exact (f_equal (fun x => x.1.1) H).
  - exact (f_equal (fun x => x.1.2) H).
  - exact (f_equal (fun x => x.2) H).
Qed.

Lemma blocked_no_slides w : totalSlides (this w) = 0 -> blocked w.
Proof.
  intros H i. apply goToSlide_rejected, rejected_iff. rewrite H. lia.
Qed.

Lemma blocked_transitioning w : isTransitioning (this w) = true -> blocked w.
Proof. intros H i. apply goToSlide_rejected, rejected_iff. by left. Qed.

Lemma nextSlide_blocked w : blocked w -> nextSlide w = w.
Proof. intros H. rewrite nextSlide_goToSlide. apply H. Qed.

Lemma previousSlide_blocked w : blocked w -> previousSlide w = w.
Proof. intros H. rewrite previousSlide_goToSlide. apply H. Qed.

Lemma handleKeyPress_blocked e w : blocked w -> handleKeyPress e w = w.
Proof.
  intros H. unfold handleKeyPress, resetPresentation.
  rewrite nextSlide_blocked, previousSlide_blocked, !H by done.
  repeat match goal with
         | |- context [if ?b then _ else _] => destruct b
         end; done.
Qed.

Lemma handleNumberKey_blocked e w : blocked w -> handleNumberKey e w = w.
Proof.
  intros H. unfold handleNumberKey.
  repeat match goal with
         | |- context [if ?b then _ else _] => destruct b
         | |- context [match ?o with Some _ => _ | None => _ end] => destruct o
         end; try done; apply H.
Qed.

Lemma handleTouchEnd_blocked x y w :
  blocked w ->
  (handleTouchEnd x y w).2 = w \/ (handleTouchEnd x y w).2 = resetTouch w.
Proof.
  intros H. unfold handleTouchEnd.
  rewrite nextSlide_blocked, previousSlide_blocked by done.
  repeat match goal with
         | |- context [if ?b then _ else _] => destruct b
         end; simpl; auto.
Qed.

(** Apart from the passing of time, no event changes the navigation state,
    the clock or the pending transition callbacks of a blocked world. *)
Lemma dispatch_blocked ev w :
  blocked w -> (forall ms, ev <> Elapse ms) ->
  nav (dispatch ev w) = nav w
  /\ now (dispatch ev w) = now w
  /\ pending (timers (dispatch ev w)) = pending (timers w).
Proof.
  intros H Hev. destruct ev; cbn [dispatch].
  - by rewrite handleKeyPress_blocked, handleNumberKey_blocked.
  - done.
  - by destruct (handleTouchEnd_blocked clientX clientY w H) as [-> | ->].
  - destruct (prevBtn (page w)); by rewrite ?previousSlide_blocked.
  - destruct (nextBtn (page w)); by rewrite ?nextSlide_blocked.
  - unfold handleResize, nav.
    rewrite this_updateUI, now_updateUI, timers_updateUI.
    by rewrite pending_schedule_other.
  - by rewrite nextSlide_blocked.
  - by rewrite previousSlide_blocked.
  - by rewrite H.
  - unfold resetPresentation. by rewrite H.
  - by rewrite H.
  - by destruct (Hev ms).
Qed.

Lemma now_elapse ms w : now (elapse ms w) = now w + Z.of_N ms.
Proof. reflexivity. Qed.

(** ** The lock during a transition *)

Lemma locked_fire d i deadline due task rest w :
  locked d i w -> timers w = (due, task) :: rest ->
  due <= deadline -> deadline < d + 600 ->
  locked d i (fire due task rest w).
Proof.
  intros (Hw & Hc & Hf & Hp) Hq Hdue Hdl.
  pose proof (Coherent_fire due task rest w Hw Hq) as Hw'.
  pose proof (coh_future w Hw) as Hfut. rewrite Hq in Hfut.
  apply Forall_cons in Hfut as [Hnow _]. simpl in Hnow.
  rewrite Hq in Hp. unfold pending in Hp. simpl in Hp.
  fold (pending rest) in Hp.
  unfold locked, fire in *.
  set (w0 := with_timers rest (with_now (Z.max (now w) due) w)) in *.
  destruct task as [q| |k]; simpl in Hp; fold (pending rest) in Hp.
  - destruct (runTask_ActivateSlide_facts q w0) as (Ht & _ & Htm & _).
    destruct Hp as [[p Hp]|Hp]; [|done].
    assert (due = d /\ pending rest = []) as [-> Hrest]
      by (split; congruence).
    split; [done|]. rewrite Ht, Htm. do 2 (split; [done|]).
    right. replace (now w0) with d by (simpl; lia).
    apply pending_schedule_first; [done|].
    by rewrite pending_schedule_other.
  - destruct Hp as [[p Hp]|Hp]; [done|].
    assert (due = d + 600) by congruence. lia.
  - split; [done|]. do 2 (split; [done|]). exact Hp.
Qed.

Lemma locked_dispatch d i ev w :
  locked d i w ->
  (forall ms, ev = Elapse ms -> now w + Z.of_N ms < d + 600) ->
  locked d i (dispatch ev w).
Proof.
  intros Hl Hev. destruct ev.
  12: {
    specialize (Hev ms eq_refl). cbn [dispatch]. unfold elapse.
    pose proof (runTimers_invariant (locked d i) (now w + Z.of_N ms)) as Hinv.
    destruct (Hinv (fun v due task rest Hv Hq Hdue =>
                      locked_fire d i _ due task rest v Hv Hq Hdue Hev)
                   (queueWeight (timers w)) w Hl) as (_ & Hc & Hf & Hp).
    split; [|done]. fold (elapse ms w). apply Coherent_elapse, Hl. }
  all: destruct Hl as (Hw & Hc & Hf & Hp);
    match goal with
    | |- locked _ _ (dispatch ?e _) =>
        destruct (dispatch_blocked e w (blocked_transitioning w Hf))
          as (Hn & _ & Hq); [done|]
    end;
    apply nav_eq in Hn as (Hc' & _ & Hf');
    (split; [by apply Coherent_dispatch|]); rewrite Hc', Hf', Hq; done.
Qed.

Lemma now_dispatch_locked d i ev w :
  locked d i w -> now (dispatch ev w) = now w + Z.of_N (elapsed ev).
Proof.
  intros (_ & _ & Hf & _). destruct ev.
  12: { apply now_elapse. }
  all: match goal with
       | |- now (dispatch ?e _) = _ =>
           destruct (dispatch_blocked e w (blocked_transitioning w Hf))
             as (_ & -> & _); [done|]
       end; simpl; lia.
Qed.

(** Whatever events arrive, the lock is held and the index stays at the
    target as long as less than 650 ms have passed. *)
Lemma locked_run d i evs w :
  locked d i w -> now w + Z.of_N (duration evs) < d + 600 ->
  locked d i (run evs w).
Proof.
  revert w. induction evs as [|ev evs IH]; intros w Hl Ht; simpl; [done|].
  pose proof (now_dispatch_locked d i ev w Hl) as Hn.
  apply IH.
  - apply locked_dispatch; [done|]. intros ms ->. simpl in Ht. lia.
  - rewrite Hn. simpl in Ht. lia.
Qed.

Lemma locked_goToSlide i w :
  Coherent w -> rejected (this w) i = false ->
  locked (now w + 50) i (goToSlide i w).
Proof.
  intros Hw R.
  destruct (goToSlide_accepted i w R) as (Ht & _ & Hq & _).
  pose proof (proj1 (accepted_iff _ _) R) as (Hf & _).
  split; [by apply Coherent_goToSlide|]. rewrite Ht, Hq.
  do 2 (split; [done|]). left. eexists.
  apply pending_schedule_first; [done|]. by apply idle_pending.
Qed.

(** * The claims *)

(** ** C1: the range of the current index *)

(** C1, as stated, fails on a document without slides: right after
    construction the index is 0 and the slide count is 0, so the index is not
    below the count. *)
Lemma index_not_in_range_empty_deck :
  reachable emptyDeck
  /\ ~ (0 <= currentSlide (this emptyDeck) < totalSlides (this emptyDeck)).
Proof.
  split.
  - by exists (deck []), 0, [].
  - vm_compute. intros [_ H]. discriminate H.
Qed.

(** C1 (amended): in every reachable world the index is inside
    [0, totalSlides) as soon as there is a slide, and it is 0 when there is
    none; every accepted [goToSlide] leaves the index, equal to its target,
    inside [0, totalSlides). *)
Theorem index_in_range w :
  reachable w ->
  0 <= totalSlides (this w)
  /\ (0 < totalSlides (this w) ->
      0 <= currentSlide (this w) < totalSlides (this w))
  /\ (totalSlides (this w) = 0 -> currentSlide (this w) = 0)
  /\ (forall i, rejected (this w) i = false ->
        currentSlide (this (goToSlide i w)) = i
        /\ 0 <= currentSlide (this (goToSlide i w))
           < totalSlides (this (goToSlide i w))).
Proof.
  intros Hr. apply reachable_Coherent in Hr as [_ _ Ht [H0 Hc] _].
  repeat split; try lia.
  - destruct (goToSlide_accepted i w H) as (-> & _). done.
  - destruct (goToSlide_accepted i w H) as (-> & _). simpl.
    apply accepted_iff in H. lia.
  - destruct (goToSlide_accepted i w H) as (-> & _). simpl.
    apply accepted_iff in H. lia.
Qed.

Lemma index_in_range_witness :
  0 <= totalSlides (this fiveSlides)
  /\ (0 < totalSlides (this fiveSlides) ->
      0 <= currentSlide (this fiveSlides) < totalSlides (this fiveSlides))
  /\ (totalSlides (this fiveSlides) = 0 -> currentSlide (this fiveSlides) = 0)
  /\ (forall i, rejected (this fiveSlides) i = false ->
        currentSlide (this (goToSlide i fiveSlides)) = i
        /\ 0 <= currentSlide (this (goToSlide i fiveSlides))
           < totalSlides (this (goToSlide i fiveSlides))).
Proof.
  apply (index_in_range fiveSlides).
  exists (deck (replicate 5 blankSlide)), 0, []. reflexivity.
Defined.

(** ** C2: when the index and the lock change *)


(** The amended statement of C2 needs what the 50 ms callback does to the
    page; it is proved further down, with the commit step of a
    transition. *)

(** ** C3: the progress fraction *)

(** C3, as stated, fails on a document without slides: nothing guards the
    division, and [1 / 0] is [Infinity], not 0; that is what
    [updateProgressBar] writes at construction. *)
Lemma progress_unguarded_empty_deck :
  let c := this emptyDeck in
  totalSlides c = 0
  /\ progressFraction (currentSlide c) (totalSlides c) = JsNum.PosInf
  /\ ~ JsNum.eqv (progressFraction (currentSlide c) (totalSlides c)) (JsNum.of_Z 0)
  /\ progressBar (page emptyDeck) = Some JsNum.PosInf.
Proof. vm_compute. repeat split; try done; tauto. Qed.

(** C3 (amended): with a non-zero slide count the fraction is
    [(currentSlide + 1) / totalSlides]; with a slide count of zero the
    division is not guarded and yields [Infinity] (for an index that is not
    negative), and so does the percentage; [updateProgressBar] writes the
    fraction times 100 whenever the bar exists. *)
Theorem progress_fraction_value current total :
  (total <> 0 ->
   progressFraction current total
   = JsNum.Fin (inject_Z (current + 1) / inject_Z total)%Q)
  /\ (total = 0 -> 0 <= current ->
      progressFraction current total = JsNum.PosInf
      /\ progress current total = JsNum.PosInf)
  /\ (forall w,
        currentSlide (this w) = current -> totalSlides (this w) = total ->
        progressBar (page (updateProgressBar w))
        = (fun _ => JsNum.mul (progressFraction current total) (JsNum.of_Z 100))
            <$> progressBar (page w)).
Proof.
  split; [|split].
  - intros H. unfold progressFraction, JsNum.div.
    destruct (Z.eqb_spec total 0); [lia|reflexivity].
  - intros -> H. unfold progress, progressFraction, JsNum.div. simpl.
    destruct (Z.ltb_spec 0 (current + 1)); [done|lia].
  - intros w <- <-. unfold updateProgressBar.
    destruct (progressBar (page w)) eqn:E; [done | by rewrite E].
Qed.

Lemma progress_fraction_value_witness :
  progressFraction 1 5 = JsNum.Fin (inject_Z (1 + 1) / inject_Z 5)%Q
  /\ progressFraction 0 0 = JsNum.PosInf.
Proof.
  split.
  - apply (progress_fraction_value 1 5). lia.
  - apply (progress_fraction_value 0 0); [reflexivity | lia].
Defined.

(** ** C4: rejected intents *)

(** C4: [goToSlide] returns the world it was given, whole, when a transition
    is under way, when the target is out of range and when the target is the
    current index (the model has no exception to raise on these paths: the
    source returns at its first statement); so, without slides, [goToSlide],
    [nextSlide], [previousSlide], [resetPresentation] and the key handlers
    return the world unchanged, and no event other than the passing of time
    changes the navigation state. *)
Theorem rejected_intent_is_noop w :
  (forall i,
      isTransitioning (this w) = true \/ i < 0 \/ totalSlides (this w) <= i
      \/ i = currentSlide (this w) ->
      goToSlide i w = w)
  /\ (totalSlides (this w) = 0 ->
      (forall i, goToSlide i w = w)
      /\ nextSlide w = w
      /\ previousSlide w = w
      /\ resetPresentation w = w
      /\ (forall ev, (forall ms, ev <> Elapse ms) -> nav (dispatch ev w) = nav w)).
Proof.
  split.
  - intros i H. by apply goToSlide_rejected, rejected_iff.
  - intros H. apply blocked_no_slides in H.
    split; [exact H|].
    split; [by apply nextSlide_blocked|].
    split; [by apply previousSlide_blocked|].
    split; [apply H|].
    intros ev Hev. by apply dispatch_blocked.
Qed.

Lemma rejected_intent_is_noop_witness :
  goToSlide 3 (goToSlide 1 fiveSlides) = goToSlide 1 fiveSlides
  /\ goToSlide 7 fiveSlides = fiveSlides
  /\ nextSlide emptyDeck = emptyDeck.
Proof.
  split; [|split].
  - apply (proj1 (rejected_intent_is_noop (goToSlide 1 fiveSlides)) 3).
    left. reflexivity.
  - apply (proj1 (rejected_intent_is_noop fiveSlides) 7).
    right; right; left. vm_compute. discriminate.
  - apply (proj2 (rejected_intent_is_noop emptyDeck)). reflexivity.
Defined.

(** ** C5: a scenario on five slides *)

Lemma init_navigation doc t0 :
  nav (PresentationController doc t0)
  = (0, Z.of_nat (length (slides doc)), false).
Proof.
  unfold PresentationController, init, setupElements.
  by destruct doc as [sl [?|] [?|] [?|] [?|] ti bo nn].
Qed.

Lemma settle_step i c n r w :
  idle w -> currentSlide (this w) = c -> totalSlides (this w) = n ->
  (if (i <? 0) || (n <=? i) || (i =? c) then c else i) = r ->
  let w' := settle (goToSlide i w) in
  idle w' /\ currentSlide (this w') = r /\ totalSlides (this w') = n.
Proof.
  intros Hi Hc Hn <-. destruct (settle_goToSlide i w Hi) as (Hi' & Hn' & Hc').
  cbv zeta. split; [done|]. split; [|congruence].
  rewrite Hc'. unfold rejected. destruct Hi as [_ ->].
  by rewrite Hc, Hn.
Qed.

Lemma settle_next c n r w :
  idle w -> currentSlide (this w) = c -> totalSlides (this w) = n ->
  (if (c + 1 <? 0) || (n <=? c + 1) || (c + 1 =? c) then c else c + 1) = r ->
  let w' := settle (nextSlide w) in
  idle w' /\ currentSlide (this w') = r /\ totalSlides (this w') = n.
Proof.
  intros Hi Hc Hn Hr. rewrite nextSlide_goToSlide, Hc.
  by apply settle_step with (c := c).
Qed.

Lemma settle_previous c n r w :
  idle w -> currentSlide (this w) = c -> totalSlides (this w) = n ->
  (if (c - 1 <? 0) || (n <=? c - 1) || (c - 1 =? c) then c else c - 1) = r ->
  let w' := settle (previousSlide w) in
  idle w' /\ currentSlide (this w') = r /\ totalSlides (this w') = n.
Proof.
  intros Hi Hc Hn Hr. rewrite previousSlide_goToSlide, Hc.
  by apply settle_step with (c := c).
Qed.

(** C5: on any document with five slides, [Next(), Next(), Previous(),
    GoTo(4), Next()], each issued when the previous transition has settled,
    shows the indices 1, 2, 1, 4, 4 at Idle; the last [Next()] changes
    nothing at all. *)
Theorem scenario_five_slides doc t0 :
  length (slides doc) = 5%nat ->
  let w0 := PresentationController doc t0 in
  let w1 := settle (nextSlide w0) in
  let w2 := settle (nextSlide w1) in
  let w3 := settle (previousSlide w2) in
  let w4 := settle (goToSlide 4 w3) in
  let w5 := settle (nextSlide w4) in
  observe [CallNext; CallNext; CallPrevious; CallGoTo 4; CallNext] w0
  = [1; 2; 1; 4; 4]
  /\ Forall (fun w => isTransitioning (this w) = false) [w0; w1; w2; w3; w4; w5]
  /\ nextSlide w4 = w4.
Proof.
  intros Hlen w0 w1 w2 w3 w4 w5.
  pose proof (init_navigation doc t0) as Hinit. fold w0 in Hinit.
  rewrite Hlen in Hinit. unfold nav in Hinit.
  injection Hinit as Hc0 Hn0 _.
  pose proof (idle_init doc t0) as Hi0. fold w0 in Hi0.
  destruct (settle_next 0 5 1 w0 Hi0 Hc0 Hn0 eq_refl) as (Hi1 & Hc1 & Hn1).
  fold w1 in Hi1, Hc1, Hn1.
  destruct (settle_next 1 5 2 w1 Hi1 Hc1 Hn1 eq_refl) as (Hi2 & Hc2 & Hn2).
  fold w2 in Hi2, Hc2, Hn2.
  destruct (settle_previous 2 5 1 w2 Hi2 Hc2 Hn2 eq_refl) as (Hi3 & Hc3 & Hn3).
  fold w3 in Hi3, Hc3, Hn3.
  destruct (settle_step 4 1 5 4 w3 Hi3 Hc3 Hn3 eq_refl) as (Hi4 & Hc4 & Hn4).
  fold w4 in Hi4, Hc4, Hn4.
  destruct (settle_next 4 5 4 w4 Hi4 Hc4 Hn4 eq_refl) as (Hi5 & Hc5 & Hn5).
  fold w5 in Hi5, Hc5, Hn5.
  split; [|split].
  - unfold observe, dispatch.
    fold w0 w1. fold w2. fold w3. fold w4. fold w5.
    by rewrite Hc1, Hc2, Hc3, Hc4, Hc5.
  - repeat constructor; by apply proj2 in Hi0, Hi1, Hi2, Hi3, Hi4, Hi5.
  - rewrite nextSlide_goToSlide. apply goToSlide_rejected, rejected_iff.
    right; right; left. lia.
Qed.

Lemma scenario_five_slides_witness :
  observe [CallNext; CallNext; CallPrevious; CallGoTo 4; CallNext] fiveSlides
  = [1; 2; 1; 4; 4].
Proof.
  apply (scenario_five_slides (deck (replicate 5 blankSlide)) 0).
  reflexivity.
Defined.

(** ** C6 and C10: the gesture interpreter *)

#[local] Instance falsy_Proper : Proper (Qeq ==> eq) falsy.
Proof. intros x y H. unfold falsy. by rewrite H. Qed.

#[local] Instance Qltb_Proper : Proper (Qeq ==> Qeq ==> eq) Qltb.
Proof. intros x x' Hx y y' Hy. unfold Qltb. by rewrite Hx, Hy. Qed.

Lemma falsy_iff x : falsy x = true <-> (x == 0)%Q.
Proof. apply Qeq_bool_iff. Qed.

Lemma falsy_false x : ~ (x == 0)%Q -> falsy x = false.
Proof.
  intros H. destruct (falsy x) eqn:E; [|done].
  by apply falsy_iff in E.
Qed.

(** C6, as stated, fails for a touch that starts at y = 0: the deltas are
    80 and 5 and the duration 120 ms, and no method is called. *)
Lemma swipe_from_edge_ignored :
  (deltaX topEdgeSwipe 120 == 80)%Q
  /\ (deltaY topEdgeSwipe (-5 # 1) == 5)%Q
  /\ deltaTime topEdgeSwipe = 120
  /\ handleTouchEnd 120 (-5 # 1) topEdgeSwipe = (None, topEdgeSwipe)
  /\ (handleTouchEnd 120 (-5 # 1) topEdgeSwipe).1 <> Some Next.
Proof. vm_compute. repeat split; done. Qed.

(** C6 (amended): with deltas 80 and 5 and 120 ms, a touch whose recorded
    start coordinates are both non-zero calls [nextSlide] (and resets the
    coordinates); with 400 ms instead, with a horizontal delta of 30, or
    with deltas 20 and 60, no method is called and nothing changes. *)
Theorem gesture_examples w touchEndX touchEndY :
  let dx := deltaX w touchEndX in
  let dy := deltaY w touchEndY in
  (~ (touchStartX (this w) == 0)%Q -> ~ (touchStartY (this w) == 0)%Q ->
   (dx == 80)%Q -> (dy == 5)%Q -> deltaTime w = 120 ->
   handleTouchEnd touchEndX touchEndY w = (Some Next, resetTouch (nextSlide w)))
  /\ ((dx == 80)%Q -> (dy == 5)%Q -> deltaTime w = 400 ->
      handleTouchEnd touchEndX touchEndY w = (None, w))
  /\ ((dx == 30)%Q -> handleTouchEnd touchEndX touchEndY w = (None, w))
  /\ ((dx == 20)%Q -> (dy == 60)%Q ->
      handleTouchEnd touchEndX touchEndY w = (None, w)).
Proof.
  cbv zeta. unfold deltaX, deltaY, deltaTime, handleTouchEnd.
  split; [|split; [|split]].
  - intros Hx Hy Hdx Hdy Hdt.
    assert (E1 : Qltb (Qabs (touchStartX (this w) - touchEndX)) (inject_Z 50)
                 = false) by (by rewrite Hdx).
    assert (E2 : Qltb (Qabs (touchStartY (this w) - touchEndY))
                      (Qabs (touchStartX (this w) - touchEndX))
                 = true) by (by rewrite Hdx, Hdy).
    assert (E3 : Qltb 0 (touchStartX (this w) - touchEndX) = true)
      by (by rewrite Hdx).
    rewrite (falsy_false _ Hx), (falsy_false _ Hy), Hdt, E1, E2, E3.
    reflexivity.
  - intros Hdx Hdy Hdt.
    destruct (falsy _ || falsy _); [done|].
    by rewrite Hdt.
  - intros Hdx.
    destruct (falsy _ || falsy _); [done|].
    rewrite Hdx. by rewrite orb_true_r.
  - intros Hdx Hdy.
    destruct (falsy _ || falsy _); [done|].
    rewrite Hdx. by rewrite orb_true_r.
Qed.

Lemma gesture_examples_witness :
  handleTouchEnd 120 295 midSwipe = (Some Next, resetTouch (nextSlide midSwipe))
  /\ handleTouchEnd 170 295 midSwipe = (None, midSwipe).
Proof.
  split.
  - apply (proj1 (gesture_examples midSwipe 120 295));
      vm_compute; congruence.
  - apply (proj1 (proj2 (proj2 (gesture_examples midSwipe 170 295)))).
    reflexivity.
Defined.

Lemma handleTouchEnd_after_reset x y v :
  handleTouchEnd x y (resetTouch v) = (None, resetTouch v).
Proof. reflexivity. Qed.

Lemma handleTouchEnd_called touchEndX touchEndY w i :
  (handleTouchEnd touchEndX touchEndY w).1 = Some i ->
  exists v, (handleTouchEnd touchEndX touchEndY w).2 = resetTouch v.
Proof.
  unfold handleTouchEnd.
  destruct (falsy _ || falsy _); [done|].
  destruct ((300 <? _) || _); [done|].
  destruct (Qltb (Qabs _) (Qabs _)); [|done].
  destruct (Qltb 0 _); intros _; by eexists.
Qed.

(** C10: when the recorded start X or the recorded start Y is zero,
    [handleTouchEnd] calls no method and changes nothing, whatever the
    gesture; this is the case of every touch-end that follows one that
    called a method and reset the coordinates, until the next touch-start. *)
Theorem zero_start_no_intent w touchEndX touchEndY :
  ((touchStartX (this w) == 0)%Q \/ (touchStartY (this w) == 0)%Q ->
   handleTouchEnd touchEndX touchEndY w = (None, w))
  /\ (forall i x y,
        let w' := (handleTouchEnd touchEndX touchEndY w).2 in
        (handleTouchEnd touchEndX touchEndY w).1 = Some i ->
        handleTouchEnd x y w' = (None, w')).
Proof.
  split.
  - intros H. unfold handleTouchEnd.
    destruct H as [H|H]; apply falsy_iff in H; rewrite H;
      by rewrite ?orb_true_r.
  - intros i x y w' H. subst w'.
    destruct (handleTouchEnd_called _ _ _ _ H) as [v ->].
    apply handleTouchEnd_after_reset.
Qed.

Lemma zero_start_no_intent_witness :
  (50 <= Qabs (deltaX edgeSwipe 90))%Q
  /\ (Qabs (deltaY edgeSwipe 295) < Qabs (deltaX edgeSwipe 90))%Q
  /\ deltaTime edgeSwipe <= 300
  /\ handleTouchEnd 90 295 edgeSwipe = (None, edgeSwipe).
Proof.
  split; [vm_compute; discriminate|].
  split; [vm_compute; reflexivity|].
  split; [vm_compute; discriminate|].
  apply (proj1 (zero_start_no_intent edgeSwipe 90 295)).
  left. reflexivity.
Defined.

(** ** C7: the counter text *)

(** C7: in every reachable world in which no transition is under way the
    counter, when the page has one, reads ["{currentSlide+1} / {totalSlides}"];
    and from the 50 ms callback of an accepted [goToSlide] on, so in
    particular once the transition has settled, it reads that text for the
    new index. *)
Theorem counter_text_after_transition w :
  reachable w ->
  (isTransitioning (this w) = false ->
   slideCounter (page w)
   = (fun _ => Str.of_Z (currentSlide (this w) + 1) +:+ " / "
               +:+ Str.of_Z (totalSlides (this w)))
       <$> slideCounter (page w))
  /\ (forall i ms,
        rejected (this w) i = false -> (50 <= ms)%N ->
        let w2 := elapse ms (goToSlide i w) in
        currentSlide (this w2) = i
        /\ slideCounter (page w2)
           = (fun _ => Str.of_Z (currentSlide (this w2) + 1) +:+ " / "
                       +:+ Str.of_Z (totalSlides (this w2)))
               <$> slideCounter (page w)).
Proof.
  intros Hr. apply reachable_Coherent in Hr. split.
  - intros Hf.
    destruct (coh_phase w Hr) as [(_&_&[H _])|[(?&?&_&?)|(?&_&_&[H _])]];
      [exact H|congruence|exact H].
  - intros i ms R Hms. cbv zeta.
    destruct (goToSlide_timeline i ms w Hr R) as (_ & Hc & Hn & _ & H2 & _).
    split; [done|]. rewrite Hc, Hn. by apply H2.
Qed.

Lemma counter_text_after_transition_witness :
  slideCounter (page fiveSlides) = Some "1 / 5"
  /\ slideCounter (page (elapse 650 (goToSlide 3 fiveSlides))) = Some "4 / 5".
Proof.
  assert (Hr : reachable fiveSlides).
  { exists (deck (replicate 5 blankSlide)), 0, []. reflexivity. }
  split.
  - exact (proj1 (counter_text_after_transition fiveSlides Hr) eq_refl).
  - set (H := proj2 (counter_text_after_transition fiveSlides Hr) 3 650%N
                eq_refl ltac:(discriminate)).
    pose proof (proj1 H) as Hc. pose proof (proj2 H) as Hs.
    rewrite Hc in Hs. exact Hs.
Defined.

(** ** C8: the progress fraction grows with the index *)

Lemma progressFraction_pos current total :
  0 < total ->
  progressFraction current total
  = JsNum.Fin (inject_Z (current + 1) / inject_Z total)%Q.
Proof.
  intros H. unfold progressFraction, JsNum.div.
  destruct (Z.eqb_spec total 0); [lia|reflexivity].
Qed.

(** C8: for a positive slide count the fraction does not decrease when the
    index increases, and it is 1 exactly at the last index. *)
Theorem progress_fraction_monotone total :
  0 < total ->
  (forall c1 c2, c1 <= c2 ->
     JsNum.le (progressFraction c1 total) (progressFraction c2 total))
  /\ (forall c,
        JsNum.eqv (progressFraction c total) (JsNum.of_Z 1) <-> c = total - 1).
Proof.
  intros H. split.
  - intros c1 c2 Hc. rewrite !progressFraction_pos by done. simpl.
    destruct total as [|t|t]; try lia.
    unfold Qle, Qdiv, Qmult, Qinv. simpl. nia.
  - intros c. rewrite progressFraction_pos by done. simpl.
    destruct total as [|t|t]; try lia.
    unfold Qeq, Qdiv, Qmult, Qinv. simpl. lia.
Qed.

Lemma progress_fraction_monotone_witness :
  JsNum.le (progressFraction 1 5) (progressFraction 3 5)
  /\ (JsNum.eqv (progressFraction 4 5) (JsNum.of_Z 1) <-> 4 = 5 - 1).
Proof.
  split.
  - apply (proj1 (progress_fraction_monotone 5 ltac:(lia)) 1 3). lia.
  - apply (proj2 (progress_fraction_monotone 5 ltac:(lia)) 4).
Defined.

(** ** C9: fallback titles in the export *)

(** C9: in the data [exportSlideData] returns, the entry of a slide without
    h1 and h2 carries the slide's own position as its number, and as its
    title the fallback built from the controller's current index; the title
    does not depend on the position, so all such slides share it. *)
Theorem export_fallback_title timestamp w (k : nat) (s : Slide) :
  slides (page w) !! k = Some s -> headless s ->
  exists d,
    PresentationData.slides (exportSlideData timestamp w) !! k = Some d
    /\ SlideData.number d = Z.of_nat k + 1
    /\ SlideData.title d = "Slide " +:+ Str.of_Z (currentSlide (this w) + 1).
Proof.
  intros Hk [E1 E2]. unfold exportSlideData. simpl.
  rewrite list_lookup_imap, Hk. simpl.
  eexists. split; [reflexivity|]. simpl. split; [done|].
  unfold getSlideTitle. by rewrite E1, E2.
Qed.

Lemma export_fallback_title_witness :
  SlideData.title <$> (PresentationData.slides (exportSlideData "t" mixedDeck) !! 1%nat)
  = Some "Slide 4"
  /\ SlideData.title <$> (PresentationData.slides (exportSlideData "t" mixedDeck) !! 2%nat)
     = Some "Slide 4".
Proof.
  split.
  - destruct (export_fallback_title "t" mixedDeck 1 blankSlide)
      as (d & -> & _ & Ht); [reflexivity | by split |].
    simpl. rewrite Ht. reflexivity.
  - destruct (export_fallback_title "t" mixedDeck 2 blankSlide)
      as (d & -> & _ & Ht); [reflexivity | by split |].
    simpl. rewrite Ht. reflexivity.
Defined.

(** * Further properties of the code *)

(** ** Handlers as sequences of steps *)

Lemma steps_trans w v u : steps w v -> steps v u -> steps w u.
Proof.
  intros Hwv Hvu. induction Hvu as [|v' v'' u' _ IH Hs]; [done|].
  eapply steps_then; [by apply IH | done].
Qed.

Lemma steps_once w v : step w v -> steps w v.
Proof. intros H. eapply steps_then; [apply steps_refl | done]. Qed.

Lemma Coherent_step w v : Coherent w -> step w v -> Coherent v.
Proof.
  intros Hw Hs. destruct Hs as [w i R|w|w x y t|w due task rest Hq|w t Hn Hd].
  - by apply Coherent_goToSlide.
  - by apply Coherent_updateUI.
  - by apply Coherent_touch.
  - by apply Coherent_fire.
  - destruct Hw as [H1 H2 H3 H4 H5]. split; try done. simpl.
    eapply Forall_impl; [exact Hd|]. simpl. intros; lia.
Qed.

Lemma Coherent_steps w v : Coherent w -> steps w v -> Coherent v.
Proof.
  intros Hw Hs. induction Hs as [|w v u _ IH Hs]; [done|].
  eapply Coherent_step; [by apply IH | done].
Qed.

Lemma goToSlide_steps i w : steps w (goToSlide i w).
Proof.
  destruct (rejected (this w) i) eqn:R.
  - rewrite goToSlide_rejected by done. apply steps_refl.
  - by apply steps_once, step_goTo.
Qed.

Lemma nextSlide_steps w : steps w (nextSlide w).
Proof. rewrite nextSlide_goToSlide. apply goToSlide_steps. Qed.

Lemma previousSlide_steps w : steps w (previousSlide w).
Proof. rewrite previousSlide_goToSlide. apply goToSlide_steps. Qed.

Create HintDb steps.

#[local] Hint Resolve steps_refl goToSlide_steps nextSlide_steps
  previousSlide_steps : steps.

Lemma handleKeyPress_steps e w : steps w (handleKeyPress e w).
Proof.
  unfold handleKeyPress, resetPresentation.
  repeat match goal with
         | |- context [if ?b then _ else _] => destruct b
         end; auto with steps.
Qed.

Lemma handleNumberKey_steps e w : steps w (handleNumberKey e w).
Proof.
  unfold handleNumberKey.
  repeat match goal with
         | |- context [if ?b then _ else _] => destruct b
         | |- context [match ?o with Some _ => _ | None => _ end] => destruct o
         end; auto with steps.
Qed.

Lemma resetTouch_steps w v : steps w v -> steps w (resetTouch v).
Proof.
  intros H. eapply steps_then; [exact H|].
  apply (step_touch v 0 0 (touchStartTime (this v))).
Qed.

Lemma handleTouchEnd_steps x y w : steps w (handleTouchEnd x y w).2.
Proof.
  unfold handleTouchEnd.
  repeat match goal with
         | |- context [if ?b then _ else _] => destruct b
         end; simpl; auto using resetTouch_steps with steps.
Qed.

Lemma now_fire due task rest w :
  now (fire due task rest w) = Z.max (now w) due.
Proof.
  unfold fire. destruct task as [p| |n]; [|done|done].
  by destruct (runTask_ActivateSlide_facts p
                 (with_timers rest (with_now (Z.max (now w) due) w)))
    as (_ & -> & _).
Qed.

Lemma runTimers_steps deadline fuel w :
  now w <= deadline ->
  steps w (runTimers fuel deadline w)
  /\ now (runTimers fuel deadline w) <= deadline.
Proof.
  revert w. induction fuel as [|fuel IH]; intros w Hn; simpl.
  - split; [apply steps_refl | done].
  - destruct (timers w) as [|[due task] rest] eqn:Hq;
      [split; [apply steps_refl | done]|].
    destruct (due <=? deadline) eqn:E;
      [|split; [apply steps_refl | done]].
    apply Z.leb_le in E.
    destruct (IH (fire due task rest w)) as [Hs Hn'].
    { rewrite now_fire. lia. }
    split; [|done].
    eapply steps_trans; [|exact Hs]. by apply steps_once, step_fire.
Qed.

Lemma elapse_steps ms w : Coherent w -> steps w (elapse ms w).
Proof.
  intros Hw. unfold elapse.
  destruct (runTimers_steps (now w + Z.of_N ms) (queueWeight (timers w)) w)
    as [Hs Hn]; [lia|].
  eapply steps_then; [exact Hs|].
  apply step_now; [done|].
  by apply runTimers_drained.
Qed.

Lemma dispatch_steps ev w : Coherent w -> steps w (dispatch ev w).
Proof.
  intros Hw. destruct ev; cbn [dispatch].
  - eapply steps_trans;
      [apply handleKeyPress_steps | apply handleNumberKey_steps].
  - apply steps_once, step_touch.
  - apply handleTouchEnd_steps.
  - destruct (prevBtn (page w)); auto with steps.
  - destruct (nextBtn (page w)); auto with steps.
  - apply steps_once, step_updateUI.
  - apply nextSlide_steps.
  - apply previousSlide_steps.
  - apply goToSlide_steps.
  - apply goToSlide_steps.
  - apply goToSlide_steps.
  - by apply elapse_steps.
Qed.

Lemma run_steps evs w : Coherent w -> steps w (run evs w).
Proof.
  revert w. induction evs as [|ev evs IH]; intros w Hw; simpl;
    [apply steps_refl|].
  eapply steps_trans; [by apply dispatch_steps|].
  apply IH. by apply Coherent_dispatch.
Qed.

(** A property that holds when the controller is constructed and that every
    step keeps holds in every reachable world. *)
Lemma steps_invariant (P : World -> Prop) w v :
  (forall u u', Coherent u -> P u -> step u u' -> P u') ->
  Coherent w -> P w -> steps w v -> P v.
Proof.
  intros Hstep Hw HP Hs. induction Hs as [|w v u Hwv IH Hs]; [done|].
  eapply Hstep; [|by apply IH|done].
  by eapply Coherent_steps.
Qed.

Lemma run_invariant (P : World -> Prop) doc t0 evs :
  (forall u u', Coherent u -> P u -> step u u' -> P u') ->
  P (PresentationController doc t0) ->
  P (run evs (PresentationController doc t0)).
Proof.
  intros Hstep H0.
  eapply steps_invariant; [exact Hstep | apply Coherent_init | exact H0 |].
  apply run_steps, Coherent_init.
Qed.

(** ** What the steps do to the page *)

Lemma lookup_at_index_do {A} (f : A -> A) i (l : list A) (k : nat) :
  at_index_do f i l !! k
  = if Z.of_nat k =? i then f <$> l !! k else l !! k.
Proof.
  unfold at_index_do. destruct (Z.ltb_spec i 0) as [Hi|Hi].
  - destruct (Z.eqb_spec (Z.of_nat k) i); [lia|done].
  - rewrite list_lookup_alter.
    destruct (decide (Z.to_nat i = k)) as [<-|Hne].
    + rewrite Z2Nat.id by done. by rewrite Z.eqb_refl.
    + destruct (Z.eqb_spec (Z.of_nat k) i); [lia|done].
Qed.

Lemma content_at_index_do (f : Slide -> Slide) i l :
  (forall s, content (f s) = content s) ->
  content <$> at_index_do f i l = content <$> l.
Proof.
  intros Hf. apply list_eq. intros k.
  rewrite !list_lookup_fmap, lookup_at_index_do.
  destruct (Z.of_nat k =? i); [|done].
  destruct (l !! k); simpl; [by rewrite Hf|done].
Qed.

Lemma slides_goToSlide i w :
  rejected (this w) i = false ->
  slides (page (goToSlide i w))
  = at_index_do (classList_prev (i <? currentSlide (this w)))
      (currentSlide (this w))
      (at_index_do (classList_active false) (currentSlide (this w))
         (slides (page w)))
  /\ nextNode (page (goToSlide i w)) = nextNode (page w).
Proof. intros R. unfold goToSlide. rewrite R. by destruct w as [c p n l]. Qed.

Lemma fire_ActivateSlide due p rest w :
  fire due (ActivateSlide p) rest w
  = setTimeout EndTransition 600
      (updateUI (activated p
         (with_timers rest (with_now (Z.max (now w) due) w)))).
Proof. reflexivity. Qed.

Lemma activated_facts p w :
  this (activated p w) = this w
  /\ now (activated p w) = now w
  /\ timers (activated p w) = timers w
  /\ slides (page (activated p w))
     = at_index_do (classList_prev false) p
         (at_index_do (fun s => classList_prev false (classList_active true s))
            (currentSlide (this w)) (slides (page w)))
  /\ display (page (activated p w)) = display (page w)
  /\ body (page (activated p w)) = body (page w)
  /\ nextNode (page (activated p w)) = nextNode (page w).
Proof. by destruct w as [c pg n l]. Qed.

Lemma page_setTimeout task ms w :
  page (setTimeout task ms w) = page w /\ this (setTimeout task ms w) = this w.
Proof. done. Qed.

(** ** The slides keep their content *)

Lemma sameContent_step doc u u' :
  sameContent doc u -> step u u' -> sameContent doc u'.
Proof.
  unfold sameContent. intros Hu Hs.
  destruct Hs as [w i R|w|w x y t|w due task rest Hq|w t Hn Hd]; try done.
  - destruct (slides_goToSlide i w R) as [-> _].
    by rewrite !content_at_index_do.
  - by rewrite slides_updateUI.
  - destruct task as [p| |n]; try done.
    rewrite fire_ActivateSlide.
    destruct (page_setTimeout EndTransition 600
                (updateUI (activated p
                   (with_timers rest (with_now (Z.max (now w) due) w)))))
      as [-> _].
    rewrite slides_updateUI.
    destruct (activated_facts p
                (with_timers rest (with_now (Z.max (now w) due) w)))
      as (_ & _ & _ & -> & _).
    by rewrite !content_at_index_do.
Qed.

(** ** The marks on the slides *)

Lemma fading_idle w : pending (timers w) = [] -> fading w = None.
Proof. unfold fading. by intros ->. Qed.

Lemma marks_step u u' : Coherent u -> marks u -> step u u' -> marks u'.
Proof.
  intros Hu Hm Hs.
  destruct Hs as [w i R|w|w x y t|w due task rest Hq|w t Hn Hd]; try done.
  - (* the outgoing slide loses its mark *)
    destruct (goToSlide_accepted i w R) as (Ht & _ & Htm & _).
    destruct (slides_goToSlide i w R) as [Hsl _].
    pose proof (proj1 (accepted_iff _ _) R) as (Hf & _).
    pose proof (idle_pending w Hu Hf) as Hp.
    unfold marks in *. rewrite (fading_idle w Hp) in Hm.
    unfold fading. rewrite Htm, pending_schedule_first by done.
    intros k s. rewrite Hsl, !lookup_at_index_do.
    destruct (Z.eqb_spec (Z.of_nat k) (currentSlide (this w))) as [E|E].
    + destruct (slides (page w) !! k) as [s0|]; [|done].
      intros [= <-]. simpl. split; [done|]. by intros _.
    + intros Hk. destruct (Hm k s Hk) as [Ha Hpv].
      rewrite Ha. split; [by apply Z.eqb_neq | by rewrite Hpv].
  - (* the presenter leaves the marks alone *)
    unfold marks, fading in *.
    rewrite timers_updateUI, this_updateUI, slides_updateUI.
    by rewrite pending_schedule_other.
  - (* a callback *)
    pose proof (coh_phase w Hu) as Hph. unfold phase_ok in Hph.
    unfold marks, fading in Hm. rewrite Hq in Hph, Hm.
    unfold pending in Hph, Hm. simpl in Hph, Hm.
    destruct task as [p| |n]; simpl in Hph, Hm;
      fold (pending rest) in Hph, Hm.
    + assert (Hrest : pending rest = []).
      { destruct Hph as [(?&?&?)|[(d&q&E&?)|(d&E&?&?)]];
          [done|congruence|done]. }
      rewrite Hrest in Hm.
      rewrite fire_ActivateSlide.
      set (w0 := with_timers rest (with_now (Z.max (now w) due) w)).
      unfold marks, fading, setTimeout. cbn [this page timers with_timers].
      rewrite pending_schedule_first; [|done|].
      2: { rewrite timers_updateUI, pending_schedule_other by done.
           by destruct (activated_facts p w0) as (_ & _ & -> & _). }
      rewrite this_updateUI, slides_updateUI.
      destruct (activated_facts p w0) as (-> & _ & _ & -> & _).
      intros k s. rewrite !lookup_at_index_do. simpl.
      destruct (slides (page w) !! k) as [s0|] eqn:Hk;
        [|by repeat case_match].
      destruct (Hm k s0 Hk) as [Ha Hpv].
      destruct (Z.eqb_spec (Z.of_nat k) (currentSlide (this w))) as [E|E];
        destruct (Z.eqb_spec (Z.of_nat k) p) as [E'|E'];
        simpl; intros [= <-]; simpl; split; try done.
      destruct (prev s0); [by destruct E'; apply Hpv|done].
    + assert (Hrest : pending rest = []).
      { destruct Hph as [(?&?&?)|[(d&q&E&?)|(d&E&?&?)]];
          [done|done|congruence]. }
      unfold marks, fading, fire. simpl. by rewrite Hrest.
    + exact Hm.
Qed.

Lemma marks_init doc t0 :
  wellMarked (slides doc) -> marks (PresentationController doc t0).
Proof.
  intros H. unfold PresentationController, init, setupElements.
  by destruct doc as [sl [?|] [?|] [?|] [?|] ti bo nn].
Qed.

(** ** Buttons and title *)

Lemma updateUI_unfold w :
  updateUI w
  = announceSlideChange
      (updateDocumentTitle
         (updateNavigationButtons
            (updateProgressBar (updateSlideCounter w)))).
Proof. reflexivity. Qed.

(** What each presenter method leaves alone. *)
Lemma updateSlideCounter_frame w :
  let w' := updateSlideCounter w in
  this w' = this w /\ slides (page w') = slides (page w)
  /\ prevBtn (page w') = prevBtn (page w)
  /\ nextBtn (page w') = nextBtn (page w)
  /\ title (page w') = title (page w)
  /\ body (page w') = body (page w)
  /\ nextNode (page w') = nextNode (page w).
Proof. unfold updateSlideCounter. by destruct (slideCounter (page w)). Qed.

Lemma updateProgressBar_frame w :
  let w' := updateProgressBar w in
  this w' = this w /\ slides (page w') = slides (page w)
  /\ prevBtn (page w') = prevBtn (page w)
  /\ nextBtn (page w') = nextBtn (page w)
  /\ title (page w') = title (page w)
  /\ body (page w') = body (page w)
  /\ nextNode (page w') = nextNode (page w).
Proof. unfold updateProgressBar. by destruct (progressBar (page w)). Qed.

Lemma updateNavigationButtons_facts w :
  let w' := updateNavigationButtons w in
  this w' = this w /\ slides (page w') = slides (page w)
  /\ prevBtn (page w')
     = (fun _ => buttonState (currentSlide (this w) =? 0)) <$> prevBtn (page w)
  /\ nextBtn (page w')
     = (fun _ => buttonState (currentSlide (this w) =? totalSlides (this w) - 1))
         <$> nextBtn (page w)
  /\ title (page w') = title (page w)
  /\ body (page w') = body (page w)
  /\ nextNode (page w') = nextNode (page w).
Proof.
  unfold updateNavigationButtons. cbv zeta.
  by destruct (prevBtn (page w)), (nextBtn (page w)).
Qed.

Lemma updateDocumentTitle_facts w :
  let w' := updateDocumentTitle w in
  this w' = this w /\ slides (page w') = slides (page w)
  /\ prevBtn (page w') = prevBtn (page w)
  /\ nextBtn (page w') = nextBtn (page w)
  /\ title (page w') = documentTitle w
  /\ body (page w') = body (page w)
  /\ nextNode (page w') = nextNode (page w).
Proof. repeat split. Qed.

Lemma announceSlideChange_facts w :
  let w' := announceSlideChange w in
  this w' = this w /\ slides (page w') = slides (page w)
  /\ prevBtn (page w') = prevBtn (page w)
  /\ nextBtn (page w') = nextBtn (page w)
  /\ title (page w') = title (page w)
  /\ body (page w') = body (page w) ++ [(nextNode (page w), announcementText w)]
  /\ nextNode (page w') = S (nextNode (page w)).
Proof. repeat split. Qed.

(** The presenter as a whole. *)
Lemma updateUI_facts w :
  let w' := updateUI w in
  prevBtn (page w')
  = (fun _ => buttonState (currentSlide (this w) =? 0)) <$> prevBtn (page w)
  /\ nextBtn (page w')
     = (fun _ => buttonState (currentSlide (this w) =? totalSlides (this w) - 1))
         <$> nextBtn (page w)
  /\ title (page w') = documentTitle w
  /\ (body (page w')).*1 = (body (page w)).*1 ++ [nextNode (page w)]
  /\ nextNode (page w') = S (nextNode (page w)).
Proof.
  cbv zeta. rewrite updateUI_unfold.
  set (w1 := updateSlideCounter w).
  set (w2 := updateProgressBar w1).
  set (w3 := updateNavigationButtons w2).
  set (w4 := updateDocumentTitle w3).
  destruct (updateSlideCounter_frame w) as (T1 & S1 & P1 & N1 & _ & B1 & K1).
  destruct (updateProgressBar_frame w1) as (T2 & S2 & P2 & N2 & _ & B2 & K2).
  destruct (updateNavigationButtons_facts w2)
    as (T3 & S3 & P3 & N3 & _ & B3 & K3).
  destruct (updateDocumentTitle_facts w3) as (T4 & S4 & P4 & N4 & I4 & B4 & K4).
  destruct (announceSlideChange_facts w4) as (_ & _ & P5 & N5 & I5 & B5 & K5).
  fold w1 in T1, S1, P1, N1, B1, K1.
  fold w2 in T2, S2, P2, N2, B2, K2.
  fold w3 in T3, S3, P3, N3, B3, K3.
  fold w4 in T4, S4, P4, N4, I4, B4, K4.
  rewrite P5, N5, I5, B5, K5, P4, N4, I4, B4, K4, P3, N3, B3, K3, T2, T1,
    P2, N2, B2, K2, P1, N1, B1, K1, fmap_app.
  repeat split.
  unfold documentTitle, currentSlideElement.
  by rewrite T3, S3, T2, S2, T1, S1.
Qed.

Lemma documentTitle_frame u v :
  slides (page v) = slides (page u) ->
  currentSlide (this v) = currentSlide (this u) ->
  totalSlides (this v) = totalSlides (this u) ->
  documentTitle v = documentTitle u.
Proof.
  unfold documentTitle, currentSlideElement, getSlideTitle, fallbackTitle.
  by intros -> -> ->.
Qed.

Lemma presented_frame t0 u v :
  slides (page v) = slides (page u) ->
  currentSlide (this v) = currentSlide (this u) ->
  totalSlides (this v) = totalSlides (this u) ->
  prevBtn (page v) = prevBtn (page u) ->
  nextBtn (page v) = nextBtn (page u) ->
  title (page v) = title (page u) ->
  presented t0 u -> presented t0 v.
Proof.
  intros Hs Hc Hn Hp Hx Ht. unfold presented.
  by rewrite (documentTitle_frame u v Hs Hc Hn), Hc, Hn, Hp, Hx, Ht.
Qed.

Lemma presented_updateUI t0 w : presented t0 (updateUI w).
Proof.
  destruct (updateUI_facts w) as (Hp & Hx & Ht & _).
  unfold presented.
  rewrite Hp, Hx, Ht, this_updateUI.
  rewrite (documentTitle_frame w (updateUI w)
             (slides_updateUI w) (f_equal currentSlide (this_updateUI w))
             (f_equal totalSlides (this_updateUI w))).
  split; [by destruct (prevBtn (page w))|].
  split; [by destruct (nextBtn (page w))|]. by right.
Qed.

Lemma fading_goToSlide i w :
  Coherent w -> rejected (this w) i = false ->
  fading (goToSlide i w) = Some (currentSlide (this w)).
Proof.
  intros Hw R.
  destruct (goToSlide_accepted i w R) as (_ & _ & Htm & _).
  pose proof (proj1 (accepted_iff _ _) R) as (Hf & _).
  unfold fading. rewrite Htm, pending_schedule_first; [done..|].
  by apply idle_pending.
Qed.

Lemma shown_step t0 u u' : Coherent u -> shown t0 u -> step u u' -> shown t0 u'.
Proof.
  intros Hu Hsh Hs.
  destruct Hs as [w i R|w|w x y t|w due task rest Hq|w t Hn Hd].
  - intros Hf. by rewrite fading_goToSlide in Hf.
  - intros _. apply presented_updateUI.
  - intros Hf. by apply (presented_frame t0 w), Hsh.
  - destruct task as [p| |n].
    + intros _. rewrite fire_ActivateSlide.
      set (w1 := updateUI _).
      destruct (page_setTimeout EndTransition 600 w1) as [Hpg Hth].
      apply (presented_frame t0 w1);
        [by rewrite Hpg | by rewrite Hth | by rewrite Hth | by rewrite Hpg
        | by rewrite Hpg | by rewrite Hpg | apply presented_updateUI].
    + intros _. apply (presented_frame t0 w); try reflexivity.
      apply Hsh. unfold fading. by rewrite Hq.
    + intros Hf. apply (presented_frame t0 w); try reflexivity.
      apply Hsh. unfold fading in *. by rewrite Hq.
  - intros Hf. by apply (presented_frame t0 w), Hsh.
Qed.

Lemma shown_init doc t0 : shown (title doc) (PresentationController doc t0).
Proof.
  intros _. unfold PresentationController, init. cbv zeta.
  set (w0 := {| this := _; page := doc; now := t0; timers := [] |}).
  destruct (updateProgressBar_frame (updateSlideCounter (setupElements w0)))
    as (T2 & S2 & P2 & N2 & I2 & _).
  destruct (updateSlideCounter_frame (setupElements w0))
    as (T1 & S1 & P1 & N1 & I1 & _).
  unfold setupElements in *. cbv zeta in *.
  set (w1 := on_this _ w0) in *.
  destruct (updateNavigationButtons_facts w1) as (T0 & S0 & P0 & N0 & I0 & _).
  unfold presented.
  rewrite P2, N2, I2, T2, P1, N1, I1, T1, P0, N0, I0, T0.
  split; [by destruct (prevBtn (page w1))|].
  split; [by destruct (nextBtn (page w1))|]. by left.
Qed.

(** ** Callbacks are never late, announcements never leak *)

Lemma schedule_last due task l :
  Forall (fun x => x.1 <= due) l -> schedule due task l = l ++ [(due, task)].
Proof.
  induction 1 as [|[d t] l Hd _ IH]; simpl; [done|].
  simpl in Hd. destruct (Z.leb_spec d due); [|lia]. by rewrite IH.
Qed.

Lemma removals_cons x l :
  removals (x :: l)
  = match x.2 with
    | RemoveAnnouncement node => node :: removals l
    | _ => removals l
    end.
Proof. unfold removals. simpl. by destruct (x.2). Qed.

Lemma removals_schedule_other due task l :
  (forall n, task <> RemoveAnnouncement n) ->
  removals (schedule due task l) = removals l.
Proof.
  intros H.
  assert (E : forall l', removals ((due, task) :: l') = removals l').
  { intros l'. rewrite removals_cons. simpl.
    destruct task; try done. by destruct (H node). }
  induction l as [|[d t] l IH]; cbn [schedule]; [apply E|].
  destruct (d <=? due); [|apply E].
  by rewrite !removals_cons, IH.
Qed.

Lemma timely_weaken (n n' : Z) (l : list (Z * Task)) :
  n <= n' ->
  Forall (fun x => x.1 <= n + delay x.2) l ->
  Forall (fun x => x.1 <= n' + delay x.2) l.
Proof. intros Hn H. eapply Forall_impl; [exact H|]. simpl. intros; lia. Qed.

Lemma timely_updateUI w : timely w -> timely (updateUI w).
Proof.
  unfold timely. rewrite timers_updateUI, now_updateUI. intros H.
  apply Forall_schedule. split; [simpl; lia | done].
Qed.

Lemma body_updateUI w :
  (body (page (updateUI w))).*1 = (body (page w)).*1 ++ [nextNode (page w)]
  /\ nextNode (page (updateUI w)) = S (nextNode (page w)).
Proof. by destruct (updateUI_facts w) as (_ & _ & _ & ? & ?). Qed.

Lemma announced_updateUI w : timely w -> announced w -> announced (updateUI w).
Proof.
  unfold timely, announced. intros Ht (Hb & Hnd & Hlt).
  destruct (body_updateUI w) as [-> ->].
  rewrite timers_updateUI, schedule_last.
  2: { eapply Forall_impl; [exact Ht|]. intros [d t]; simpl.
       destruct t; simpl; lia. }
  unfold removals in *. rewrite omap_app. simpl.
  split; [by rewrite Hb|]. split.
  - apply NoDup_app. split; [done|]. split; [|apply NoDup_singleton].
    intros n Hn ->%list_elem_of_singleton.
    rewrite Forall_forall in Hlt. specialize (Hlt _ Hn). lia.
  - apply Forall_app. split; [|by repeat constructor].
    eapply Forall_impl; [exact Hlt|]. simpl. intros; lia.
Qed.

Lemma tidy_step u u' : Coherent u -> tidy u -> step u u' -> tidy u'.
Proof.
  intros Hu [Ht Ha] Hs.
  destruct Hs as [w i R|w|w x y t|w due task rest Hq|w t Hn Hd]; try done.
  - (* an accepted goToSlide registers the 50 ms callback *)
    destruct (goToSlide_accepted i w R)
      as (_ & Hnow & Htm & _ & _ & _ & _ & _ & _ & Hbody).
    destruct (slides_goToSlide i w R) as [_ Hnn].
    unfold tidy, timely, announced in *.
    rewrite Htm, Hnow, Hbody, Hnn, removals_schedule_other by done.
    split; [|done]. apply Forall_schedule. split; [simpl; lia | done].
  - split; [by apply timely_updateUI | by apply announced_updateUI].
  - (* a callback runs *)
    pose proof (coh_future w Hu) as Hfut. rewrite Hq in Hfut.
    apply Forall_cons in Hfut as [Hdue _]. simpl in Hdue.
    unfold timely in Ht. rewrite Hq in Ht.
    apply Forall_cons in Ht as [_ Ht].
    set (w0 := with_timers rest (with_now (Z.max (now w) due) w)).
    assert (Ht0 : timely w0).
    { unfold timely. simpl. eapply timely_weaken; [|exact Ht]. lia. }
    destruct Ha as (Hb & Hnd & Hlt). rewrite Hq in Hb.
    destruct task as [p| |n].
    + rewrite fire_ActivateSlide. fold w0.
      destruct (activated_facts p w0) as (Hth & Hn0 & Htm0 & _ & _ & Hb0 & Hnn0).
      assert (Ht1 : timely (activated p w0)).
      { unfold timely. by rewrite Htm0, Hn0. }
      assert (Ha1 : announced (activated p w0)).
      { unfold announced. by rewrite Hb0, Hnn0, Htm0. }
      pose proof (timely_updateUI _ Ht1) as Ht2.
      pose proof (announced_updateUI _ Ht1 Ha1) as Ha2.
      unfold tidy, timely, announced, setTimeout in *.
      cbn [this page now timers with_timers].
      rewrite removals_schedule_other by done.
      split; [|done]. apply Forall_schedule. split; [simpl; lia | done].
    + split; [exact Ht0|]. by split.
    + split; [exact Ht0|].
      unfold announced, fire. simpl. simpl in Hb.
      destruct (body (page w)) as [|[m msg] b] eqn:Eb; [done|].
      simpl in Hb, Hnd, Hlt. injection Hb as -> Hb.
      apply NoDup_cons in Hnd as [Hm Hnd].
      apply Forall_cons in Hlt as [_ Hlt].
      rewrite filter_cons_False by (simpl; tauto).
      assert (Hall : filter (fun a : nat * string => a.1 ≠ n) b = b).
      { clear -Hm. induction b as [|[m msg'] b IH]; [done|].
        rewrite filter_cons_True.
        - f_equal. apply IH. intros H. apply Hm. simpl. by right.
        - simpl. intros ->. apply Hm. simpl. by left. }
      rewrite Hall. by split.
  - split; [|done]. unfold timely in *. simpl.
    eapply timely_weaken; [|exact Ht]. done.
Qed.

Lemma tidy_init doc t0 :
  body doc = [] -> tidy (PresentationController doc t0).
Proof.
  intros Hb. unfold PresentationController, init, setupElements, tidy,
    timely, announced.
  destruct doc as [sl [?|] [?|] [?|] [?|] ti bo nn]; simpl in *; subst;
    repeat split; constructor.
Qed.


Lemma timely_step u u' : Coherent u -> timely u -> step u u' -> timely u'.
Proof.
  intros Hu Ht Hs.
  destruct Hs as [w i R|w|w x y t|w due task rest Hq|w t Hn Hd]; try done.
  - destruct (goToSlide_accepted i w R) as (_ & Hnow & Htm & _).
    unfold timely in *. rewrite Htm, Hnow.
    apply Forall_schedule. split; [simpl; lia | done].
  - by apply timely_updateUI.
  - unfold timely in Ht. rewrite Hq in Ht. apply Forall_cons in Ht as [_ Ht].
    set (w0 := with_timers rest (with_now (Z.max (now w) due) w)).
    assert (Ht0 : timely w0).
    { unfold timely. simpl. eapply timely_weaken; [|exact Ht]. lia. }
    destruct task as [p| |n]; [|exact Ht0..].
    rewrite fire_ActivateSlide. fold w0.
    destruct (activated_facts p w0) as (_ & Hn0 & Htm0 & _).
    assert (Ht1 : timely (activated p w0)).
    { unfold timely. by rewrite Htm0, Hn0. }
    pose proof (timely_updateUI _ Ht1) as Ht2.
    unfold timely, setTimeout in *. cbn [now timers with_timers].
    apply Forall_schedule. split; [simpl; lia | done].
  - unfold timely in *. simpl. eapply timely_weaken; [|exact Ht]. done.
Qed.

Lemma total_step u u' :
  step u u' -> totalSlides (this u') = totalSlides (this u).
Proof.
  intros Hs.
  destruct Hs as [w i R|w|w x y t|w due task rest Hq|w t Hn Hd]; try done.
  - by destruct (goToSlide_accepted i w R) as (-> & _).
  - by rewrite this_updateUI.
  - destruct task as [p| |n]; try done.
    unfold fire.
    by destruct (runTask_ActivateSlide_facts p
                   (with_timers rest (with_now (Z.max (now w) due) w)))
      as (-> & _).
Qed.

Lemma total_steps u v : steps u v -> totalSlides (this v) = totalSlides (this u).
Proof.
  induction 1 as [|w v u _ IH Hs]; [done|].
  by rewrite (total_step _ _ Hs).
Qed.

Lemma reachable_init doc t0 : reachable (PresentationController doc t0).
Proof. by exists doc, t0, []. Qed.

Lemma reachable_run evs w : reachable w -> reachable (run evs w).
Proof.
  intros (doc & t0 & evs0 & ->). exists doc, t0, (evs0 ++ evs).
  unfold run. by rewrite foldl_app.
Qed.

Lemma reachable_timely w : reachable w -> timely w.
Proof.
  intros (doc & t0 & evs & ->).
  apply (run_invariant timely); [apply timely_step|].
  unfold PresentationController, init, setupElements, timely.
  destruct doc as [sl [?|] [?|] [?|] [?|] ti bo nn]; constructor.
Qed.

(** ** Everything pending runs within its horizon *)

Lemma horizon_fire t0 due task rest w :
  Coherent w ->
  Forall (fun x => x.1 <= t0 + horizon x.2) (timers w) ->
  timers w = (due, task) :: rest ->
  Forall (fun x => x.1 <= t0 + horizon x.2) (timers (fire due task rest w)).
Proof.
  intros Hw Hh Hq.
  pose proof (coh_future w Hw) as Hfut. rewrite Hq in Hfut, Hh.
  apply Forall_cons in Hfut as [Hnow _].
  apply Forall_cons in Hh as [Hdue Hh]. simpl in Hnow, Hdue.
  destruct task as [p| |n]; [|exact Hh..].
  simpl in Hdue. unfold fire.
  destruct (runTask_ActivateSlide_facts p
              (with_timers rest (with_now (Z.max (now w) due) w)))
    as (_ & _ & -> & _).
  cbn [now timers with_timers with_now].
  apply Forall_schedule. split; [simpl; lia|].
  apply Forall_schedule. split; [simpl; lia|done].
Qed.

Lemma elapse_horizon ms w :
  Coherent w -> timely w ->
  Forall (fun x => now w + Z.of_N ms < x.1 /\ x.1 <= now w + horizon x.2)
         (timers (elapse ms w)).
Proof.
  intros Hw Ht.
  pose proof (runTimers_invariant
    (fun v => Coherent v
              /\ Forall (fun x => x.1 <= now w + horizon x.2) (timers v))
    (now w + Z.of_N ms)) as Hinv.
  destruct (Hinv
    (fun v due task rest Hv Hq _ =>
       conj (Coherent_fire due task rest v (proj1 Hv) Hq)
            (horizon_fire (now w) due task rest v (proj1 Hv) (proj2 Hv) Hq))
    (queueWeight (timers w)) w) as [_ Hh].
  { split; [done|]. eapply Forall_impl; [exact Ht|].
    intros [d t]; simpl. destruct t; simpl; lia. }
  pose proof (runTimers_drained (now w + Z.of_N ms) _ w Hw (le_n _)) as Hd.
  unfold elapse. cbn [timers with_now].
  apply Forall_and. by split.
Qed.

Lemma nav_elapse ms w :
  currentSlide (this (elapse ms w)) = currentSlide (this w)
  /\ totalSlides (this (elapse ms w)) = totalSlides (this w).
Proof.
  unfold elapse. cbn [this with_now].
  apply (runTimers_invariant
    (fun v => currentSlide (this v) = currentSlide (this w)
              /\ totalSlides (this v) = totalSlides (this w))); [|done].
  intros v due task rest [Hc Hn] _ _. unfold fire.
  destruct task as [p| |n]; try done.
  by destruct (runTask_ActivateSlide_facts p
                 (with_timers rest (with_now (Z.max (now v) due) v)))
    as (-> & _).
Qed.

(** After 650 ms without events no transition callback is left. *)
Lemma released ms w :
  Coherent w -> timely w -> (650 <= ms)%N ->
  pending (timers (elapse ms w)) = []
  /\ isTransitioning (this (elapse ms w)) = false.
Proof.
  intros Hw Ht Hms.
  pose proof (elapse_horizon ms w Hw Ht) as Hh.
  assert (Hp : pending (timers (elapse ms w)) = []).
  { destruct (pending (timers (elapse ms w))) as [|[d t] l] eqn:E; [done|].
    assert (Hin : In (d, t) (pending (timers (elapse ms w))))
      by (rewrite E; by left).
    pose proof Hin as Hin'. apply pending_In in Hin'.
    unfold pending in Hin. apply filter_In in Hin as [_ Htr].
    rewrite Forall_forall in Hh.
    destruct (Hh (d, t)) as [H1 H2]; [by apply list_elem_of_In|].
    simpl in H1, H2. destruct t; simpl in *; try done; lia. }
  split; [done|].
  destruct (coh_phase _ (Coherent_elapse ms w Hw))
    as [(_&?&_)|[(?&?&E&_)|(?&E&_)]]; [done|congruence..].
Qed.

Lemma titled_step u u' :
  Coherent u ->
  (fading u = None -> title (page u) = documentTitle u) ->
  step u u' ->
  fading u' = None -> title (page u') = documentTitle u'.
Proof.
  intros Hu Hti Hs.
  destruct Hs as [w i R|w|w x y t|w due task rest Hq|w t Hn Hd].
  - intros Hf. by rewrite fading_goToSlide in Hf.
  - intros _. destruct (updateUI_facts w) as (_ & _ & -> & _).
    symmetry. apply documentTitle_frame;
      [apply slides_updateUI | by rewrite this_updateUI..].
  - intros Hf. rewrite (documentTitle_frame w); [by apply Hti | done..].
  - destruct task as [p| |n].
    + intros _. rewrite fire_ActivateSlide.
      set (w1 := activated p _).
      destruct (page_setTimeout EndTransition 600 (updateUI w1)) as [Hpg Hth].
      rewrite Hpg.
      destruct (updateUI_facts w1) as (_ & _ & -> & _).
      symmetry. apply documentTitle_frame.
      * rewrite Hpg. apply slides_updateUI.
      * by rewrite Hth, this_updateUI.
      * by rewrite Hth, this_updateUI.
    + intros _. rewrite (documentTitle_frame w); [|done..].
      apply Hti. unfold fading. by rewrite Hq.
    + intros Hf. rewrite (documentTitle_frame w); [|done..].
      apply Hti. unfold fading in *. by rewrite Hq.
  - intros Hf. rewrite (documentTitle_frame w); [by apply Hti | done..].
Qed.

(** * Further properties: the theorems *)

(** ** Navigation *)

(** X1: [nextSlide] and [previousSlide] are [goToSlide] of the neighbouring
    index, in every world; in a reachable world they change nothing exactly
    when a transition is under way or the index is at that end of the
    deck. *)
Theorem neighbours_via_goToSlide w :
  nextSlide w = goToSlide (currentSlide (this w) + 1) w
  /\ previousSlide w = goToSlide (currentSlide (this w) - 1) w
  /\ (reachable w ->
      (nextSlide w = w <->
       isTransitioning (this w) = true
       \/ totalSlides (this w) - 1 <= currentSlide (this w))
      /\ (previousSlide w = w <->
          isTransitioning (this w) = true \/ currentSlide (this w) <= 0)).
Proof.
  split; [apply nextSlide_goToSlide|].
  split; [apply previousSlide_goToSlide|].
  intros Hr. apply reachable_Coherent in Hr.
  destruct (coh_range w Hr) as [H0 _].
  assert (Hmove : forall i, rejected (this w) i = false -> goToSlide i w <> w).
  { intros i R E.
    destruct (goToSlide_accepted i w R) as (Ht & _).
    rewrite E in Ht. apply (f_equal isTransitioning) in Ht. simpl in Ht.
    apply accepted_iff in R as (Hf & _). congruence. }
  split; split.
  - intros E. rewrite nextSlide_goToSlide in E.
    destruct (rejected (this w) (currentSlide (this w) + 1)) eqn:R;
      [|by destruct (Hmove _ R)].
    apply rejected_iff in R as [?|?]; [by left | right; lia].
  - intros H. unfold nextSlide.
    destruct H as [-> | H]; [done|].
    apply Z.leb_le in H. rewrite H. by rewrite orb_true_r.
  - intros E. rewrite previousSlide_goToSlide in E.
    destruct (rejected (this w) (currentSlide (this w) - 1)) eqn:R;
      [|by destruct (Hmove _ R)].
    apply rejected_iff in R as [?|?]; [by left | right].
    destruct (coh_range w Hr) as [_ [?|[? ?]]]; lia.
  - intros H. unfold previousSlide.
    destruct H as [-> | H]; [done|].
    apply Z.leb_le in H. rewrite H. by rewrite orb_true_r.
Qed.

Lemma neighbours_via_goToSlide_witness :
  (nextSlide fiveSlides = fiveSlides <->
   isTransitioning (this fiveSlides) = true
   \/ totalSlides (this fiveSlides) - 1 <= currentSlide (this fiveSlides))
  /\ (previousSlide fiveSlides = fiveSlides <->
      isTransitioning (this fiveSlides) = true
      \/ currentSlide (this fiveSlides) <= 0).
Proof.
  apply (proj2 (proj2 (neighbours_via_goToSlide fiveSlides))).
  exists (deck (replicate 5 blankSlide)), 0, []. reflexivity.
Defined.

(** X2: the lock cannot stay taken: in every reachable world, 650 ms
    without events leave the navigator idle, at the same index. *)
Theorem lock_released_within_650ms w ms :
  reachable w -> (650 <= ms)%N ->
  nav (elapse ms w) = (currentSlide (this w), totalSlides (this w), false).
Proof.
  intros Hr Hms.
  destruct (released ms w (reachable_Coherent w Hr) (reachable_timely w Hr) Hms)
    as [_ Hf].
  destruct (nav_elapse ms w) as [Hc Hn].
  unfold nav. by rewrite Hc, Hn, Hf.
Qed.

Lemma lock_released_within_650ms_witness :
  nav (elapse 650 (run [pressed "End"; Elapse 30; Resize] fiveSlides))
  = (4, 5, false).
Proof.
  apply (lock_released_within_650ms
           (run [pressed "End"; Elapse 30; Resize] fiveSlides) 650).
  - exists (deck (replicate 5 blankSlide)), 0,
      [pressed "End"; Elapse 30; Resize]. reflexivity.
  - discriminate.
Defined.

(** X3: whatever arrives during the 650 ms of an accepted transition
    (keys, clicks, touches, calls, resizes) is dropped, not queued: once
    650 ms more have passed the navigator is idle at the target of that
    transition. *)
Theorem inputs_during_transition_dropped w i evs ms :
  reachable w -> rejected (this w) i = false ->
  (duration evs < 650)%N -> (650 <= ms)%N ->
  nav (elapse ms (run evs (goToSlide i w))) = (i, totalSlides (this w), false).
Proof.
  intros Hr R Hd Hms.
  pose proof (reachable_Coherent w Hr) as Hw.
  destruct (goToSlide_accepted i w R) as (_ & Hn & _).
  destruct (locked_run (now w + 50) i evs (goToSlide i w)
              (locked_goToSlide i w Hw R)) as (Hu & Hc & _);
    [rewrite Hn; lia|].
  assert (Hru : reachable (run evs (goToSlide i w))).
  { apply reachable_run. apply (reachable_run [CallGoTo i] w Hr). }
  destruct (released ms _ Hu (reachable_timely _ Hru) Hms) as [_ Hf].
  destruct (nav_elapse ms (run evs (goToSlide i w))) as [Hc' Hn'].
  unfold nav. rewrite Hc', Hn', Hf, Hc.
  rewrite (total_steps (goToSlide i w));
    [|by apply run_steps, Coherent_goToSlide].
  by rewrite (total_steps w); [|apply goToSlide_steps].
Qed.

Lemma inputs_during_transition_dropped_witness :
  nav (elapse 650
         (run [pressed "Home"; Elapse 100; CallGoTo 2; ClickNext; Elapse 500;
               pressed "3"]
              (goToSlide 4 fiveSlides)))
  = (4, totalSlides (this fiveSlides), false).
Proof.
  apply (inputs_during_transition_dropped fiveSlides 4).
  - exists (deck (replicate 5 blankSlide)), 0, []. reflexivity.
  - reflexivity.
  - reflexivity.
  - discriminate.
Defined.

(** ** The page *)

(** X4: on a page loaded with its first slide active and no slide marked
    as previous, at most the current slide is ever active; and whenever no
    transition is under way, exactly the current slide is active and no
    slide is marked as previous. *)
Theorem one_active_slide doc t0 evs :
  wellMarked (slides doc) ->
  let w := run evs (PresentationController doc t0) in
  forall (k : nat) s, slides (page w) !! k = Some s ->
    (active s = true -> Z.of_nat k = currentSlide (this w))
    /\ (isTransitioning (this w) = false ->
        active s = (Z.of_nat k =? currentSlide (this w)) /\ prev s = false).
Proof.
  intros Hdoc w k s Hk.
  assert (Hw : Coherent w) by apply Coherent_run, Coherent_init.
  assert (Hm : marks w).
  { apply (run_invariant marks); [apply marks_step | by apply marks_init]. }
  unfold marks in Hm. destruct (fading w) as [p|] eqn:Hf.
  - destruct (Hm k s Hk) as [Ha _]. split; [congruence|].
    intros Hidle. apply (idle_pending w Hw) in Hidle.
    by rewrite (fading_idle w Hidle) in Hf.
  - destruct (Hm k s Hk) as [Ha Hp]. split; [|done].
    rewrite Ha. by intros ?%Z.eqb_eq.
Qed.

Lemma one_active_slide_witness :
  let w := run [CallGoTo 3; Elapse 650; CallPrevious; Elapse 20]
               (PresentationController
                  (deck [classList_active true blankSlide; blankSlide;
                         blankSlide; blankSlide]) 0) in
  exists s, slides (page w) !! 3%nat = Some s
    /\ (active s = true -> 3 = currentSlide (this w))
    /\ (isTransitioning (this w) = false ->
        active s = (3 =? currentSlide (this w)) /\ prev s = false).
Proof.
  eexists. split; [reflexivity|].
  apply (one_active_slide
           (deck [classList_active true blankSlide; blankSlide;
                  blankSlide; blankSlide]) 0
           [CallGoTo 3; Elapse 650; CallPrevious; Elapse 20]
           ltac:(intros [|[|[|[|k]]]] s; simpl; intros [= <-]; done)
           3%nat).
  reflexivity.
Defined.

(** X5: whenever no transition is under way, the "previous" button is
    disabled exactly at index 0 and the "next" button exactly at the last
    index (so on a page without slides "next" is enabled); a disabled
    button has opacity 0.5, an enabled one opacity 1. *)
Theorem buttons_follow_index w :
  reachable w -> isTransitioning (this w) = false ->
  (forall b, prevBtn (page w) = Some b ->
     (disabled b = true <-> currentSlide (this w) = 0)
     /\ opacity b = if disabled b then "0.5" else "1")
  /\ (forall b, nextBtn (page w) = Some b ->
        (disabled b = true <-> currentSlide (this w) = totalSlides (this w) - 1)
        /\ opacity b = if disabled b then "0.5" else "1").
Proof.
  intros (doc & t0 & evs & ->) Hidle.
  set (w := run evs (PresentationController doc t0)) in *.
  assert (Hw : Coherent w) by apply Coherent_run, Coherent_init.
  assert (Hs : shown (title doc) w).
  { apply (run_invariant (shown (title doc)));
      [apply shown_step | apply shown_init]. }
  destruct (Hs (fading_idle w (idle_pending w Hw Hidle))) as (Hp & Hn & _).
  split; intros b Hb.
  - rewrite Hb in Hp. injection Hp as ->. simpl.
    split; [apply Z.eqb_eq | done].
  - rewrite Hb in Hn. injection Hn as ->. simpl.
    split; [apply Z.eqb_eq | done].
Qed.

Lemma buttons_follow_index_witness :
  (forall b, prevBtn (page emptyDeck) = Some b ->
     (disabled b = true <-> currentSlide (this emptyDeck) = 0)
     /\ opacity b = if disabled b then "0.5" else "1")
  /\ (forall b, nextBtn (page emptyDeck) = Some b ->
        (disabled b = true <->
         currentSlide (this emptyDeck) = totalSlides (this emptyDeck) - 1)
        /\ opacity b = if disabled b then "0.5" else "1").
Proof.
  apply (buttons_follow_index emptyDeck).
  - exists (deck []), 0, []. reflexivity.
  - reflexivity.
Defined.

(** X6: constructing the controller leaves the document title as the page
    had it; once a [goToSlide] has been accepted, whenever no transition is
    under way the title is the current slide's title followed by
    [" - AI Language Models & GitHub Copilot (n/total)"]. *)
Theorem title_follows_transitions doc t0 :
  title (page (PresentationController doc t0)) = title doc
  /\ (forall w i evs,
        reachable w -> rejected (this w) i = false ->
        let u := run evs (goToSlide i w) in
        isTransitioning (this u) = false ->
        title (page u) = documentTitle u).
Proof.
  split.
  - unfold PresentationController, init. cbv zeta.
    set (w0 := {| this := _; page := doc; now := t0; timers := [] |}).
    destruct (updateProgressBar_frame (updateSlideCounter (setupElements w0)))
      as (_ & _ & _ & _ & -> & _).
    destruct (updateSlideCounter_frame (setupElements w0))
      as (_ & _ & _ & _ & -> & _).
    unfold setupElements. cbv zeta.
    by destruct (updateNavigationButtons_facts
                   (on_this (with_totalSlides
                      (Z.of_nat (length (slides (page w0))))) w0))
      as (_ & _ & _ & _ & -> & _).
  - intros w i evs Hr R u Hidle.
    pose proof (reachable_Coherent w Hr) as Hw.
    pose proof (Coherent_goToSlide i w Hw) as Hv.
    assert (Hu : Coherent u) by by apply Coherent_run.
    refine (steps_invariant
              (fun v => fading v = None -> title (page v) = documentTitle v)
              (goToSlide i w) u titled_step Hv _ (run_steps evs _ Hv) _).
    + intros Hf. by rewrite fading_goToSlide in Hf.
    + apply fading_idle. by apply idle_pending.
Qed.

Lemma title_follows_transitions_witness :
  title (page (run [Elapse 700] (goToSlide 3 mixedDeckStart)))
  = "Summary - AI Language Models & GitHub Copilot (4/4)".
Proof.
  set (H := proj2 (title_follows_transitions (deck []) 0)
              mixedDeckStart 3 [Elapse 700]).
  rewrite H.
  - reflexivity.
  - exists (deck [titled "Intro"; blankSlide; blankSlide; titled "Summary"]),
      0, []. reflexivity.
  - reflexivity.
  - reflexivity.
Defined.

(** X7: the callbacks of [goToSlide] and of [announceToScreenReader] drain
    and the announcements do not leak: on a page loaded without live-region
    nodes, 1050 ms without events leave, after any history, none of these
    callbacks pending, no announcement in the body and the navigator idle.
    (The [hideNavigation] callback of the auto-hide timer is not on this
    queue: it is kept in [AutoHide], where it is pending whenever the
    controls are visible.) *)
Theorem quiescence doc t0 evs ms :
  body doc = [] -> (1050 <= ms)%N ->
  let w := elapse ms (run evs (PresentationController doc t0)) in
  timers w = [] /\ body (page w) = [] /\ isTransitioning (this w) = false.
Proof.
  intros Hb Hms. cbv zeta.
  set (u := run evs (PresentationController doc t0)).
  assert (Hu : Coherent u) by apply Coherent_run, Coherent_init.
  assert (Hru : reachable u) by by exists doc, t0, evs.
  pose proof (elapse_horizon ms u Hu (reachable_timely u Hru)) as Hh.
  assert (Ht : timers (elapse ms u) = []).
  { destruct (timers (elapse ms u)) as [|[d t] l]; [done|].
    apply Forall_cons in Hh as [[H1 H2] _]. simpl in H1, H2.
    destruct t; simpl in H2; lia. }
  assert (Ha : tidy (elapse ms u)).
  { replace (elapse ms u)
      with (run (evs ++ [Elapse ms]) (PresentationController doc t0))
      by (unfold run, u; by rewrite foldl_app).
    apply (run_invariant tidy); [apply tidy_step | by apply tidy_init]. }
  destruct Ha as [_ (Hbody & _)]. rewrite Ht in Hbody. simpl in Hbody.
  split; [done|]. split; [by apply fmap_nil_inv in Hbody|].
  destruct (coh_phase _ (Coherent_elapse ms u Hu))
    as [(_&?&_)|[(?&?&E&_)|(?&E&_)]]; [done|rewrite Ht in E; done..].
Qed.

Lemma quiescence_witness :
  let w := elapse 1050
             (run [CallGoTo 3; Resize; Elapse 300; Resize]
                  (PresentationController (deck (replicate 5 blankSlide)) 0)) in
  timers w = [] /\ body (page w) = [] /\ isTransitioning (this w) = false.
Proof.
  apply (quiescence (deck (replicate 5 blankSlide)) 0
           [CallGoTo 3; Resize; Elapse 300; Resize] 1050).
  - reflexivity.
  - discriminate.
Defined.

(** X8: navigation never changes what the slides carry nor how many there
    are: in every reachable world the headings and the text of the slides
    are those of the loaded page, and [totalSlides] is their number. *)
Theorem slides_keep_content doc t0 evs :
  let w := run evs (PresentationController doc t0) in
  content <$> slides (page w) = content <$> slides doc
  /\ totalSlides (this w) = Z.of_nat (length (slides doc)).
Proof.
  cbv zeta.
  set (w := run evs (PresentationController doc t0)).
  assert (Hc : sameContent doc w).
  { apply (run_invariant (sameContent doc)).
    - intros u u' _. apply sameContent_step.
    - unfold PresentationController, init, setupElements, sameContent.
      by destruct doc as [sl [?|] [?|] [?|] [?|] ti bo nn]. }
  split; [exact Hc|].
  rewrite (coh_total w (Coherent_run evs _ (Coherent_init doc t0))).
  f_equal. apply (f_equal length) in Hc. by rewrite !length_fmap in Hc.
Qed.

(** ** The lifetime of an announcement *)

Lemma now_goToSlide i w : now (goToSlide i w) = now w.
Proof.
  destruct (rejected (this w) i) eqn:R.
  - by rewrite goToSlide_rejected.
  - by destruct (goToSlide_accepted i w R) as (_ & -> & _).
Qed.

Lemma now_dispatch ev w : now (dispatch ev w) = now w + Z.of_N (elapsed ev).
Proof.
  assert (Hn : forall v, now (nextSlide v) = now v).
  { intros v. rewrite nextSlide_goToSlide. apply now_goToSlide. }
  assert (Hp : forall v, now (previousSlide v) = now v).
  { intros v. rewrite previousSlide_goToSlide. apply now_goToSlide. }
  destruct ev as [e|x y|x y| | | | | |i| |n|ms];
    cbn [dispatch elapsed]; rewrite ?Z.add_0_r;
    try first [apply Hn | apply Hp | apply now_goToSlide | apply now_elapse].
  - transitivity (now (handleKeyPress e w)).
    + unfold handleNumberKey. repeat case_match; try done; apply now_goToSlide.
    + unfold handleKeyPress, resetPresentation.
      repeat case_match; try done; first [apply Hn | apply Hp | apply now_goToSlide].
  - done.
  - unfold handleTouchEnd. repeat case_match; try done; simplify_eq;
      cbn [snd]; unfold resetTouch; cbn [now on_this];
      first [apply Hn | apply Hp | done].
  - case_match; [apply Hp | done].
  - case_match; [apply Hn | done].
  - apply now_updateUI.
Qed.

Lemma now_run evs w : now (run evs w) = now w + Z.of_N (duration evs).
Proof.
  revert w. induction evs as [|ev evs IH]; intros w; simpl; [lia|].
  rewrite IH, now_dispatch. unfold duration. simpl. lia.
Qed.

Lemma body_updateUI_full w :
  body (page (updateUI w))
  = body (page w) ++ [(nextNode (page w), announcementText w)].
Proof.
  rewrite updateUI_unfold.
  set (w1 := updateSlideCounter w).
  set (w2 := updateProgressBar w1).
  set (w3 := updateNavigationButtons w2).
  set (w4 := updateDocumentTitle w3).
  destruct (updateSlideCounter_frame w) as (T1 & S1 & _ & _ & _ & B1 & K1).
  destruct (updateProgressBar_frame w1) as (T2 & S2 & _ & _ & _ & B2 & K2).
  destruct (updateNavigationButtons_facts w2) as (T3 & S3 & _ & _ & _ & B3 & K3).
  destruct (updateDocumentTitle_facts w3) as (T4 & S4 & _ & _ & _ & B4 & K4).
  destruct (announceSlideChange_facts w4) as (_ & _ & _ & _ & _ & B5 & _).
  fold w1 in T1, S1, B1, K1. fold w2 in T2, S2, B2, K2.
  fold w3 in T3, S3, B3, K3. fold w4 in T4, S4, B4, K4.
  rewrite B5, B4, K4, B3, K3, B2, K2, B1, K1. do 2 f_equal.
  unfold announcementText, currentSlideElement.
  by rewrite T4, S4, T3, S3, T2, S2, T1, S1.
Qed.

Lemma elem_of_schedule x due task l :
  x ∈ schedule due task l <-> x = (due, task) \/ x ∈ l.
Proof. by rewrite schedule_Permutation, elem_of_cons. Qed.

Lemma elem_of_removals node l :
  node ∈ removals l <-> exists d, (d, RemoveAnnouncement node) ∈ l.
Proof.
  unfold removals. rewrite list_elem_of_omap. split.
  - intros ([d t] & Hin & Ht). simpl in Ht. destruct t; simplify_eq. by exists d.
  - intros (d & Hin). by exists (d, RemoveAnnouncement node).
Qed.

Lemma heard_step node due text u u' :
  Coherent u -> tidy u -> heard node due text u -> step u u' ->
  heard node due text u'.
Proof.
  intros Hu [Ht Ha] (H1 & H2 & H3) Hs.
  destruct Hs as [w i R|w|w x y t|w d0 task rest Hq|w t Hn Hd].
  - destruct (goToSlide_accepted i w R)
      as (_ & Hnow & Htm & _ & _ & _ & _ & _ & _ & Hbody).
    destruct (slides_goToSlide i w R) as [_ Hnn].
    unfold heard. rewrite Hnn, Htm, Hnow, Hbody. split; [done|]. split.
    + intros d [E|Hin]%elem_of_schedule; [done | by apply H2].
    + intros Hlt. apply elem_of_schedule. right. by apply H3.
  - destruct (body_updateUI w) as [_ Hnn].
    unfold heard.
    rewrite Hnn, timers_updateUI, now_updateUI, body_updateUI_full.
    split; [lia|]. split.
    + intros d [E|Hin]%elem_of_schedule.
      * injection E as _ E. lia.
      * destruct (H2 d Hin) as [-> Hb]. split; [done|].
        apply elem_of_app. by left.
    + intros Hlt. apply elem_of_schedule. right. by apply H3.
  - done.
  - assert (Hrest : forall x, x ∈ rest -> x ∈ timers w).
    { intros x Hx. rewrite Hq. by right. }
    assert (Hhead : (d0, task) ∈ timers w) by (rewrite Hq; left).
    destruct task as [p| |n].
    + rewrite fire_ActivateSlide.
      set (w0 := with_timers rest (with_now (Z.max (now w) d0) w)).
      destruct (activated_facts p w0) as (_ & Hn0 & Htm0 & _ & _ & Hb0 & Hnn0).
      destruct (body_updateUI (activated p w0)) as [_ Hnn].
      unfold heard, setTimeout. cbn [this page now timers with_timers].
      rewrite Hnn, Hnn0, timers_updateUI, now_updateUI, body_updateUI_full,
        Hn0, Htm0, Hb0, Hnn0.
      subst w0. cbn [this page now timers with_timers with_now].
      split; [lia|]. split.
      * intros d [E|[E|Hin]%elem_of_schedule]%elem_of_schedule; [done| |].
        -- injection E as _ E. lia.
        -- destruct (H2 d (Hrest _ Hin)) as [-> Hb]. split; [done|].
           apply elem_of_app. by left.
      * intros Hlt. apply elem_of_schedule. right.
        apply elem_of_schedule. right.
        assert (Hin : (due, RemoveAnnouncement node) ∈ timers w)
          by (apply H3; lia).
        rewrite Hq in Hin. by apply elem_of_cons in Hin as [E|Hin].
    + unfold heard, fire. cbn. split; [done|]. split.
      * intros d Hin. by apply H2, Hrest.
      * intros Hlt.
        assert (Hin : (due, RemoveAnnouncement node) ∈ timers w)
          by (apply H3; lia).
        rewrite Hq in Hin. by apply elem_of_cons in Hin as [E|Hin].
    + destruct Ha as (Hb & Hnd & _). rewrite Hb, Hq, removals_cons in Hnd.
      cbn in Hnd. apply NoDup_cons in Hnd as [Hnot _].
      unfold heard, fire. cbn. split; [done|]. split.
      * intros d Hin.
        assert (n <> node).
        { intros ->. apply Hnot, elem_of_removals. by exists d. }
        destruct (H2 d (Hrest _ Hin)) as [-> Hbd]. split; [done|].
        apply list_elem_of_filter. by split; [simpl; congruence|].
      * intros Hlt.
        assert (Hin : (due, RemoveAnnouncement node) ∈ timers w)
          by (apply H3; lia).
        rewrite Hq in Hin. apply elem_of_cons in Hin as [E|Hin]; [|done].
        injection E as -> ->. lia.
  - unfold heard. cbn. split; [done|]. split; [done|].
    intros Hlt. apply H3. lia.
Qed.

Lemma heard_updateUI w :
  tidy w ->
  heard (nextNode (page w)) (now w + 1000) (announcementText w) (updateUI w).
Proof.
  intros [_ (Hb & _ & Hlt)].
  destruct (body_updateUI w) as [_ Hnn].
  unfold heard. rewrite Hnn, timers_updateUI, now_updateUI, body_updateUI_full.
  split; [lia|]. split.
  - intros d [E|Hin]%elem_of_schedule.
    + injection E as ->. split; [done|]. apply elem_of_app. right. by left.
    + exfalso. rewrite Forall_forall in Hlt.
      assert (nextNode (page w) < nextNode (page w))%nat; [|lia].
      apply Hlt. rewrite Hb. apply elem_of_removals. by exists d.
  - intros _. apply elem_of_schedule. by left.
Qed.



(** ** C2: the commit step of a transition *)

Lemma removals_schedule due task l :
  removals (schedule due task l) ≡ₚ removals ((due, task) :: l).
Proof. unfold removals. by rewrite schedule_Permutation. Qed.

Lemma numbered_updateUI w : numbered w -> numbered (updateUI w).
Proof.
  unfold numbered. intros Hn.
  destruct (body_updateUI w) as [_ Hnn].
  rewrite Hnn, timers_updateUI, removals_schedule, removals_cons.
  cbn [snd]. apply Forall_cons. split; [lia|].
  eapply Forall_impl; [exact Hn|]. simpl. intros; lia.
Qed.

Lemma numbered_step u u' : numbered u -> step u u' -> numbered u'.
Proof.
  intros Hn Hs.
  destruct Hs as [w i R|w|w x y t|w due task rest Hq|w t Ht Hd]; try done.
  - destruct (goToSlide_accepted i w R) as (_ & _ & Htm & _).
    destruct (slides_goToSlide i w R) as [_ Hnn].
    unfold numbered. by rewrite Hnn, Htm, removals_schedule_other.
  - by apply numbered_updateUI.
  - unfold numbered in Hn. rewrite Hq, removals_cons in Hn. cbn [snd] in Hn.
    destruct task as [p| |n].
    + rewrite fire_ActivateSlide.
      set (w0 := with_timers rest (with_now (Z.max (now w) due) w)).
      destruct (activated_facts p w0) as (_ & _ & Htm0 & _ & _ & _ & Hnn0).
      assert (H1 : numbered (activated p w0)).
      { unfold numbered. by rewrite Hnn0, Htm0. }
      apply numbered_updateUI in H1.
      unfold numbered, setTimeout in *. cbn [page timers with_timers].
      by rewrite removals_schedule_other.
    + exact Hn.
    + apply Forall_cons in Hn as [_ Hn]. exact Hn.
Qed.

Lemma reachable_numbered w : reachable w -> numbered w.
Proof.
  intros (doc & t0 & evs & ->).
  apply (run_invariant numbered).
  - intros u u' _. apply numbered_step.
  - unfold PresentationController, init, setupElements, numbered.
    destruct doc as [sl [?|] [?|] [?|] [?|] ti bo nn]; constructor.
Qed.

Lemma announcementText_frame u v :
  slides (page v) = slides (page u) ->
  currentSlide (this v) = currentSlide (this u) ->
  totalSlides (this v) = totalSlides (this u) ->
  announcementText v = announcementText u.
Proof.
  unfold announcementText, currentSlideElement, getSlideTitle, fallbackTitle.
  by intros -> -> ->.
Qed.

Section Commit.

(** [w1]: a world in which the 50 ms callback is pending, due at [d]. *)
Variable w1 : World.
Variables (d p : Z).
Hypothesis Hcoh : Coherent w1.
Hypothesis Hpending : pending (timers w1) = [(d, ActivateSlide p)].
Hypothesis Hnum : numbered w1.

Lemma committing_start deadline : committing w1 d p deadline w1.
Proof. left. by repeat split. Qed.

Lemma committing_fire deadline w due task rest :
  on_track w1 d p deadline w -> committing w1 d p deadline w ->
  timers w = (due, task) :: rest -> due <= deadline ->
  committing w1 d p deadline (fire due task rest w).
Proof.
  intros (Hw & Hc & Hn & Hst) Hcm Hq Hdue.
  pose proof (coh_future w Hw) as Hfut. rewrite Hq in Hfut.
  apply Forall_cons in Hfut as [Hnow _]. simpl in Hnow.
  assert (Hrest : forall x, x ∈ rest -> x ∈ timers w).
  { intros x Hx. rewrite Hq. by right. }
  assert (Hhead : (due, task) ∈ timers w) by (rewrite Hq; left).
  assert (Hpq : pending (timers w)
                = if transitionTask (due, task) then (due, task) :: pending rest
                  else pending rest).
  { by rewrite Hq. }
  unfold stage in Hst. unfold committing in *. cbv zeta in *.
  set (node := nextNode (page w1)) in *.
  destruct task as [q| |m]; cbn [transitionTask snd] in Hpq.
  - (* the 50 ms callback *)
    assert (Hp : due = d /\ q = p /\ pending rest = []
                 /\ display (page w) = display (page w1)).
    { rewrite Hpq in Hst.
      destruct Hst as [(E&_&?)|[(E&_)|(E&_)]]; [|done|done].
      by injection E as -> -> ->. }
    destruct Hp as (-> & -> & Hp & Hdisp).
    destruct Hcm as [(_ & Hsl & Hnn & Hlt)|(Hne & _)].
    2: { destruct Hne. by rewrite Hpq, Hp. }
    rewrite Hq, removals_cons in Hlt. cbn [snd] in Hlt.
    right. rewrite fire_ActivateSlide.
    set (w0 := with_timers rest (with_now (Z.max (now w) d) w)).
    destruct (activated_facts p w0)
      as (Hth & Hn0 & Htm0 & Hsl0 & Hdisp0 & Hb0 & Hnn0).
    destruct (updateUI_facts (activated p w0)) as (Hpb & Hnb & Hti & _ & _).
    pose proof (body_updateUI_full (activated p w0)) as Hbody.
    pose proof (timers_updateUI (activated p w0)) as Htm.
    pose proof (slides_updateUI (activated p w0)) as Hsu.
    pose proof (this_updateUI (activated p w0)) as Htu.
    pose proof (now_updateUI (activated p w0)) as Hnu.
    set (u := updateUI (activated p w0)) in *.
    assert (Hpg : page (setTimeout EndTransition 600 u) = page u) by done.
    assert (Hts : this (setTimeout EndTransition 600 u) = this u) by done.
    assert (Htq : timers (setTimeout EndTransition 600 u)
                  = schedule (d + 600) EndTransition
                      (schedule (d + 1000) (RemoveAnnouncement node) rest)).
    { unfold setTimeout. cbn [timers with_timers].
      rewrite Htm, Htm0, Hnn0, Hnu, Hn0.
      subst w0. cbn [now page timers with_timers with_now].
      rewrite Hnn. by replace (Z.max (now w) d) with d by lia. }
    assert (Hw0 : this w0 = this w /\ page w0 = page w) by done.
    destruct Hw0 as [Hw0t Hw0p].
    assert (Hat : announcementText (setTimeout EndTransition 600 u)
                  = announcementText (activated p w0)).
    { apply announcementText_frame; by rewrite ?Hpg, ?Hts, ?Hsu, ?Htu. }
    rewrite Hpg, Htq, Hat.
    unfold display in Hdisp. injection Hdisp as _ _ Hd1 Hd2 _.
    assert (Hd3 : prevBtn (page (activated p w0)) = prevBtn (page w0)) by done.
    assert (Hd4 : nextBtn (page (activated p w0)) = nextBtn (page w0)) by done.
    split; [|split; [|split; [|split; [|split; [|split]]]]].
    + rewrite pending_schedule_first; [done|done|].
      by rewrite pending_schedule_other.
    + rewrite Hsu, Hsl0.
      destruct (activated_facts p w1) as (_ & _ & _ & -> & _).
      by rewrite Hw0t, Hw0p, Hc, Hsl.
    + by rewrite Hpb, Hth, Hd3, Hw0t, Hw0p, Hc, Hd1.
    + by rewrite Hnb, Hth, Hd4, Hw0t, Hw0p, Hc, Hn, Hd2.
    + rewrite Hti. symmetry.
      apply documentTitle_frame; by rewrite ?Hpg, ?Hts, ?Hsu, ?Htu.
    + intros d' [E|[E|Hin]%elem_of_schedule]%elem_of_schedule; [done| |].
      * by injection E as ->.
      * exfalso. rewrite Forall_forall in Hlt.
        assert (node < node)%nat; [|lia].
        apply Hlt, elem_of_removals. by exists d'.
    + intros _. split.
      * apply elem_of_schedule. right. apply elem_of_schedule. by left.
      * rewrite Hbody, Hnn0, Hw0p, Hnn. apply elem_of_app. right. by left.
  - (* the 600 ms callback *)
    destruct Hcm as [(E & _)|(Hne & Hsl & Hpb & Hnb & Hti & H5 & H6)].
    { by rewrite Hpq in E. }
    assert (Hp : pending rest = []).
    { rewrite Hpq in Hst.
      destruct Hst as [(E&_)|[(E&_)|(E&_)]]; [done| |done].
      by injection E. }
    right. unfold fire. cbn [runTask].
    set (w0 := with_timers rest (with_now (Z.max (now w) due) w)).
    assert (Hf : page (on_this (with_isTransitioning false) w0) = page w
                 /\ timers (on_this (with_isTransitioning false) w0) = rest)
      by done.
    destruct Hf as [Hfp Hft].
    assert (Hfd : documentTitle (on_this (with_isTransitioning false) w0)
                  = documentTitle w).
    { apply documentTitle_frame; by rewrite ?Hfp. }
    assert (Hfa : announcementText (on_this (with_isTransitioning false) w0)
                  = announcementText w).
    { apply announcementText_frame; by rewrite ?Hfp. }
    rewrite Hfp, Hft, Hfd, Hfa, Hp.
    do 5 (split; [done|]). split.
    + intros d' Hin. by apply H5, Hrest.
    + intros Hlt. destruct (H6 Hlt) as [Hin Hb]. split; [|done].
      rewrite Hq in Hin. by apply elem_of_cons in Hin as [E|Hin].
  - (* an announcement is withdrawn *)
    unfold fire. cbn [runTask].
    set (w0 := with_timers rest (with_now (Z.max (now w) due) w)).
    set (w' := on_page _ w0).
    assert (Hf : slides (page w') = slides (page w)
                 /\ prevBtn (page w') = prevBtn (page w)
                 /\ nextBtn (page w') = nextBtn (page w)
                 /\ title (page w') = title (page w)
                 /\ nextNode (page w') = nextNode (page w)
                 /\ body (page w')
                    = filter (fun a => a.1 ≠ m) (body (page w))
                 /\ this w' = this w /\ timers w' = rest)
      by done.
    destruct Hf as (Hfs & Hfp & Hfn & Hft & Hfnn & Hfb & Hfth & Hftm).
    assert (Hfd : documentTitle w' = documentTitle w).
    { apply documentTitle_frame; by rewrite ?Hfs, ?Hfth. }
    assert (Hfa : announcementText w' = announcementText w).
    { apply announcementText_frame; by rewrite ?Hfs, ?Hfth. }
    rewrite Hfs, Hfp, Hfn, Hft, Hfnn, Hfb, Hfd, Hfa, Hftm.
    rewrite Hpq in Hcm.
    destruct Hcm as [(E & Hsl & Hnn & Hlt)|(Hne & Hsl & Hpb & Hnb & Hti & H5 & H6)].
    + left. do 3 (split; [done|]).
      rewrite Hq, removals_cons in Hlt. cbn [snd] in Hlt.
      by apply Forall_cons in Hlt as [_ Hlt].
    + right. do 5 (split; [done|]). split.
      * intros d' Hin. by apply H5, Hrest.
      * intros Hlt. destruct (H6 Hlt) as [Hin Hb].
        assert (m <> node).
        { intros ->. specialize (H5 _ Hhead). lia. }
        split.
        -- rewrite Hq in Hin. apply elem_of_cons in Hin as [E|Hin]; [|done].
           by injection E as _ E.
        -- apply list_elem_of_filter. split; [simpl; congruence | done].
Qed.

Lemma committing_elapse ms :
  committing w1 d p (now w1 + Z.of_N ms) (elapse ms w1).
Proof.
  unfold elapse. cbv zeta.
  set (deadline := now w1 + Z.of_N ms).
  pose proof (runTimers_invariant
    (fun v => on_track w1 d p deadline v /\ committing w1 d p deadline v)
    deadline) as Hinv.
  destruct (Hinv
    ltac:(intros w due task rest [Ho Hc] Hq Hdue;
          split; [by apply on_track_fire | by apply committing_fire])
    (queueWeight (timers w1)) w1
    (conj (on_track_start w1 d p Hcoh Hpending deadline)
          (committing_start deadline))) as [_ Hc].
  exact Hc.
Qed.

End Commit.

(** The page [ms] milliseconds after [w1], in which the 50 ms callback is
    pending. *)
Lemma commit_timeline w1 d p ms :
  Coherent w1 -> pending (timers w1) = [(d, ActivateSlide p)] -> numbered w1 ->
  let deadline := now w1 + Z.of_N ms in
  let w2 := elapse ms w1 in
  (deadline < d -> slides (page w2) = slides (page w1))
  /\ (d <= deadline ->
      slides (page w2) = slides (page (activated p w1))
      /\ prevBtn (page w2)
         = (fun _ => buttonState (currentSlide (this w1) =? 0))
             <$> prevBtn (page w1)
      /\ nextBtn (page w2)
         = (fun _ => buttonState
                       (currentSlide (this w1) =? totalSlides (this w1) - 1))
             <$> nextBtn (page w1)
      /\ title (page w2) = documentTitle w2
      /\ (deadline < d + 1000 ->
          (nextNode (page w1), announcementText w2) ∈ body (page w2))).
Proof.
  intros Hcoh Hp Hnum. cbv zeta.
  pose proof (committing_elapse w1 d p Hcoh Hp Hnum ms) as Hcm.
  destruct (on_track_elapse w1 d p Hcoh Hp ms) as [(_ & _ & _ & Hst) Hd].
  remember (elapse ms w1) as w2 eqn:Ew2.
  remember (now w1 + Z.of_N ms) as deadline eqn:Edl.
  clear Ew2 Edl. unfold stage in Hst. unfold committing in Hcm.
  split.
  - intros Hlt.
    destruct Hcm as [(_ & Hsl & _)|(Hne & _)]; [done|].
    destruct Hst as [(E&_)|[(_&_&?&_)|(_&_&?&_)]]; [done|lia|lia].
  - intros Hle.
    destruct Hcm as [(E & _)|(_ & Hsl & Hpb & Hnb & Hti & _ & H6)].
    + exfalso. rewrite Forall_forall in Hd.
      assert (Hin : (d, ActivateSlide p) ∈ timers w2).
      { apply list_elem_of_In, pending_In. rewrite E. by left. }
      apply Hd in Hin. simpl in Hin. lia.
    + do 4 (split; [done|]). intros Hlt. by apply H6.
Qed.

(** The page [ms] milliseconds after an accepted [goToSlide]. *)
Lemma goToSlide_commit i ms w :
  Coherent w -> numbered w -> rejected (this w) i = false ->
  let w1 := goToSlide i w in
  let w2 := elapse ms w1 in
  ((ms < 50)%N -> slides (page w2) = slides (page w1))
  /\ ((50 <= ms)%N ->
      slides (page w2)
      = at_index_do (classList_prev false) (currentSlide (this w))
          (at_index_do (fun s => classList_prev false (classList_active true s))
             i (slides (page w1)))
      /\ prevBtn (page w2)
         = (fun _ => buttonState (i =? 0)) <$> prevBtn (page w)
      /\ nextBtn (page w2)
         = (fun _ => buttonState (i =? totalSlides (this w) - 1))
             <$> nextBtn (page w)
      /\ title (page w2) = documentTitle w2
      /\ ((ms < 1050)%N ->
          (nextNode (page w), announcementText w2) ∈ body (page w2))).
Proof.
  intros Hw Hnum R. cbv zeta.
  destruct (goToSlide_accepted i w R)
    as (Ht & Hn & Hq & _ & _ & _ & Hb1 & Hb2 & _ & _).
  destruct (slides_goToSlide i w R) as [_ Hnn].
  pose proof (proj1 (accepted_iff _ _) R) as (Hf & _).
  assert (Hp : pending (timers (goToSlide i w))
               = [(now w + 50, ActivateSlide (currentSlide (this w)))]).
  { rewrite Hq. apply pending_schedule_first; [done|]. by apply idle_pending. }
  assert (Hnum1 : numbered (goToSlide i w)).
  { unfold numbered. by rewrite Hnn, Hq, removals_schedule_other. }
  destruct (commit_timeline (goToSlide i w) _ _ ms
              (Coherent_goToSlide i w Hw) Hp Hnum1) as [H1 H2].
  rewrite Hn in H1, H2. split.
  - intros Hms. apply H1. lia.
  - intros Hms.
    destruct H2 as (Hsl & Hpb & Hnb & Hti & Han); [lia|].
    destruct (activated_facts (currentSlide (this w)) (goToSlide i w))
      as (_ & _ & _ & Hact & _).
    rewrite Hact in Hsl. rewrite Ht, Hb1 in Hpb. rewrite Ht, Hb2 in Hnb.
    rewrite Ht in Hsl. rewrite Hnn in Han.
    cbn [currentSlide totalSlides with_currentSlide with_isTransitioning]
      in Hsl, Hpb, Hnb.
    do 4 (split; [done|]). intros Hlt. apply Han. lia.
Qed.



(** ** The gesture interpreter *)

Lemma Qltb_true x y : Qltb x y = true <-> (x < y)%Q.
Proof.
  unfold Qltb. rewrite negb_true_iff. split.
  - intros H. apply Qnot_le_lt. intros Hle.
    apply Qle_bool_iff in Hle. congruence.
  - intros H. destruct (Qle_bool y x) eqn:E; [|done].
    apply Qle_bool_iff in E. by apply Qlt_not_le in H.
Qed.

Lemma Qltb_false x y : Qltb x y = false <-> (y <= x)%Q.
Proof.
  unfold Qltb. rewrite negb_false_iff. apply Qle_bool_iff.
Qed.

Lemma falsy_false_iff x : falsy x = false <-> ~ (x == 0)%Q.
Proof.
  split; [|apply falsy_false].
  intros H E. apply falsy_iff in E. congruence.
Qed.

Lemma guards_pass w touchEndX :
  swipe w touchEndX <->
  falsy (touchStartX (this w)) || falsy (touchStartY (this w)) = false
  /\ (300 <? deltaTime w) || Qltb (Qabs (deltaX w touchEndX)) (inject_Z 50)
     = false.
Proof.
  unfold swipe.
  rewrite !orb_false_iff, !falsy_false_iff, Z.ltb_ge, Qltb_false. tauto.
Qed.

Lemma far_left_is_negative (x : Q) :
  (inject_Z 50 <= Qabs x)%Q -> (x <= 0)%Q -> (x < 0)%Q.
Proof.
  intros Habs Hle. apply Qle_lteq in Hle as [H|H]; [done|].
  rewrite H in Habs. by vm_compute in Habs.
Qed.

(** X10: [handleTouchEnd] calls [nextSlide] exactly for a touch with
    non-zero recorded start coordinates that lasted at most 300 ms, moved
    at least 50 pixels horizontally, more than vertically, towards the
    left; [previousSlide] exactly for such a touch towards the right; the
    recorded coordinates are reset exactly when the first four conditions
    hold (whether or not a method was called), and otherwise nothing
    changes. *)
Theorem gesture_decision w touchEndX touchEndY :
  let dx := deltaX w touchEndX in
  let dy := deltaY w touchEndY in
  let result := handleTouchEnd touchEndX touchEndY w in
  (result.1 = Some Next <->
   swipe w touchEndX /\ (Qabs dy < Qabs dx)%Q /\ (0 < dx)%Q)
  /\ (result.1 = Some Previous <->
      swipe w touchEndX /\ (Qabs dy < Qabs dx)%Q /\ (dx < 0)%Q)
  /\ (swipe w touchEndX ->
      result.2 = resetTouch (match result.1 with
                             | Some Next => nextSlide w
                             | Some Previous => previousSlide w
                             | None => w
                             end))
  /\ (~ swipe w touchEndX -> result = (None, w)).
Proof.
  cbv zeta. rewrite guards_pass.
  unfold handleTouchEnd, deltaX, deltaY, deltaTime. cbv zeta.
  set (dx := (touchStartX (this w) - touchEndX)%Q).
  set (dy := (touchStartY (this w) - touchEndY)%Q).
  destruct (falsy _ || falsy _) eqn:G1; cbv beta iota.
  { simpl. repeat split; try done; intros H;
      (destruct H as [[? _] _] || destruct H as [? _]); done. }
  destruct ((300 <? _) || Qltb (Qabs dx) (inject_Z 50)) eqn:G2; cbv beta iota.
  { simpl. repeat split; try done; intros H;
      (destruct H as [[_ ?] _] || destruct H as [_ ?]); done. }
  apply orb_false_iff in G2 as [_ G2]. apply Qltb_false in G2.
  destruct (Qltb (Qabs dy) (Qabs dx)) eqn:H.
  - apply Qltb_true in H.
    destruct (Qltb 0 dx) eqn:R; cbn [fst snd].
    + apply Qltb_true in R. split; [|split; [|split]].
      * split; [intros _; done | done].
      * split; [done|]. intros (_ & _ & Hneg).
        destruct (Qlt_irrefl 0 (Qlt_trans _ _ _ R Hneg)).
      * done.
      * intros Hn. by destruct Hn.
    + apply Qltb_false in R. split; [|split; [|split]].
      * split; [done|]. intros (_ & _ & Hpos). by apply Qlt_not_le in Hpos.
      * split; [intros _|done].
        split; [done|]. split; [done|]. by apply far_left_is_negative.
      * done.
      * intros Hn. by destruct Hn.
  - apply Qltb_false in H. cbn [fst snd]. split; [|split; [|split]].
    + split; [done|]. intros (_ & Hlt & _). by apply Qlt_not_le in Hlt.
    + split; [done|]. intros (_ & Hlt & _). by apply Qlt_not_le in Hlt.
    + done.
    + intros Hn. by destruct Hn.
Qed.

Lemma gesture_decision_witness :
  (handleTouchEnd 150 300 slowSwipe).1 = Some Next
  /\ (handleTouchEnd 250 349 slowSwipe).1 = Some Previous
  /\ handleTouchEnd 151 300 slowSwipe = (None, slowSwipe).
Proof.
  split; [|split].
  - apply (proj1 (gesture_decision slowSwipe 150 300)).
    repeat split; vm_compute; congruence.
  - apply (proj1 (proj2 (gesture_decision slowSwipe 250 349))).
    repeat split; vm_compute; congruence.
  - apply (proj2 (proj2 (proj2 (gesture_decision slowSwipe 151 300)))).
    intros (_ & _ & _ & H). by vm_compute in H.
Defined.

(** ** The keyboard *)

Lemma settle_nav i w :
  idle w ->
  nav (settle (goToSlide i w))
  = (if rejected (this w) i then currentSlide (this w) else i,
     totalSlides (this w), false).
Proof.
  intros Hi. destruct (settle_goToSlide i w Hi) as ([_ Hf] & Hn & Hc).
  unfold nav. by rewrite Hc, Hn, Hf.
Qed.

Lemma settle_idle_nav w :
  idle w ->
  nav (settle w) = (currentSlide (this w), totalSlides (this w), false).
Proof.
  intros [Hw Hf]. destruct (elapse_idle 650 w Hw Hf) as [Ht _].
  unfold nav, settle. by rewrite Ht, Hf.
Qed.

Lemma handleKeyPress_named e w k :
  targetIsField e = false -> Str.toLowerCase (key e) = k ->
  handleKeyPress e w
  = if key_in k ["arrowright"; "arrowdown"; " "; "pagedown"] then nextSlide w
    else if key_in k ["arrowleft"; "arrowup"; "pageup"] then previousSlide w
    else if key_in k ["home"] then goToSlide 0 w
    else if key_in k ["end"] then goToSlide (totalSlides (this w) - 1) w
    else if key_in k ["r"] then
      if ctrlKey e || metaKey e then goToSlide 0 w else w
    else w.
Proof. intros Hf <-. unfold handleKeyPress. by rewrite Hf. Qed.

Lemma handleNumberKey_named e w k :
  targetIsField e = false -> Str.toLowerCase (key e) = k ->
  handleNumberKey e w
  = if String.leb "1" k && String.leb k "9" then
      match Str.parseInt k with
      | Some n =>
          if n - 1 <? totalSlides (this w) then goToSlide (n - 1) w else w
      | None => w
      end
    else w.
Proof. intros Hf <-. unfold handleNumberKey. by rewrite Hf. Qed.

(** X11: pressed outside a form field while the navigator is idle, Home
    (in any letter case) leads to the first slide, End to the last one, and
    R to the first one when Ctrl or Meta is held and nowhere otherwise; on
    a page without slides all three leave the index at 0. *)
Theorem home_end_reset_keys w e :
  reachable w -> isTransitioning (this w) = false ->
  targetIsField e = false ->
  let after := settle (dispatch (KeyDown e) w) in
  let total := totalSlides (this w) in
  (Str.toLowerCase (key e) = "home" -> nav after = (0, total, false))
  /\ (Str.toLowerCase (key e) = "end" ->
      nav after = (Z.max 0 (total - 1), total, false))
  /\ (Str.toLowerCase (key e) = "r" ->
      nav after
      = (if ctrlKey e || metaKey e then 0 else currentSlide (this w),
         total, false)).
Proof.
  intros Hr Hf He. cbv zeta. cbn [dispatch].
  pose proof (reachable_Coherent w Hr) as Hw.
  assert (Hi : idle w) by done.
  destruct (coh_range w Hw) as [H0 Hrange].
  assert (Hhome : nav (settle (goToSlide 0 w)) = (0, totalSlides (this w), false)).
  { rewrite settle_nav by done.
    destruct (rejected (this w) 0) eqn:R; [|done].
    apply rejected_iff in R. do 2 f_equal.
    destruct R as [R|R]; [congruence|lia]. }
  split; [|split]; intros Hk.
  - assert (E : handleNumberKey e (handleKeyPress e w) = goToSlide 0 w).
    { rewrite (handleKeyPress_named e w _ He Hk).
      by rewrite (handleNumberKey_named e _ _ He Hk). }
    by rewrite E.
  - assert (E : handleNumberKey e (handleKeyPress e w)
                = goToSlide (totalSlides (this w) - 1) w).
    { rewrite (handleKeyPress_named e w _ He Hk).
      by rewrite (handleNumberKey_named e _ _ He Hk). }
    rewrite E, settle_nav by done.
    destruct (rejected (this w) (totalSlides (this w) - 1)) eqn:R.
    + apply rejected_iff in R. do 2 f_equal.
      destruct R as [R|R]; [congruence|lia].
    + apply accepted_iff in R. do 2 f_equal. lia.
  - assert (E : handleNumberKey e (handleKeyPress e w)
                = if ctrlKey e || metaKey e then goToSlide 0 w else w).
    { rewrite (handleKeyPress_named e w _ He Hk).
      rewrite (handleNumberKey_named e _ _ He Hk).
      by destruct (ctrlKey e || metaKey e). }
    rewrite E. destruct (ctrlKey e || metaKey e); [done|].
    by apply settle_idle_nav.
Qed.

Lemma home_end_reset_keys_witness :
  nav (settle (dispatch (pressed "End") fiveSlides)) = (4, 5, false)
  /\ nav (settle (dispatch (pressed "END") emptyDeck)) = (0, 0, false).
Proof.
  split.
  - apply (proj1 (proj2 (home_end_reset_keys fiveSlides
             {| key := "End"; ctrlKey := false; metaKey := false; targetIsField := false |}
             (reachable_init _ _) eq_refl eq_refl))).
    reflexivity.
  - apply (proj1 (proj2 (home_end_reset_keys emptyDeck
             {| key := "END"; ctrlKey := false; metaKey := false; targetIsField := false |}
             (reachable_init _ _) eq_refl eq_refl))).
    reflexivity.
Defined.

(** X12: pressed outside a form field while the navigator is idle, the
    digit key [d], from 1 to 9, leads to slide [d] (index [d - 1]) when the
    deck has at least [d] slides, and changes nothing otherwise. *)
Theorem number_keys w e d :
  reachable w -> isTransitioning (this w) = false ->
  targetIsField e = false ->
  1 <= d <= 9 -> Str.toLowerCase (key e) = Str.of_Z d ->
  nav (settle (dispatch (KeyDown e) w))
  = (if d <=? totalSlides (this w) then d - 1 else currentSlide (this w),
     totalSlides (this w), false).
Proof.
  intros Hr Hf He Hd Hk. cbn [dispatch].
  pose proof (reachable_Coherent w Hr) as Hw.
  assert (Hi : idle w) by done.
  assert (Hcases : d = 1 \/ d = 2 \/ d = 3 \/ d = 4 \/ d = 5 \/ d = 6
                   \/ d = 7 \/ d = 8 \/ d = 9) by lia.
  assert (Hgo : handleNumberKey e (handleKeyPress e w)
                = if d - 1 <? totalSlides (this w) then goToSlide (d - 1) w
                  else w).
  { rewrite (handleKeyPress_named e w _ He Hk).
    rewrite (handleNumberKey_named e _ _ He Hk).
    destruct Hcases as [->|[->|[->|[->|[->|[->|[->|[->| ->]]]]]]]];
      reflexivity. }
  rewrite Hgo.
  destruct (Z.ltb_spec (d - 1) (totalSlides (this w)));
    destruct (Z.leb_spec d (totalSlides (this w))); try lia.
  - rewrite settle_nav by done.
    destruct (rejected (this w) (d - 1)) eqn:R; [|done].
    apply rejected_iff in R. do 2 f_equal.
    destruct R as [R|R]; [congruence|lia].
  - by apply settle_idle_nav.
Qed.

Lemma number_keys_witness :
  nav (settle (dispatch (pressed "4") fiveSlides)) = (3, 5, false)
  /\ nav (settle (dispatch (pressed "7") fiveSlides)) = (0, 5, false).
Proof.
  split.
  - apply (number_keys fiveSlides
             {| key := "4"; ctrlKey := false; metaKey := false; targetIsField := false |}
             4 (reachable_init _ _) eq_refl eq_refl); [lia | reflexivity].
  - apply (number_keys fiveSlides
             {| key := "7"; ctrlKey := false; metaKey := false; targetIsField := false |}
             7 (reachable_init _ _) eq_refl eq_refl); [lia | reflexivity].
Defined.

(** ** The two [keydown] listeners *)

Lemma key_in_true k names : key_in k names = true -> In k names.
Proof.
  unfold key_in. intros (x & Hin & E)%existsb_exists.
  by apply String.eqb_eq in E as ->.
Qed.

Lemma handleNumberKey_other e w k :
  targetIsField e = false -> Str.toLowerCase (key e) = k ->
  String.leb "1" k && String.leb k "9" = false ->
  handleNumberKey e w = w.
Proof. intros Hf <- Hk. unfold handleNumberKey. by rewrite Hf, Hk. Qed.

Lemma goToSlide_nowhere w : goToSlide (-1) w = w.
Proof. apply goToSlide_rejected, rejected_iff. lia. Qed.

(** X13: a key press never navigates twice: whatever the key event, the two
    [keydown] listeners together do what one call of [goToSlide] does (a
    rejected call when the key has no effect), and nothing at all when the
    event comes from a form field. *)
Theorem one_navigation_per_key e w :
  (targetIsField e = true -> dispatch (KeyDown e) w = w)
  /\ exists slideIndex, dispatch (KeyDown e) w = goToSlide slideIndex w.
Proof.
  cbn [dispatch].
  destruct (targetIsField e) eqn:Hf.
  { assert (E : handleNumberKey e (handleKeyPress e w) = w).
    { unfold handleNumberKey, handleKeyPress. by rewrite Hf. }
    rewrite E. split; [done|]. exists (-1). by rewrite goToSlide_nowhere. }
  split; [done|].
  remember (Str.toLowerCase (key e)) as k eqn:Hk. symmetry in Hk.
  rewrite (handleKeyPress_named e w k Hf Hk).
  assert (Hnum : forall v names,
    key_in k names = true ->
    Forall (fun n => String.leb "1" n && String.leb n "9" = false) names ->
    handleNumberKey e v = v).
  { intros v names Hin%key_in_true Hall.
    apply (handleNumberKey_other e v k Hf Hk).
    rewrite Forall_forall in Hall. apply Hall. by apply list_elem_of_In. }
  destruct (key_in k ["arrowright"; "arrowdown"; " "; "pagedown"]) eqn:E1.
  { rewrite (Hnum _ _ E1), nextSlide_goToSlide by (repeat constructor).
    by eexists. }
  destruct (key_in k ["arrowleft"; "arrowup"; "pageup"]) eqn:E2.
  { rewrite (Hnum _ _ E2), previousSlide_goToSlide by (repeat constructor).
    by eexists. }
  destruct (key_in k ["home"]) eqn:E3.
  { rewrite (Hnum _ _ E3) by (repeat constructor). by eexists. }
  destruct (key_in k ["end"]) eqn:E4.
  { rewrite (Hnum _ _ E4) by (repeat constructor). by eexists. }
  destruct (key_in k ["r"]) eqn:E5.
  { destruct (ctrlKey e || metaKey e).
    - rewrite (Hnum _ _ E5) by (repeat constructor). by eexists.
    - rewrite (Hnum _ _ E5) by (repeat constructor).
      exists (-1). by rewrite goToSlide_nowhere. }
  rewrite (handleNumberKey_named e w k Hf Hk).
  destruct (String.leb "1" k && String.leb k "9").
  - destruct (Str.parseInt k) as [n|].
    + destruct (n - 1 <? totalSlides (this w)); [by eexists|].
      exists (-1). by rewrite goToSlide_nowhere.
    + exists (-1). by rewrite goToSlide_nowhere.
  - exists (-1). by rewrite goToSlide_nowhere.
Qed.

(** ** The public API *)

Lemma nav_eq' w c n b :
  nav w = (c, n, b) ->
  currentSlide (this w) = c /\ totalSlides (this w) = n
  /\ isTransitioning (this w) = b.
Proof. unfold nav. by intros [= -> -> ->]. Qed.

Lemma length_append (s1 s2 : string) :
  String.length (s1 +:+ s2) = (String.length s1 + String.length s2)%nat.
Proof. induction s1 as [|c s1 IH]; simpl; [done|]. by rewrite IH. Qed.

Lemma length_substring_0 (n : nat) (s : string) :
  String.length (substring 0 n s) = Nat.min n (String.length s).
Proof.
  revert s. induction n as [|n IH]; intros [|c s]; simpl; try done.
  by rewrite IH.
Qed.

Lemma substring_0_all (n : nat) (s : string) :
  (String.length s <= n)%nat -> substring 0 n s = s.
Proof.
  revert s. induction n as [|n IH]; intros [|c s]; simpl; try done; try lia.
  intros H. rewrite IH; [done|lia].
Qed.

Lemma current_slide_exists w :
  Coherent w -> 0 < totalSlides (this w) ->
  exists s, slides (page w) !! Z.to_nat (currentSlide (this w)) = Some s
            /\ currentSlideElement w = Some s.
Proof.
  intros Hw Hpos. destruct (coh_range w Hw) as [H0 Hr].
  pose proof (coh_total w Hw) as Ht.
  destruct (lookup_lt_is_Some_2 (slides (page w))
              (Z.to_nat (currentSlide (this w)))) as [s Hs]; [lia|].
  exists s. split; [done|].
  unfold currentSlideElement, at_index.
  destruct (Z.ltb_spec (currentSlide (this w)) 0); [lia|done].
Qed.

(** X14: in every reachable world the exported data are consistent:
    there is one entry per slide, [totalSlides] is their number, the
    entries are numbered from 1 in order, [currentSlide] is the 1-based
    current index, inside 1..totalSlides when there is a slide, and the
    entry it designates carries the title [getCurrentSlideInfo] reports. *)
Theorem export_consistent timestamp w :
  reachable w ->
  let data := exportSlideData timestamp w in
  Z.of_nat (length (PresentationData.slides data))
  = PresentationData.totalSlides data
  /\ (forall (k : nat) d, PresentationData.slides data !! k = Some d ->
        SlideData.number d = Z.of_nat k + 1)
  /\ PresentationData.currentSlide data = currentSlide (this w) + 1
  /\ (0 < totalSlides (this w) ->
      1 <= PresentationData.currentSlide data
        <= PresentationData.totalSlides data
      /\ exists d,
           PresentationData.slides data
             !! Z.to_nat (PresentationData.currentSlide data - 1) = Some d
           /\ SlideData.number d = PresentationData.currentSlide data
           /\ SlideData.title d = SlideInfo.title (getCurrentSlideInfo w)).
Proof.
  intros Hr. apply reachable_Coherent in Hr as Hw. cbv zeta.
  unfold exportSlideData. cbn [PresentationData.slides
    PresentationData.totalSlides PresentationData.currentSlide].
  split; [by rewrite length_imap, (coh_total w Hw)|].
  split.
  { intros k d. rewrite list_lookup_imap.
    destruct (slides (page w) !! k); simpl; [|done]. by intros [= <-]. }
  split; [done|]. intros Hpos.
  destruct (coh_range w Hw) as [H0 Hrg].
  split; [lia|].
  destruct (current_slide_exists w Hw Hpos) as (s & Hs & He).
  replace (currentSlide (this w) + 1 - 1) with (currentSlide (this w)) by lia.
  rewrite list_lookup_imap, Hs. simpl. eexists. split; [done|]. simpl.
  split; [lia|]. unfold getCurrentSlideInfo. simpl. by rewrite He.
Qed.

Lemma export_consistent_witness :
  let data := exportSlideData "t" mixedDeck in
  Z.of_nat (length (PresentationData.slides data)) = 4
  /\ PresentationData.currentSlide data = 4.
Proof.
  assert (Hr : reachable mixedDeck).
  { exists (deck [titled "Intro"; blankSlide; blankSlide; titled "Summary"]),
      0, [CallGoTo 3; Elapse 650]. reflexivity. }
  split.
  - exact (proj1 (export_consistent "t" mixedDeck Hr)).
  - exact (proj1 (proj2 (proj2 (export_consistent "t" mixedDeck Hr)))).
Defined.

(** X15: the exported text of a slide is its trimmed text, cut after 200
    characters, followed by three dots, which are appended whether or not
    anything was cut; so it is never longer than 203 characters, and for a
    text of at most 200 characters it is the whole text and the dots. *)
Theorem export_content_bounded timestamp w (k : nat) s :
  slides (page w) !! k = Some s ->
  exists d,
    PresentationData.slides (exportSlideData timestamp w) !! k = Some d
    /\ String.length (SlideData.content d)
       = (Nat.min 200 (String.length (Str.trim (textContent s))) + 3)%nat
    /\ (String.length (SlideData.content d) <= 203)%nat
    /\ ((String.length (Str.trim (textContent s)) <= 200)%nat ->
        SlideData.content d = Str.trim (textContent s) +:+ "...").
Proof.
  intros Hk. unfold exportSlideData.
  cbn [PresentationData.slides]. rewrite list_lookup_imap, Hk.
  eexists. split; [reflexivity|]. cbn [SlideData.content].
  rewrite length_append, length_substring_0.
  change (String.length "...") with 3%nat.
  split; [done|]. split; [lia|].
  intros Hshort. by rewrite substring_0_all.
Qed.

Lemma export_content_bounded_witness :
  SlideData.content
  <$> (PresentationData.slides (exportSlideData "t" mixedDeck) !! 1%nat)
  = Some "...".
Proof.
  destruct (export_content_bounded "t" mixedDeck 1 blankSlide eq_refl)
    as (d & -> & _ & _ & Hd).
  simpl. rewrite Hd; [reflexivity|]. simpl. lia.
Defined.

(** X16: in every reachable world [getCurrentSlideInfo] reports the slide
    count and the 1-based current index; with at least one slide the index
    is inside 1..total and the element is the current slide; on a page
    without slides it reports slide 1 of 0, no element and the title
    ["Slide 1"]. *)
Theorem current_slide_info w :
  reachable w ->
  let info := getCurrentSlideInfo w in
  SlideInfo.total info = totalSlides (this w)
  /\ SlideInfo.current info = currentSlide (this w) + 1
  /\ (0 < totalSlides (this w) ->
      1 <= SlideInfo.current info <= SlideInfo.total info
      /\ exists s,
           slides (page w) !! Z.to_nat (currentSlide (this w)) = Some s
           /\ SlideInfo.element info = Some s)
  /\ (totalSlides (this w) = 0 ->
      SlideInfo.current info = 1
      /\ SlideInfo.element info = None
      /\ SlideInfo.title info = "Slide 1").
Proof.
  intros Hr. apply reachable_Coherent in Hr as Hw. cbv zeta.
  unfold getCurrentSlideInfo. cbn [SlideInfo.total SlideInfo.current
    SlideInfo.element SlideInfo.title].
  destruct (coh_range w Hw) as [H0 Hrg].
  split; [done|]. split; [done|]. split.
  - intros Hpos. split; [lia|].
    destruct (current_slide_exists w Hw Hpos) as (s & Hs & He). by exists s.
  - intros Hz. assert (Hc : currentSlide (this w) = 0) by lia.
    pose proof (coh_total w Hw) as Ht. rewrite Hz in Ht.
    assert (Hnil : slides (page w) = []).
    { destruct (slides (page w)); [done|simpl in Ht; lia]. }
    unfold currentSlideElement, getSlideTitle, fallbackTitle, at_index.
    rewrite Hc, Hnil. by repeat split.
Qed.

Lemma current_slide_info_witness :
  SlideInfo.current (getCurrentSlideInfo emptyDeck) = 1
  /\ SlideInfo.element (getCurrentSlideInfo emptyDeck) = None
  /\ SlideInfo.title (getCurrentSlideInfo emptyDeck) = "Slide 1".
Proof.
  apply (proj2 (proj2 (proj2 (current_slide_info emptyDeck
                                (reachable_init _ _))))).
  reflexivity.
Defined.

(** X17: [PresentationUtils.goToSlide] and [getCurrentSlideInfo] use the
    same 1-based numbering: called with [n] in 1..total while the navigator
    is idle, once the transition has settled the reported current slide is
    [n]; called with any other [n], the reported slide does not change. *)
Theorem utils_goToSlide_round_trip w n :
  reachable w -> isTransitioning (this w) = false ->
  SlideInfo.current
    (getCurrentSlideInfo (settle (dispatch (UtilsGoToSlide n) w)))
  = if (1 <=? n) && (n <=? totalSlides (this w)) then n
    else SlideInfo.current (getCurrentSlideInfo w).
Proof.
  intros Hr Hf. pose proof (reachable_Coherent w Hr) as Hw.
  cbn [dispatch]. unfold getCurrentSlideInfo. cbn [SlideInfo.current].
  pose proof (settle_nav (n - 1) w (conj Hw Hf)) as Hn.
  apply nav_eq' in Hn as [-> _].
  destruct (rejected (this w) (n - 1)) eqn:R.
  - apply rejected_iff in R.
    destruct (Z.leb_spec 1 n); destruct (Z.leb_spec n (totalSlides (this w)));
      simpl; try done.
    destruct R as [R|R]; [congruence|lia].
  - apply accepted_iff in R.
    destruct (Z.leb_spec 1 n); destruct (Z.leb_spec n (totalSlides (this w)));
      simpl; lia.
Qed.

Lemma utils_goToSlide_round_trip_witness :
  SlideInfo.current
    (getCurrentSlideInfo (settle (dispatch (UtilsGoToSlide 3) fiveSlides)))
  = 3.
Proof.
  apply (utils_goToSlide_round_trip fiveSlides 3 (reachable_init _ _)).
  reflexivity.
Defined.

(** ** Auto-hide *)

Lemma autohide_handleUserActivity s :
  AutoHide.consistent s ->
  AutoHide.counting (AutoHide.now s + 3000) (AutoHide.handleUserActivity s)
  /\ AutoHide.now (AutoHide.handleUserActivity s) = AutoHide.now s
  /\ AutoHide.autoHideDelay (AutoHide.handleUserActivity s) = 3000.
Proof.
  intros [Hd Hs].
  assert (Hl : filter (fun t : nat * Z => Some t.1 <> AutoHide.inactivityTimer s)
                      (AutoHide.timers s) = []).
  { destruct Hs as [(due & _ & id & -> & -> & _)|[-> _]]; [|done].
    rewrite filter_cons_False; [done|]. simpl. tauto. }
  unfold AutoHide.counting, AutoHide.handleUserActivity, AutoHide.setTimeout,
    AutoHide.clearTimeout, AutoHide.showNavigation, AutoHide.visible.
  cbn. rewrite Hl, Hd. cbn.
  split; [|done]. exists (AutoHide.nextId s).
  split; [done|]. split; [done|]. split; [apply Nat.lt_succ_diag_r|].
  by destruct (AutoHide.navControls s), (AutoHide.slideCounter s).
Qed.

Lemma autohide_filter_pending (id : nat) (due deadline : Z) :
  deadline < due ->
  filter (fun t : nat * Z => t.2 <= deadline) [(id, due)] = []
  /\ filter (fun t : nat * Z => deadline < t.2) [(id, due)] = [(id, due)].
Proof.
  intros H. split.
  - rewrite filter_cons_False by (cbn [snd]; lia). done.
  - rewrite filter_cons_True by (cbn [snd]; lia). done.
Qed.

Lemma autohide_filter_due (id : nat) (due deadline : Z) :
  due <= deadline ->
  filter (fun t : nat * Z => t.2 <= deadline) [(id, due)] = [(id, due)]
  /\ filter (fun t : nat * Z => deadline < t.2) [(id, due)] = [].
Proof.
  intros H. split.
  - rewrite filter_cons_True by (cbn [snd]; lia). done.
  - rewrite filter_cons_False by (cbn [snd]; lia). done.
Qed.

Lemma autohide_elapse_before ms due s :
  AutoHide.counting due s -> AutoHide.now s + Z.of_N ms < due ->
  AutoHide.counting due (AutoHide.elapse ms s)
  /\ AutoHide.autoHideDelay (AutoHide.elapse ms s) = AutoHide.autoHideDelay s.
Proof.
  intros (id & Ht & Hi & Hn & Hv) Hlt. unfold AutoHide.elapse. cbv zeta.
  rewrite Ht.
  destruct (autohide_filter_pending id due _ Hlt) as [-> ->].
  cbn [foldr AutoHide.timers AutoHide.now AutoHide.nextId AutoHide.navControls AutoHide.slideCounter AutoHide.inactivityTimer AutoHide.autoHideDelay AutoHide.with_now AutoHide.with_timers AutoHide.with_styles AutoHide.hideNavigation]. split; [|done]. by exists id.
Qed.

Lemma autohide_elapse_after ms due s :
  AutoHide.counting due s -> due <= AutoHide.now s + Z.of_N ms ->
  AutoHide.timers (AutoHide.elapse ms s) = []
  /\ AutoHide.dimmed (AutoHide.elapse ms s)
  /\ AutoHide.autoHideDelay (AutoHide.elapse ms s) = AutoHide.autoHideDelay s.
Proof.
  intros (id & Ht & Hi & Hn & Hv) Hle. unfold AutoHide.elapse. cbv zeta.
  rewrite Ht.
  destruct (autohide_filter_due id due _ Hle) as [-> ->].
  cbn [foldr AutoHide.timers AutoHide.now AutoHide.nextId AutoHide.navControls AutoHide.slideCounter AutoHide.inactivityTimer AutoHide.autoHideDelay AutoHide.with_now AutoHide.with_timers AutoHide.with_styles AutoHide.hideNavigation]. split; [done|]. split; [|done].
  unfold AutoHide.dimmed. simpl.
  by destruct (AutoHide.navControls s), (AutoHide.slideCounter s).
Qed.

Lemma autohide_elapse_dimmed ms s :
  AutoHide.timers s = [] -> AutoHide.dimmed s ->
  AutoHide.timers (AutoHide.elapse ms s) = []
  /\ AutoHide.dimmed (AutoHide.elapse ms s)
  /\ AutoHide.autoHideDelay (AutoHide.elapse ms s) = AutoHide.autoHideDelay s.
Proof.
  intros Ht Hd. unfold AutoHide.elapse. cbv zeta. rewrite Ht.
  rewrite !filter_nil. split; [done|]. split; [exact Hd|done].
Qed.

Lemma autohide_consistent_dispatch ev s :
  AutoHide.consistent s -> AutoHide.consistent (AutoHide.dispatch ev s).
Proof.
  intros Hs. destruct ev as [|ms]; simpl.
  - destruct (autohide_handleUserActivity s Hs) as (Hc & Hn & Hd).
    split; [done|]. left. exists (AutoHide.now s + 3000).
    rewrite Hn. split; [lia|done].
  - destruct Hs as [Hd [(due & Hdue & Hc)|[Ht Hdim]]].
    + destruct (Z.lt_ge_cases (AutoHide.now s + Z.of_N ms) due) as [Hlt|Hge].
      * destruct (autohide_elapse_before ms due s Hc Hlt) as [Hc' Hd'].
        split; [congruence|]. left. exists due. split; [|done].
        unfold AutoHide.elapse. cbv zeta.
        destruct Hc as (id & Ht & _). rewrite Ht.
        destruct (autohide_filter_pending id due _ Hlt) as [-> _].
        cbn [foldr AutoHide.timers AutoHide.now AutoHide.nextId AutoHide.navControls AutoHide.slideCounter AutoHide.inactivityTimer AutoHide.autoHideDelay AutoHide.with_now AutoHide.with_timers AutoHide.with_styles AutoHide.hideNavigation]. lia.
      * destruct (autohide_elapse_after ms due s Hc Hge) as (Ht' & Hdim' & Hd').
        split; [congruence|]. by right.
    + destruct (autohide_elapse_dimmed ms s Ht Hdim) as (Ht' & Hdim' & Hd').
      split; [congruence|]. by right.
Qed.

Lemma autohide_consistent_start nav counter t0 :
  AutoHide.consistent (AutoHide.start nav counter t0).
Proof.
  split; [done|]. left. exists (t0 + 3000). split; [simpl; lia|].
  exists 0%nat. simpl. repeat split; try lia.
  - by destruct nav.
  - by destruct counter.
Qed.

Lemma autohide_consistent_run evs s :
  AutoHide.consistent s -> AutoHide.consistent (AutoHide.run evs s).
Proof.
  revert s. induction evs as [|ev evs IH]; intros s Hs; simpl; [done|].
  by apply IH, autohide_consistent_dispatch.
Qed.

Lemma autohide_reachable_consistent s :
  AutoHide.reachable s -> AutoHide.consistent s.
Proof.
  intros (nav & counter & t0 & evs & ->).
  apply autohide_consistent_run, autohide_consistent_start.
Qed.

(** X18: the controls are visible exactly while the countdown runs: in
    every reachable state either exactly one [hideNavigation] callback is
    pending, it is the one [inactivityTimer] names, it is due within 3000
    ms and the controls have opacity 1, or none is pending and the controls
    have opacity 0.3 (the counter 0.7); in both cases the controls keep
    [pointerEvents] at auto, so they stay operable. *)
Theorem autohide_visible_while_counting s :
  AutoHide.reachable s ->
  ((exists id due,
      AutoHide.timers s = [(id, due)]
      /\ AutoHide.inactivityTimer s = Some id
      /\ AutoHide.now s < due <= AutoHide.now s + 3000
      /\ AutoHide.visible s)
   \/ (AutoHide.timers s = [] /\ AutoHide.dimmed s))
  /\ (forall st, AutoHide.navControls s = Some st ->
        AutoHide.pointerEvents st = "auto"
        /\ (AutoHide.opacity st = "1" \/ AutoHide.opacity st = "0.3")).
Proof.
  intros Hr. apply autohide_reachable_consistent in Hr as [_ Hs].
  split.
  - destruct Hs as [(due & Hdue & id & Ht & Hi & _ & Hv)|[Ht Hd]].
    + left. by exists id, due.
    + by right.
  - intros st Hst.
    destruct Hs as [(due & _ & id & _ & _ & _ & [Hv _])|[_ [Hd _]]].
    + rewrite Hst in Hv. injection Hv as ->. simpl. auto.
    + rewrite Hst in Hd. injection Hd as ->. simpl. auto.
Qed.

Lemma autohide_visible_while_counting_witness :
  exists st,
    AutoHide.navControls
      (AutoHide.run [AutoHide.Elapse 2000; AutoHide.Activity;
                     AutoHide.Elapse 3500] AutoHide.sample) = Some st
    /\ AutoHide.pointerEvents st = "auto"
    /\ (AutoHide.opacity st = "1" \/ AutoHide.opacity st = "0.3").
Proof.
  eexists. split; [reflexivity|].
  apply (proj2 (autohide_visible_while_counting
           (AutoHide.run [AutoHide.Elapse 2000; AutoHide.Activity;
                          AutoHide.Elapse 3500] AutoHide.sample)
           ltac:(eexists _, _, _, _; reflexivity))).
  reflexivity.
Defined.

(** X19: after a mouse move or a click, in any reachable state, the
    controls stay visible for 3000 ms and are dimmed from then on, as long
    as no further activity occurs: an earlier countdown has no effect. *)
Theorem autohide_dims_after_3000ms s ms :
  AutoHide.reachable s ->
  let s' := AutoHide.elapse ms (AutoHide.handleUserActivity s) in
  ((ms < 3000)%N -> AutoHide.visible s')
  /\ ((3000 <= ms)%N -> AutoHide.dimmed s' /\ AutoHide.timers s' = []).
Proof.
  intros Hr. apply autohide_reachable_consistent in Hr. cbv zeta.
  destruct (autohide_handleUserActivity s Hr) as (Hc & Hn & _).
  split; intros Hms.
  - destruct (autohide_elapse_before ms _ _ Hc) as [(id & _ & _ & _ & Hv) _];
      [rewrite Hn; lia | done].
  - destruct (autohide_elapse_after ms _ _ Hc) as (Ht & Hd & _);
      [rewrite Hn; lia | done].
Qed.

Lemma autohide_dims_after_3000ms_witness :
  let s := AutoHide.run [AutoHide.Elapse 2999] AutoHide.sample in
  AutoHide.visible (AutoHide.elapse 2999 (AutoHide.handleUserActivity s))
  /\ AutoHide.dimmed (AutoHide.elapse 3000 (AutoHide.handleUserActivity s)).
Proof.
  assert (Hr : AutoHide.reachable
                 (AutoHide.run [AutoHide.Elapse 2999] AutoHide.sample)).
  { eexists _, _, _, _. reflexivity. }
  split.
  - apply (proj1 (autohide_dims_after_3000ms _ 2999 Hr)). reflexivity.
  - apply (proj2 (autohide_dims_after_3000ms _ 3000 Hr)). discriminate.
Defined.

(** The activities of a user who never pauses for 3000 ms: each one
    follows the previous one after the given gap. *)
Lemma autohide_active_run gaps s :
  AutoHide.counting (AutoHide.now s + 3000) s ->
  AutoHide.autoHideDelay s = 3000 ->
  Forall (fun g => (g < 3000)%N) gaps ->
  let s' := foldl (fun s g => AutoHide.handleUserActivity (AutoHide.elapse g s))
                  s gaps in
  AutoHide.counting (AutoHide.now s' + 3000) s'
  /\ AutoHide.autoHideDelay s' = 3000.
Proof.
  intros Hc Hd Hg. revert s Hc Hd.
  induction Hg as [|g gaps Hlt _ IH]; intros s Hc Hd; simpl; [done|].
  destruct (autohide_elapse_before g _ s Hc) as [Hc' Hd']; [lia|].
  assert (Hcons : AutoHide.consistent (AutoHide.elapse g s)).
  { split; [congruence|]. left. exists (AutoHide.now s + 3000).
    split; [|done]. unfold AutoHide.elapse. cbv zeta.
    destruct Hc as (id & Ht & _). rewrite Ht.
    destruct (autohide_filter_pending id (AutoHide.now s + 3000)
                (AutoHide.now s + Z.of_N g)) as [-> _]; [lia|].
    cbn [foldr AutoHide.now AutoHide.with_now]. lia. }
  destruct (autohide_handleUserActivity _ Hcons) as (Hc2 & Hn2 & Hd2).
  apply IH; [by rewrite Hn2 | done].
Qed.

(** X20: as long as activities follow each other by less than 3000 ms the
    controls never dim: after any number of such activities, and after any
    wait of less than 3000 ms since the last one, they are visible. *)
Theorem autohide_never_dims_under_activity s gaps ms :
  AutoHide.reachable s ->
  Forall (fun g => (g < 3000)%N) gaps -> (ms < 3000)%N ->
  AutoHide.visible
    (AutoHide.elapse ms
       (foldl (fun s g => AutoHide.handleUserActivity (AutoHide.elapse g s))
              (AutoHide.handleUserActivity s) gaps)).
Proof.
  intros Hr Hg Hms. apply autohide_reachable_consistent in Hr.
  destruct (autohide_handleUserActivity s Hr) as (Hc & Hn & Hd).
  destruct (autohide_active_run gaps _ ltac:(by rewrite Hn) Hd Hg) as [Hc' _].
  destruct (autohide_elapse_before ms _ _ Hc') as [(id & _ & _ & _ & Hv) _];
    [lia | done].
Qed.

Lemma autohide_never_dims_under_activity_witness :
  AutoHide.visible
    (AutoHide.elapse 2999
       (foldl (fun s g => AutoHide.handleUserActivity (AutoHide.elapse g s))
              (AutoHide.handleUserActivity AutoHide.sample)
              [2999%N; 10%N; 2500%N])).
Proof.
  apply (autohide_never_dims_under_activity AutoHide.sample).
  - eexists _, _, _, []. reflexivity.
  - repeat constructor.
  - reflexivity.
Defined.
